(** * Resizer: bitrate-budgeted transcode and frame-step playback

    A shallow embedding of [Resizer/main.cpp]: the size-to-bitrate
    computation and the range-bounded decode/encode loop of
    [TranscodeWithSizeAndScale], with its audio passthrough; the playback
    globals with the commands [StartPlayback], [StopPlayback],
    [TogglePlayPause], [EnsureThreadRunningPaused], [SeekMs],
    [StepForward], [StepBackward] and the loop of [PlaybackThreadProc];
    the probe [GetVideoInfo] and the preview [ExtractMiddleFrameBitmap];
    and the handlers of the start button and of the seek bar in
    [WndProc].

    C++ [double] is IEEE 754 binary64 with round-to-nearest-even, which is
    what Rocq's primitive [float] implements; [int64_t] and [int] are
    modelled in [Z] with their ranges written out where the program
    converts into them. *)

From Stdlib Require Import ZArith Lia List Bool String QArith Qround.
From Stdlib Require Import Floats.
Import ListNotations.

Set Warnings "-inexact-float".

Open Scope Z_scope.

(** ** C++ arithmetic *)

Module Cxx.

Definition INT64_MIN : Z := - 2 ^ 63.
Definition INT64_MAX : Z := 2 ^ 63 - 1.
Definition INT_MIN : Z := - 2 ^ 31.
Definition INT_MAX : Z := 2 ^ 31 - 1.

Definition in_int64 (z : Z) : bool := (INT64_MIN <=? z) && (z <=? INT64_MAX).
Definition in_int (z : Z) : bool := (INT_MIN <=? z) && (z <=? INT_MAX).

(** The value of a finite binary64 number [m * 2^e], truncated toward
    zero.  NaN and the infinities have no integer part. *)
Definition trunc_sf (f : spec_float) : option Z :=
  match f with
  | S754_zero _ => Some 0
  | S754_finite s m e =>
      let a := if 0 <=? e then Zpos m * 2 ^ e else Zpos m / 2 ^ (- e) in
      Some (if s then - a else a)
  | S754_infinity _ | S754_nan => None
  end.

(** [(int64_t)x] for a double [x]: the fractional part is discarded; the
    behaviour is undefined ([None]) when the truncated value does not
    fit the destination type. *)
Definition to_int64 (x : float) : option Z :=
  match trunc_sf (Prim2SF x) with
  | Some z => if in_int64 z then Some z else None
  | None => None
  end.

(** [(int)x] for a double [x]. *)
Definition to_int (x : float) : option Z :=
  match trunc_sf (Prim2SF x) with
  | Some z => if in_int z then Some z else None
  | None => None
  end.

(** Implicit conversion of an integer to [double] (round to nearest,
    ties to even). *)
Definition of_int (z : Z) : float :=
  SF2Prim (binary_normalize prec emax z 0 false).

(** [llround]: nearest integer, halfway cases away from zero. *)
Definition llround_sf (f : spec_float) : option Z :=
  match f with
  | S754_zero _ => Some 0
  | S754_finite s m e =>
      let a :=
        if 0 <=? e then Zpos m * 2 ^ e
        else
          let d := 2 ^ (- e) in
          if d <=? 2 * (Zpos m mod d) then Zpos m / d + 1 else Zpos m / d in
      Some (if s then - a else a)
  | S754_infinity _ | S754_nan => None
  end.

Definition llround (x : float) : option Z :=
  match llround_sf (Prim2SF x) with
  | Some z => if in_int64 z then Some z else None
  | None => None
  end.

(** [a / b] on [int64_t]: truncating; undefined for a zero divisor and
    for [INT64_MIN / -1]. *)
Definition div64 (a b : Z) : option Z :=
  if b =? 0 then None
  else if (a =? INT64_MIN) && (b =? -1) then None
  else Some (Z.quot a b).

(** Conversion of an [int64_t] to [int]: the value modulo [2^32]. *)
Definition wrap_int (z : Z) : Z := (z + 2 ^ 31) mod 2 ^ 32 - 2 ^ 31.

(** [a / b] on [int]. *)
Definition div32 (a b : Z) : option Z :=
  if b =? 0 then None
  else if (a =? INT_MIN) && (b =? -1) then None
  else Some (Z.quot a b).

(** The Windows macro [max(a,b)], [((a) > (b)) ? (a) : (b)], on doubles. *)
Definition max (a b : float) : float := if (b <? a)%float then a else b.

End Cxx.

(** ** Time model (libavutil) *)

Record AVRational : Type := mkRational { num : Z; den : Z }.

Definition AV_TIME_BASE : Z := 1000000.
Definition AV_TIME_BASE_Q : AVRational := mkRational 1 AV_TIME_BASE.
Definition AV_NOPTS_VALUE : Z := Cxx.INT64_MIN.

(** [av_q2d]: [a.num / (double) a.den]. *)
Definition av_q2d (a : AVRational) : float :=
  (Cxx.of_int (num a) / Cxx.of_int (den a))%float.

(** [av_inv_q]. *)
Definition av_inv_q (q : AVRational) : AVRational := mkRational (den q) (num q).

(** ** The size budget of [TranscodeWithSizeAndScale] *)

(** The block that derives [target_bitrate] from the size in megabytes and
    the segment duration.  [None] is undefined behaviour. *)
Definition target_bitrate_of (target_size_mb segment_duration : float) : option Z :=
  match Cxx.to_int64 (target_size_mb * 8.0 * 1024.0 * 1024.0)%float with
  | None => None
  | Some total_bits =>
      match Cxx.to_int64 (Cxx.of_int total_bits * 0.95)%float with
      | None => None
      | Some video_bits =>
          match Cxx.to_int64 segment_duration with
          | None => None
          | Some secs => Cxx.div64 video_bits secs
          end
      end
  end.

(** The budget as the specification words it, over exact rationals:
    [floor((sizeMB * 8 * 1024^2 * 0.95) / (end - start))]. *)
Definition EncodeBudget_bitrate (sizeMB start_s end_s : Q) : Z :=
  Qfloor ((sizeMB * 8 * (1024 * 1024) * (95 # 100)) / (end_s - start_s))%Q.


(** ** Demuxed and decoded media (libavformat, libavcodec)

    The media library is an external collaborator.  What it hands to the
    program is data of the model: a packet carries the answer of
    [avcodec_send_packet] for it and the frames the decoder makes
    available once it has been sent. *)

Inductive AVMediaType : Type :=
| AVMEDIA_TYPE_VIDEO
| AVMEDIA_TYPE_AUDIO
| AVMEDIA_TYPE_OTHER.

Record AVStream : Type := mkStream {
  codec_type : AVMediaType;
  time_base : AVRational
}.

Record AVFrame : Type := mkFrame {
  best_effort_timestamp : Z;
  pts : Z;
  picture : nat
}.

Record AVPacket : Type := mkPacket {
  stream_index : Z;
  pkt_pts : Z;
  pkt_dts : Z;
  send_ok : bool;
  decoded : list AVFrame
}.

Definition is_video (st : AVStream) : bool :=
  match codec_type st with AVMEDIA_TYPE_VIDEO => true | _ => false end.

Definition is_audio (st : AVStream) : bool :=
  match codec_type st with AVMEDIA_TYPE_AUDIO => true | _ => false end.

(** An instance of libavutil's [av_rescale_q] used to run the model on
    concrete inputs: [a * bq / cq] rounded to nearest, halfway cases away
    from zero, for time bases with positive terms. *)
Definition rescale_near (a : Z) (bq cq : AVRational) : Z :=
  let b := num bq * den cq in
  let c := den bq * num cq in
  if a <? 0 then - ((- a * b + c / 2) / c) else (a * b + c / 2) / c.

(** ** The transcode pipeline *)

Module Transcode.

Inductive AVCodec : Type :=
| h264_nvenc          (* the encoder named "h264_nvenc" *)
| h264_software.      (* the encoder registered for AV_CODEC_ID_H264 *)

Inductive AVPixelFormat : Type :=
| AV_PIX_FMT_NV12
| AV_PIX_FMT_YUV420P.

(** The fields of [enc_ctx] set before [avcodec_open2]. *)
Record EncoderConfig : Type := mkConfig {
  height : Z;
  width : Z;
  pix_fmt : AVPixelFormat;
  enc_time_base : AVRational;
  bit_rate : Z;
  rc_max_rate : Z;
  rc_buffer_size : Z
}.

(** The calls into the media library, in program order. *)
Inductive call : Type :=
| avformat_open_input
| avformat_find_stream_info
| avcodec_find_decoder
| avcodec_alloc_context3_decoder
| avcodec_parameters_to_context
| avcodec_open2_decoder
| avformat_alloc_output_context2
| avcodec_find_encoder_by_name
| avcodec_find_encoder
| avformat_new_stream_video
| avcodec_alloc_context3_encoder
| avcodec_open2_encoder (codec : AVCodec) (cfg : EncoderConfig)
| avcodec_parameters_from_context
| avformat_new_stream_audio
| avcodec_parameters_copy
| avio_open
| avformat_write_header
| av_seek_frame (timestamp : Z)
| avcodec_flush_buffers
| av_frame_packet_alloc
| sws_getContext
| av_frame_get_buffer
| avcodec_receive_frame (frame : AVFrame)
| avcodec_send_frame (frame : AVFrame) (filt_pts : Z)
| av_interleaved_write_frame_audio (out_pts out_dts : Z)
| avcodec_send_frame_null
| av_write_trailer.

(** The early exits, one per message given to [OutputDebugStringA]. *)
Inductive failure : Type :=
| EndNotAfterStart
| InvalidSegmentDuration
| InvalidTargetBitrate
| OpenInputFailed
| StreamInfoFailed
| NoVideoStream
| NoVideoDecoder
| DecoderAllocFailed
| DecoderParamsFailed
| DecoderOpenFailed
| OutputContextFailed
| NoEncoder
| VideoStreamFailed
| EncoderAllocFailed
| EncoderOpenFailed
| EncoderParamsFailed
| OutputOpenFailed
| WriteHeaderFailed
| AllocFailed
| SwsFailed
| FrameBufferFailed.

Definition message (f : failure) : string :=
  match f with
  | EndNotAfterStart => "End time must be greater than start time."
  | InvalidSegmentDuration => "Invalid segment duration."
  | InvalidTargetBitrate => "Invalid target bitrate calculated."
  | OpenInputFailed => "Could not open input file."
  | StreamInfoFailed => "Could not find stream info."
  | NoVideoStream => "No video stream found."
  | NoVideoDecoder => "Video decoder not found."
  | DecoderAllocFailed => "Failed to allocate video decoder context."
  | DecoderParamsFailed => "Failed to copy video params to decoder."
  | DecoderOpenFailed => "Failed to open video decoder."
  | OutputContextFailed => "Could not create output format context."
  | NoEncoder => "H.264 encoder not found."
  | VideoStreamFailed => "Could not create video output stream."
  | EncoderAllocFailed => "Failed to allocate video encoder context."
  | EncoderOpenFailed => "Could not open video encoder."
  | EncoderParamsFailed => "Failed to copy encoder params to output."
  | OutputOpenFailed => "Could not open output file."
  | WriteHeaderFailed => "Error writing header to output."
  | AllocFailed => "Could not allocate frame/packet."
  | SwsFailed => "Could not initialize SwsContext."
  | FrameBufferFailed => "Could not allocate buffer for scaled frame."
  end.

(** How a run ends: [Ok] carries a value on, [Abort] is [return false] or
    [goto cleanup], [UB] is behaviour C++ leaves undefined. *)
Inductive result (A : Type) : Type :=
| Ok (a : A)
| Abort (f : failure)
| UB.

Arguments Ok {A} a.
Arguments Abort {A} f.
Arguments UB {A}.

(** A computation yields a result and the calls it made. *)
Definition M (A : Type) : Type := result A * list call.

Definition ret {A : Type} (a : A) : M A := (Ok a, []).

Definition bind {A B : Type} (m : M A) (k : A -> M B) : M B :=
  match m with
  | (Ok a, t) => let (r, t') := k a in (r, t ++ t')
  | (Abort f, t) => (Abort f, t)
  | (UB, t) => (UB, t)
  end.

Definition tell (t : list call) : M unit := (Ok tt, t).

(** A library call that reports success or failure. *)
Definition try_call (c : call) (ok : bool) (f : failure) : M unit :=
  if ok then (Ok tt, [c]) else (Abort f, [c]).

Definition abort_if (b : bool) (f : failure) : M unit :=
  if b then (Abort f, []) else (Ok tt, []).

Definition defined {A : Type} (o : option A) : M A :=
  match o with
  | Some a => (Ok a, [])
  | None => (UB, [])
  end.

Notation "x <- m ;; k" := (bind m (fun x => k))
  (at level 61, m at next level, right associativity).
Notation "m ;;; k" := (bind m (fun _ => k))
  (at level 61, right associativity).

(** The answers of the media library during one run. *)
Record Env : Type := mkEnv {
  open_input_ok : bool;
  stream_info_ok : bool;
  streams : list AVStream;
  decoder_found : bool;
  decoder_alloc_ok : bool;
  decoder_params_ok : bool;
  decoder_open_ok : bool;
  framerate : AVRational;
  output_ctx_ok : bool;
  output_nofile : bool;
  nvenc_by_name : bool;
  h264_by_id : bool;
  video_stream_ok : bool;
  encoder_alloc_ok : bool;
  encoder_open_ok : AVCodec -> bool;
  encoder_params_ok : bool;
  audio_stream_ok : bool;
  audio_params_ok : bool;
  audio_out_time_base : AVRational;
  avio_open_ok : bool;
  write_header_ok : bool;
  alloc_ok : bool;
  sws_ok : bool;
  frame_buffer_ok : bool;
  packets : list AVPacket;
  send_frame_ok : AVFrame -> bool
}.

(** The first video stream and the first audio stream, [-1] when absent. *)
Fixpoint find_streams (sts : list AVStream) (i videoStreamIndex audioStreamIndex : Z)
  : Z * Z :=
  match sts with
  | [] => (videoStreamIndex, audioStreamIndex)
  | st :: rest =>
      if is_video st && (videoStreamIndex <? 0)
      then find_streams rest (i + 1) i audioStreamIndex
      else if is_audio st && (audioStreamIndex <? 0)
      then find_streams rest (i + 1) videoStreamIndex i
      else find_streams rest (i + 1) videoStreamIndex audioStreamIndex
  end.

Definition stream_at (sts : list AVStream) (i : Z) : AVStream :=
  nth (Z.to_nat i) sts (mkStream AVMEDIA_TYPE_OTHER (mkRational 0 1)).

(** The encoder lookup: the hardware encoder by name, else the H.264
    encoder by codec id. *)
Definition select_encoder (e : Env) : M AVCodec :=
  tell [avcodec_find_encoder_by_name] ;;;
  if nvenc_by_name e then ret h264_nvenc
  else
    tell [avcodec_find_encoder] ;;;
    if h264_by_id e then ret h264_software else (Abort NoEncoder, []).

Definition in_pts_of (frame : AVFrame) : Z :=
  if best_effort_timestamp frame =? AV_NOPTS_VALUE
  then pts frame else best_effort_timestamp frame.

Definition in_time_of (tb : AVRational) (frame : AVFrame) : float :=
  (Cxx.of_int (in_pts_of frame) * av_q2d tb)%float.

(** [rel_vid_pts]: the timestamp rebased to zero at the start offset. *)
Definition rel_vid_pts_of (video_start_pts : Z) (frame : AVFrame) : Z :=
  let rel_vid_pts := in_pts_of frame - video_start_pts in
  if rel_vid_pts <? 0 then 0 else rel_vid_pts.

Section Loop.

Variable av_rescale_q : Z -> AVRational -> AVRational -> Z.
Variable e : Env.
Variables start_seconds end_seconds : float.
Variables video_tb enc_tb : AVRational.
Variables video_start_pts audio_start_pts : Z.
Variables videoStreamIndex audioStreamIndex : Z.
Variable audio_tb : option AVRational.

(** How the inner [while (avcodec_receive_frame(...) == 0)] is left. *)
Inductive receive_exit : Type :=
| Drained                                  (* no frame left *)
| SendFailed (pending : list AVFrame)      (* [break] after avcodec_send_frame *)
| PastEnd.                                 (* [goto flush_encoder] *)

Fixpoint receive_frames (queue : list AVFrame) : list call * receive_exit :=
  match queue with
  | [] => ([], Drained)
  | frame :: q =>
      let in_time := in_time_of video_tb frame in
      if (end_seconds <? in_time)%float
      then ([avcodec_receive_frame frame], PastEnd)
      else if (in_time <? start_seconds)%float
      then let (t, x) := receive_frames q in (avcodec_receive_frame frame :: t, x)
      else
        let filt_pts :=
          av_rescale_q (rel_vid_pts_of video_start_pts frame) video_tb enc_tb in
        if send_frame_ok e frame
        then
          let (t, x) := receive_frames q in
          (avcodec_receive_frame frame :: avcodec_send_frame frame filt_pts :: t, x)
        else
          ([avcodec_receive_frame frame; avcodec_send_frame frame filt_pts],
           SendFailed q)
  end.

(** An audio packet is passed through when its time lies in the range. *)
Definition audio_packet (in_tb : AVRational) (pkt : AVPacket) : list call :=
  let p := pkt_pts pkt in
  let d := pkt_dts pkt in
  let p1 := if (p =? AV_NOPTS_VALUE) && negb (d =? AV_NOPTS_VALUE) then d else p in
  let d1 := if (d =? AV_NOPTS_VALUE) && negb (p1 =? AV_NOPTS_VALUE) then p1 else d in
  let aud_in_pts := if negb (p1 =? AV_NOPTS_VALUE) then p1 else d1 in
  let aud_time := (Cxx.of_int aud_in_pts * av_q2d in_tb)%float in
  if (aud_time <? start_seconds)%float || (end_seconds <? aud_time)%float then []
  else
    let shift (v : Z) :=
      if v =? AV_NOPTS_VALUE then v
      else
        let v' := v - audio_start_pts in
        let v'' := if v' <? 0 then 0 else v' in
        av_rescale_q v'' in_tb (audio_out_time_base e) in
    [av_interleaved_write_frame_audio (shift p1) (shift d1)].

(** The loop [while (av_read_frame(in_fmt_ctx, pkt) >= 0)]; [queue] holds
    the frames the decoder has ready but the program has not received. *)
Fixpoint read_packets (pkts : list AVPacket) (queue : list AVFrame) : list call :=
  match pkts with
  | [] => []
  | pkt :: rest =>
      if stream_index pkt =? videoStreamIndex then
        if send_ok pkt then
          match receive_frames (queue ++ decoded pkt) with
          | (t, Drained) => t ++ read_packets rest []
          | (t, SendFailed pending) => t ++ read_packets rest pending
          | (t, PastEnd) => t
          end
        else []
      else
        match audio_tb with
        | Some in_tb =>
            if stream_index pkt =? audioStreamIndex
            then audio_packet in_tb pkt ++ read_packets rest queue
            else read_packets rest queue
        | None => read_packets rest queue
        end
  end.

End Loop.

Section Run.

Variable av_rescale_q : Z -> AVRational -> AVRational -> Z.
Variable e : Env.

(** The optional audio output stream: a failure here only disables audio. *)
Definition open_audio (audio_in_stream : option AVStream) : M (option AVStream) :=
  match audio_in_stream with
  | None => ret None
  | Some a =>
      tell [avformat_new_stream_audio] ;;;
      if audio_stream_ok e then
        tell [avcodec_parameters_copy] ;;;
        if audio_params_ok e then ret (Some a) else ret None
      else ret None
  end.

Definition TranscodeWithSizeAndScale (target_size_mb : float)
    (scale_factor orig_w orig_h : Z) (start_seconds end_seconds : float) : M unit :=
  abort_if (end_seconds <=? start_seconds)%float EndNotAfterStart ;;;
  let segment_duration := (end_seconds - start_seconds)%float in
  abort_if (segment_duration <=? 0.0)%float InvalidSegmentDuration ;;;
  target_bitrate <- defined (target_bitrate_of target_size_mb segment_duration) ;;
  abort_if (target_bitrate <=? 0) InvalidTargetBitrate ;;;
  try_call avformat_open_input (open_input_ok e) OpenInputFailed ;;;
  try_call avformat_find_stream_info (stream_info_ok e) StreamInfoFailed ;;;
  let (videoStreamIndex, audioStreamIndex) := find_streams (streams e) 0 (-1) (-1) in
  abort_if (videoStreamIndex <? 0) NoVideoStream ;;;
  let video_in_stream := stream_at (streams e) videoStreamIndex in
  let audio_in_stream :=
    if 0 <=? audioStreamIndex
    then Some (stream_at (streams e) audioStreamIndex) else None in
  try_call avcodec_find_decoder (decoder_found e) NoVideoDecoder ;;;
  try_call avcodec_alloc_context3_decoder (decoder_alloc_ok e) DecoderAllocFailed ;;;
  try_call avcodec_parameters_to_context (decoder_params_ok e) DecoderParamsFailed ;;;
  try_call avcodec_open2_decoder (decoder_open_ok e) DecoderOpenFailed ;;;
  try_call avformat_alloc_output_context2 (output_ctx_ok e) OutputContextFailed ;;;
  video_encoder <- select_encoder e ;;
  try_call avformat_new_stream_video (video_stream_ok e) VideoStreamFailed ;;;
  try_call avcodec_alloc_context3_encoder (encoder_alloc_ok e) EncoderAllocFailed ;;;
  enc_height <- defined (Cxx.div32 orig_h scale_factor) ;;
  enc_width <- defined (Cxx.div32 orig_w scale_factor) ;;
  let cfg :=
    mkConfig enc_height enc_width
      (match video_encoder with
       | h264_nvenc => AV_PIX_FMT_NV12
       | h264_software => AV_PIX_FMT_YUV420P
       end)
      (av_inv_q (framerate e))
      target_bitrate target_bitrate (Cxx.wrap_int target_bitrate) in
  try_call (avcodec_open2_encoder video_encoder cfg)
    (encoder_open_ok e video_encoder) EncoderOpenFailed ;;;
  try_call avcodec_parameters_from_context (encoder_params_ok e) EncoderParamsFailed ;;;
  audio_in_stream <- open_audio audio_in_stream ;;
  (if output_nofile e then ret tt
   else try_call avio_open (avio_open_ok e) OutputOpenFailed) ;;;
  try_call avformat_write_header (write_header_ok e) WriteHeaderFailed ;;;
  let video_tb := time_base video_in_stream in
  start_av <- defined (Cxx.llround (start_seconds * Cxx.of_int AV_TIME_BASE)%float) ;;
  let video_start_pts := av_rescale_q start_av AV_TIME_BASE_Q video_tb in
  tell [av_seek_frame video_start_pts] ;;;
  let audio_start_pts :=
    match audio_in_stream with
    | Some a => av_rescale_q start_av AV_TIME_BASE_Q (time_base a)
    | None => 0
    end in
  tell [avcodec_flush_buffers] ;;;
  try_call av_frame_packet_alloc (alloc_ok e) AllocFailed ;;;
  try_call sws_getContext (sws_ok e) SwsFailed ;;;
  try_call av_frame_get_buffer (frame_buffer_ok e) FrameBufferFailed ;;;
  tell (read_packets av_rescale_q e start_seconds end_seconds video_tb
          (enc_time_base cfg) video_start_pts audio_start_pts
          videoStreamIndex audioStreamIndex
          (option_map time_base audio_in_stream) (packets e) []) ;;;
  tell [avcodec_send_frame_null; av_write_trailer].

End Run.

(** The [bool] the function returns; [None] when the run is undefined. *)
Definition returns {A : Type} (m : M A) : option bool :=
  match fst m with
  | Ok _ => Some true
  | Abort _ => Some false
  | UB => None
  end.

Definition calls {A : Type} (m : M A) : list call := snd m.

(** *** Notions used to state the properties of a run *)

Definition video_stream_index (e : Env) : Z :=
  fst (find_streams (streams e) 0 (-1) (-1)).

Definition video_in_stream (e : Env) : AVStream :=
  stream_at (streams e) (video_stream_index e).

(** The start offset expressed in the time base of the source stream. *)
Definition video_start_pts_of (av_rescale_q : Z -> AVRational -> AVRational -> Z)
    (e : Env) (start_seconds : float) : option Z :=
  match Cxx.llround (start_seconds * Cxx.of_int AV_TIME_BASE)%float with
  | Some start_av =>
      Some (av_rescale_q start_av AV_TIME_BASE_Q (time_base (video_in_stream e)))
  | None => None
  end.

Definition is_send_frame (c : call) : bool :=
  match c with avcodec_send_frame _ _ => true | _ => false end.

(** The calls that only the decode loop makes. *)
Definition is_loop_call (c : call) : bool :=
  match c with
  | avcodec_receive_frame _ | avcodec_send_frame _ _
  | av_interleaved_write_frame_audio _ _ => true
  | _ => false
  end.

Section Trace.

Variable av_rescale_q : Z -> AVRational -> AVRational -> Z.
Variables start_seconds end_seconds : float.
Variables video_tb enc_tb : AVRational.
Variable video_start_pts : Z.

(** The shape of the calls of the decode loop: each received frame is
    dropped, handed to the encoder with its rebased timestamp, or ends
    the loop.  The index tells whether the loop was ended by a frame past
    the end of the range. *)
Inductive loop_trace : bool -> list call -> Prop :=
| trace_nil : loop_trace false []
| trace_stop (frame : AVFrame) :
    (end_seconds <? in_time_of video_tb frame)%float = true ->
    loop_trace true [avcodec_receive_frame frame]
| trace_drop (frame : AVFrame) (b : bool) (t : list call) :
    (end_seconds <? in_time_of video_tb frame)%float = false ->
    (in_time_of video_tb frame <? start_seconds)%float = true ->
    loop_trace b t ->
    loop_trace b (avcodec_receive_frame frame :: t)
| trace_send (frame : AVFrame) (b : bool) (t : list call) :
    (end_seconds <? in_time_of video_tb frame)%float = false ->
    (in_time_of video_tb frame <? start_seconds)%float = false ->
    loop_trace b t ->
    loop_trace b
      (avcodec_receive_frame frame
       :: avcodec_send_frame frame
            (av_rescale_q (rel_vid_pts_of video_start_pts frame) video_tb enc_tb)
       :: t)
| trace_audio (p d : Z) (b : bool) (t : list call) :
    loop_trace b t ->
    loop_trace b (av_interleaved_write_frame_audio p d :: t).

End Trace.

(** A file used to run the model: a video stream in milliseconds with
    frames on both sides of the range from 10 s to 20 s, and an audio
    stream. *)
Definition sample_frame (t : Z) : AVFrame := mkFrame t t 0.

Definition sample_video_packet (t : Z) : AVPacket :=
  mkPacket 0 t t true [sample_frame t].

Definition sample_env (nvenc software : bool) : Env :=
  mkEnv true true
    [mkStream AVMEDIA_TYPE_VIDEO (mkRational 1 1000);
     mkStream AVMEDIA_TYPE_AUDIO (mkRational 1 48000)]
    true true true true (mkRational 30 1) true false nvenc software
    true true (fun _ => true) true true true (mkRational 1 48000)
    true true true true true
    [sample_video_packet 9000; sample_video_packet 9967;
     mkPacket 1 480000 480000 true [];
     sample_video_packet 10000; sample_video_packet 10033;
     sample_video_packet 19967; sample_video_packet 20000;
     sample_video_packet 20033; sample_video_packet 20067]
    (fun _ => true).

End Transcode.

(** ** The playback and seek engine *)

Module Playback.

(** A bitmap handle; [None] is the null handle.  A bitmap made from a
    decoded frame is named by the picture it shows. *)
Definition HBITMAP : Type := option nat.

(** The life of the decode thread.  A running thread owns the demuxer
    position ([reader]: what [av_read_frame] will deliver next) and the
    frames the decoder has ready ([queue]). *)
Inductive ThreadState : Type :=
| NoThread
| Spawned
| Running (reader : list AVPacket) (queue : list AVFrame)
| Exited.

(** The globals shared by the window procedure and the decode thread. *)
Record Player : Type := mkPlayer {
  g_duration : float;
  g_videoFPS : float;
  thread : ThreadState;
  g_playThreadShouldExit : bool;
  g_isPlaying : bool;
  g_seekRequested : bool;
  g_seekTargetMs : Z;
  g_currentPosMs : Z;
  g_decodeSingleFrame : bool;
  g_stepDir : Z;
  g_hFrameBitmap : HBITMAP
}.

(** [g_hPlaybackThread] is non-null from the spawn to [StopPlayback]. *)
Definition g_hPlaybackThread (s : Player) : bool :=
  match thread s with NoThread => false | _ => true end.

Definition set_thread (t : ThreadState) (s : Player) : Player :=
  mkPlayer (g_duration s) (g_videoFPS s) t (g_playThreadShouldExit s)
    (g_isPlaying s) (g_seekRequested s) (g_seekTargetMs s) (g_currentPosMs s)
    (g_decodeSingleFrame s) (g_stepDir s) (g_hFrameBitmap s).

Definition set_playThreadShouldExit (b : bool) (s : Player) : Player :=
  mkPlayer (g_duration s) (g_videoFPS s) (thread s) b
    (g_isPlaying s) (g_seekRequested s) (g_seekTargetMs s) (g_currentPosMs s)
    (g_decodeSingleFrame s) (g_stepDir s) (g_hFrameBitmap s).

Definition set_isPlaying (b : bool) (s : Player) : Player :=
  mkPlayer (g_duration s) (g_videoFPS s) (thread s) (g_playThreadShouldExit s)
    b (g_seekRequested s) (g_seekTargetMs s) (g_currentPosMs s)
    (g_decodeSingleFrame s) (g_stepDir s) (g_hFrameBitmap s).

Definition set_seekRequested (b : bool) (s : Player) : Player :=
  mkPlayer (g_duration s) (g_videoFPS s) (thread s) (g_playThreadShouldExit s)
    (g_isPlaying s) b (g_seekTargetMs s) (g_currentPosMs s)
    (g_decodeSingleFrame s) (g_stepDir s) (g_hFrameBitmap s).

Definition set_seekTargetMs (ms : Z) (s : Player) : Player :=
  mkPlayer (g_duration s) (g_videoFPS s) (thread s) (g_playThreadShouldExit s)
    (g_isPlaying s) (g_seekRequested s) ms (g_currentPosMs s)
    (g_decodeSingleFrame s) (g_stepDir s) (g_hFrameBitmap s).

Definition set_decodeSingleFrame (b : bool) (s : Player) : Player :=
  mkPlayer (g_duration s) (g_videoFPS s) (thread s) (g_playThreadShouldExit s)
    (g_isPlaying s) (g_seekRequested s) (g_seekTargetMs s) (g_currentPosMs s)
    b (g_stepDir s) (g_hFrameBitmap s).

Definition set_stepDir (d : Z) (s : Player) : Player :=
  mkPlayer (g_duration s) (g_videoFPS s) (thread s) (g_playThreadShouldExit s)
    (g_isPlaying s) (g_seekRequested s) (g_seekTargetMs s) (g_currentPosMs s)
    (g_decodeSingleFrame s) d (g_hFrameBitmap s).

(** The update made inside the critical section: the published bitmap
    and its position. *)
Definition publish (bmp : HBITMAP) (ms : Z) (s : Player) : Player :=
  mkPlayer (g_duration s) (g_videoFPS s) (thread s) (g_playThreadShouldExit s)
    (g_isPlaying s) (g_seekRequested s) (g_seekTargetMs s) ms
    (g_decodeSingleFrame s) (g_stepDir s) bmp.

Definition set_hFrameBitmap (bmp : HBITMAP) (s : Player) : Player :=
  publish bmp (g_currentPosMs s) s.

(** *** Commands of the window procedure *)

Definition StartPlayback (s : Player) : Player :=
  let s := set_hFrameBitmap None s in
  if g_hPlaybackThread s then s
  else set_thread Spawned (set_isPlaying true (set_playThreadShouldExit false s)).

Definition EnsureThreadRunningPaused (s : Player) : Player :=
  if negb (g_hPlaybackThread s)
  then set_thread Spawned (set_isPlaying false (set_playThreadShouldExit false s))
  else s.

(** [StopPlayback] waits for the thread to leave its loop. *)
Definition StopPlayback (s : Player) : Player :=
  let s := set_playThreadShouldExit true (set_isPlaying false s) in
  if g_hPlaybackThread s then set_thread NoThread s else s.

Definition TogglePlayPause (s : Player) : Player :=
  if negb (g_hPlaybackThread s) then StartPlayback s
  else set_isPlaying (negb (g_isPlaying s)) s.

Definition SeekMs (ms : Z) (decodeSingle : bool) (s : Player) : option Player :=
  let ms := if ms <? 0 then 0 else ms in
  match Cxx.to_int64 (g_duration s * 1000.0)%float with
  | None => None
  | Some durMs =>
      let ms := if durMs <? ms then durMs else ms in
      let s := set_seekRequested true (set_seekTargetMs ms s) in
      Some (if decodeSingle then set_decodeSingleFrame true s else s)
  end.

(** [(int)max(1.0, 1000.0 / g_videoFPS)]. *)
Definition frameMs_of (s : Player) : option Z :=
  Cxx.to_int (Cxx.max 1.0 (1000.0 / g_videoFPS s))%float.

Definition StepForward (s : Player) : option Player :=
  let s := set_isPlaying false (EnsureThreadRunningPaused s) in
  match frameMs_of s with
  | None => None
  | Some frameMs =>
      let s := set_stepDir 1 s in
      SeekMs (g_currentPosMs s + frameMs) true s
  end.

Definition StepBackward (s : Player) : option Player :=
  let s := set_isPlaying false (EnsureThreadRunningPaused s) in
  match frameMs_of s with
  | None => None
  | Some frameMs =>
      let s := set_stepDir (-1) s in
      let target :=
        if frameMs * 2 <? g_currentPosMs s
        then g_currentPosMs s - frameMs * 2 else 0 in
      SeekMs target true s
  end.

(** *** The decode thread *)

(** What the thread needs from the opened file. *)
Record Media : Type := mkMedia {
  init_ok : bool;
  video_time_base : AVRational;
  videoStreamIndex : Z;
  av_seek_frame : Z -> list AVPacket;   (* packets that follow a backward seek *)
  dib_ok : AVFrame -> bool              (* CreateDIBSection succeeded *)
}.

(** What the thread does that others can observe. *)
Inductive event : Type :=
| doSeek (toMs : Z)
| published (bmp : HBITMAP) (ms : Z)
| WM_APP_FRAME_READY.

Section Thread.

Variable av_rescale_q : Z -> AVRational -> AVRational -> Z.
Variable media : Media.

Definition hNew_of (frame : AVFrame) : HBITMAP :=
  if dib_ok media frame then Some (picture frame) else None.

(** [(int64_t)(best_effort_timestamp * av_q2d(time_base) * 1000.0)]. *)
Definition ms_of (frame : AVFrame) : option Z :=
  Cxx.to_int64 (Cxx.of_int (best_effort_timestamp frame)
                * av_q2d (video_time_base media) * 1000.0)%float.

Definition seek_packets (toMs : Z) : list AVPacket :=
  av_seek_frame media (av_rescale_q toMs (mkRational 1 1000) (video_time_base media)).

(** The paused single-frame scan.  [best] is [(bestBmp, bestMs)]. *)
Inductive scan : Type :=
| Produced (bmp : HBITMAP) (ms : Z) (queue : list AVFrame)
| Pending (best : HBITMAP * Z).

Fixpoint receive_single (stepDir targetMs : Z) (queue : list AVFrame)
    (best : HBITMAP * Z) : option scan :=
  match queue with
  | [] => Some (Pending best)
  | frame :: q =>
      let hNew := hNew_of frame in
      match ms_of frame with
      | None => None
      | Some ms =>
          if 0 <=? stepDir then
            if targetMs <=? ms then Some (Produced hNew ms q)
            else receive_single stepDir targetMs q best
          else
            if ms <? targetMs then receive_single stepDir targetMs q (hNew, ms)
            else
              match fst best with
              | Some b =>
                  Some (Produced (Some b)
                          (if 0 <=? snd best then snd best else ms) q)
              | None => Some (Produced hNew ms q)
              end
      end
  end.

(** The result of the scan: what was published, if anything, and where
    the demuxer and the decoder were left. *)
Fixpoint scan_packets (stepDir targetMs : Z) (reader : list AVPacket)
    (queue : list AVFrame) (best : HBITMAP * Z)
  : option (option (HBITMAP * Z) * list AVPacket * list AVFrame) :=
  match reader with
  | [] => Some (None, [], queue)
  | pkt :: rest =>
      if negb (stream_index pkt =? videoStreamIndex media)
      then scan_packets stepDir targetMs rest queue best
      else if negb (send_ok pkt) then Some (None, rest, queue)
      else
        match receive_single stepDir targetMs (queue ++ decoded pkt) best with
        | None => None
        | Some (Produced bmp ms q) => Some (Some (bmp, ms), rest, q)
        | Some (Pending best') => scan_packets stepDir targetMs rest [] best'
        end
  end.

(** Continuous playback: every received frame whose bitmap could be made
    is published. *)
Fixpoint play_frames (queue : list AVFrame) (s : Player)
  : option (Player * list event) :=
  match queue with
  | [] => Some (s, [])
  | frame :: q =>
      match hNew_of frame with
      | Some b =>
          match ms_of frame with
          | None => None
          | Some ms =>
              match play_frames q (publish (Some b) ms s) with
              | None => None
              | Some (s', ev) =>
                  Some (s', published (Some b) ms :: WM_APP_FRAME_READY :: ev)
              end
          end
      | None =>
          match play_frames q s with
          | None => None
          | Some (s', ev) => Some (s', WM_APP_FRAME_READY :: ev)
          end
      end
  end.

(** The thread up to its loop: open the file, then seek. *)
Definition thread_start (s : Player) : Player * list event :=
  if init_ok media then
    if g_seekRequested s
    then (set_thread (Running (seek_packets (g_seekTargetMs s)) [])
            (set_seekRequested false s),
          [doSeek (g_seekTargetMs s)])
    else (set_thread (Running (seek_packets (g_currentPosMs s)) []) s,
          [doSeek (g_currentPosMs s)])
  else (set_thread Exited s, []).

(** One pass through the body of [while (!g_playThreadShouldExit)], run
    without interference from the window procedure. *)
Definition loop_body (reader : list AVPacket) (queue : list AVFrame) (s : Player)
  : option (Player * list event) :=
  let '(s, reader, queue, ev) :=
    if g_seekRequested s
    then (set_seekRequested false s, seek_packets (g_seekTargetMs s),
          @nil AVFrame, [doSeek (g_seekTargetMs s)])
    else (s, reader, queue, []) in
  if g_decodeSingleFrame s && negb (g_isPlaying s) then
    match scan_packets (g_stepDir s) (g_seekTargetMs s) reader queue (None, -1) with
    | None => None
    | Some (out, reader', queue') =>
        let s' := set_stepDir 0 (set_decodeSingleFrame false s) in
        match out with
        | Some (bmp, ms) =>
            Some (set_thread (Running reader' queue') (publish bmp ms s'),
                  ev ++ [published bmp ms; WM_APP_FRAME_READY])
        | None => Some (set_thread (Running reader' queue') s', ev)
        end
    end
  else if negb (g_isPlaying s) then Some (set_thread (Running reader queue) s, ev)
  else
    match reader with
    | [] => Some (set_thread (Running [] queue) (set_isPlaying false s), ev)
    | pkt :: rest =>
        if negb (stream_index pkt =? videoStreamIndex media)
        then Some (set_thread (Running rest queue) s, ev)
        else if negb (send_ok pkt)
        then Some (set_thread (Running rest queue) s, ev)
        else
          match play_frames (queue ++ decoded pkt) s with
          | None => None
          | Some (s', ev') => Some (set_thread (Running rest []) s', ev ++ ev')
          end
    end.

(** One scheduling step of the decode thread. *)
Definition thread_step (s : Player) : option (Player * list event) :=
  match thread s with
  | NoThread | Exited => Some (s, [])
  | Spawned => Some (thread_start s)
  | Running reader queue =>
      if g_playThreadShouldExit s then Some (set_thread Exited s, [])
      else loop_body reader queue s
  end.

(** The frames the decoder delivers while [reader] is read to its end or
    to the first packet the decoder refuses. *)
Fixpoint decode_order (reader : list AVPacket) : list AVFrame :=
  match reader with
  | [] => []
  | pkt :: rest =>
      if negb (stream_index pkt =? videoStreamIndex media) then decode_order rest
      else if negb (send_ok pkt) then []
      else decoded pkt ++ decode_order rest
  end.

(** [n] scheduling steps of the decode thread. *)
Fixpoint thread_run (n : nat) (s : Player) : option (Player * list event) :=
  match n with
  | O => Some (s, [])
  | S n' =>
      match thread_step s with
      | None => None
      | Some (s', ev) =>
          match thread_run n' s' with
          | None => None
          | Some (s'', ev') => Some (s'', ev ++ ev')
          end
      end
  end.

End Thread.

(** *** Notions used to state the properties of the engine *)

(** The targets of the seeks among the events of the thread. *)
Definition seeks (ev : list event) : list Z :=
  flat_map (fun x => match x with doSeek toMs => [toMs] | _ => [] end) ev.

(** The frames whose time in milliseconds is defined and before [t]. *)
Definition all_before (media : Media) (t : Z) (frames : list AVFrame) : Prop :=
  forall f, In f frames -> exists m, ms_of media f = Some m /\ m < t.

(** What a step command leaves for the thread: a pending seek and a
    pending single-frame decode, with playback paused and a thread that
    is spawned or in its loop. *)
Definition step_pending (dir target : Z) (s : Player) : Prop :=
  g_seekRequested s = true /\ g_seekTargetMs s = target /\
  g_decodeSingleFrame s = true /\ g_stepDir s = dir /\
  g_isPlaying s = false /\
  (thread s = Spawned \/ exists reader queue, thread s = Running reader queue) /\
  g_playThreadShouldExit s = false.

(** The candidate a backward scan holds after it has passed over
    [frames], all before the target: the bitmap and time of the last one. *)
Definition tracked (media : Media) (best : HBITMAP * Z) (frames : list AVFrame)
  : HBITMAP * Z :=
  fold_left
    (fun b f => match ms_of media f with Some m => (hNew_of media f, m) | None => b end)
    frames best.

(** What a backward scan publishes at the first frame at or after the
    target: the candidate if it holds a bitmap, else that frame itself. *)
Definition backward_pick (best : HBITMAP * Z) (hNew : HBITMAP) (ms : Z)
  : HBITMAP * Z :=
  match fst best with
  | Some b => (Some b, if 0 <=? snd best then snd best else ms)
  | None => (hNew, ms)
  end.

(** A position clamped into [0, durMs], as [SeekMs] does. *)
Definition clamp_ms (durMs ms : Z) : Z :=
  let ms := if ms <? 0 then 0 else ms in
  if durMs <? ms then durMs else ms.

(** A clip used to run the model: eight frames at 30 frames per second
    in a stream counted in milliseconds, decodable from its first frame. *)
Definition sample_packet (t : Z) (n : nat) : AVPacket :=
  mkPacket 0 t t true [mkFrame t t n].

Definition sample_clip : list AVPacket :=
  [sample_packet 0 0; sample_packet 33 1; sample_packet 67 2;
   sample_packet 100 3; sample_packet 133 4; sample_packet 167 5;
   sample_packet 200 6; sample_packet 233 7].

Definition sample_media : Media :=
  mkMedia true (mkRational 1 1000) 0 (fun _ => sample_clip) (fun _ => true).

(** The player paused at [pos] milliseconds of the clip, which lasts
    0.267 s, with [fps] as the frame rate found by the probe. *)
Definition sample_player (t : ThreadState) (fps : float) (pos : Z) (bmp : nat)
  : Player :=
  mkPlayer 0.267 fps t false false false 0 pos false 0 (Some bmp).

End Playback.

(** ** The probe and the preview frame *)

Module Probe.

(** What the probe reads from a stream of the opened file. *)
Record Stream : Type := mkStream {
  codec_type : AVMediaType;
  width : Z;
  height : Z;
  avg_frame_rate : AVRational;
  r_frame_rate : AVRational
}.

(** The answers of the media library to [GetVideoInfo]. *)
Record File : Type := mkFile {
  open_input_ok : bool;
  stream_info_ok : bool;
  streams : list Stream;
  duration : Z
}.

(** The variables [GetVideoInfo] writes: the three it is given by
    reference and the global [g_videoFPS]. *)
Record Info : Type := mkInfo {
  out_width : Z;
  out_height : Z;
  durationSeconds : float;
  g_videoFPS : float
}.

Definition is_video (st : Stream) : bool :=
  match codec_type st with AVMEDIA_TYPE_VIDEO => true | _ => false end.

(** The loop that stops at the first video stream; [i] counts the
    streams passed over. *)
Fixpoint first_video (sts : list Stream) (i : Z) : Z :=
  match sts with
  | [] => -1
  | st :: rest => if is_video st then i else first_video rest (i + 1)
  end.

Definition stream_at (sts : list Stream) (i : Z) : Stream :=
  nth (Z.to_nat i) sts
    (mkStream AVMEDIA_TYPE_OTHER 0 0 (mkRational 0 1) (mkRational 0 1)).

(** The frame rate kept in [g_videoFPS]: the average rate, else the
    real base rate, else 30. *)
Definition frame_rate_of (videoStream : Stream) : float :=
  if negb (num (avg_frame_rate videoStream) =? 0)
     && negb (den (avg_frame_rate videoStream) =? 0)
  then av_q2d (avg_frame_rate videoStream)
  else if negb (num (r_frame_rate videoStream) =? 0)
          && negb (den (r_frame_rate videoStream) =? 0)
  then av_q2d (r_frame_rate videoStream)
  else 30.0%float.

(** The result and the variables as the call leaves them. *)
Definition GetVideoInfo (f : File) (old : Info) : bool * Info :=
  if negb (open_input_ok f) then (false, old)
  else if negb (stream_info_ok f) then (false, old)
  else
    let videoStreamIndex := first_video (streams f) 0 in
    if videoStreamIndex <? 0 then (false, old)
    else
      let videoStream := stream_at (streams f) videoStreamIndex in
      let durationSeconds :=
        if negb (duration f =? AV_NOPTS_VALUE)
        then (Cxx.of_int (duration f) / Cxx.of_int AV_TIME_BASE)%float
        else 0.0%float in
      (true,
       mkInfo (width videoStream) (height videoStream) durationSeconds
         (frame_rate_of videoStream)).

(** The answers of the media library and of the window system to
    [ExtractMiddleFrameBitmap]. *)
Record Source : Type := mkSource {
  src_open_input_ok : bool;
  src_stream_info_ok : bool;
  src_streams : list Stream;
  decoder_found : bool;
  decoder_alloc_ok : bool;
  decoder_params_ok : bool;
  decoder_open_ok : bool;
  frames_alloc_ok : bool;
  packet_alloc_ok : bool;
  sws_ok : bool;
  buffer_ok : bool;
  av_seek_frame : Z -> list AVPacket;   (* packets that follow the seek *)
  dib_ok : bool                         (* CreateDIBSection succeeded *)
}.

(** The read loop: it ends at the first packet the decoder refuses and
    at the first frame received.  The decoder holds no frame when a
    packet is sent: the loop stops as soon as one is received. *)
Fixpoint first_frame (videoStreamIndex : Z) (pkts : list AVPacket) : option AVFrame :=
  match pkts with
  | [] => None
  | pkt :: rest =>
      if stream_index pkt =? videoStreamIndex then
        if negb (send_ok pkt) then None
        else
          match decoded pkt with
          | frame :: _ => Some frame
          | [] => first_frame videoStreamIndex rest
          end
      else first_frame videoStreamIndex rest
  end.

(** The bitmap returned, named by the picture it shows; the null handle
    is [Some None], and [None] is undefined behaviour. *)
Definition ExtractMiddleFrameBitmap (src : Source) (duration : float)
  : option (option nat) :=
  if negb (src_open_input_ok src) then Some None
  else if negb (src_stream_info_ok src) then Some None
  else
    let videoStreamIndex := first_video (src_streams src) 0 in
    if videoStreamIndex <? 0 then Some None
    else if negb (decoder_found src) then Some None
    else if negb (decoder_alloc_ok src) then Some None
    else if negb (decoder_params_ok src) then Some None
    else if negb (decoder_open_ok src) then Some None
    else
      match Cxx.to_int64 ((duration / 2.0) * Cxx.of_int AV_TIME_BASE)%float with
      | None => None
      | Some middle_ts =>
          if negb (frames_alloc_ok src) then Some None
          else if negb (packet_alloc_ok src) then Some None
          else if negb (sws_ok src) then Some None
          else if negb (buffer_ok src) then Some None
          else
            match first_frame videoStreamIndex (av_seek_frame src middle_ts) with
            | None => Some None
            | Some frame =>
                if negb (dib_ok src) then Some None
                else Some (Some (picture frame))
            end
      end.

(** A file used to run the model: a data stream in front of a video
    stream that declares no average rate. *)
Definition sample_file : File :=
  mkFile true true
    [mkStream AVMEDIA_TYPE_OTHER 0 0 (mkRational 0 0) (mkRational 0 0);
     mkStream AVMEDIA_TYPE_VIDEO 1920 1080 (mkRational 0 0) (mkRational 25 1)]
    10000000.

Definition sample_source : Source :=
  mkSource true true (streams sample_file) true true true true true true true true
    (fun ts =>
       [mkPacket 0 0 0 true [mkFrame 0 0 9];
        mkPacket 1 (ts / 1000) (ts / 1000) true [];
        mkPacket 1 (ts / 1000 + 40) (ts / 1000 + 40) true
          [mkFrame (ts / 1000 + 40) (ts / 1000 + 40) 1;
           mkFrame (ts / 1000 + 80) (ts / 1000 + 80) 2]])
    true.

End Probe.

(** ** The start button and the seek bar *)

Module Window.

(** What the handler of the start button reads from the controls. *)
Record Form : Type := mkForm {
  size_value : float;       (* _wtof of the text of g_hSizeEdit *)
  range_custom : bool;      (* g_hRangeCustomRadio is checked *)
  start_value : float;      (* _wtof of the text of g_hStartEdit *)
  end_value : float;        (* _wtof of the text of g_hEndEdit *)
  full_checked : bool;
  half_checked : bool;
  quarter_checked : bool
}.

(** The message boxes that end the handler before the transcode. *)
Inductive warning : Type :=
| InvalidSize
| InvalidRange
| NoScale.

Definition message (w : warning) : string :=
  match w with
  | InvalidSize => "Please enter a valid target size in MB."
  | InvalidRange => "Please enter a valid start/end range within video duration."
  | NoScale => "Please select a scale option."
  end.

(** The arguments the handler passes to [TranscodeWithSizeAndScale]. *)
Record Request : Type := mkRequest {
  targetSizeMB : float;
  scaleFactor : Z;
  startSecs : float;
  endSecs : float
}.

Definition start_request (g_duration : float) (f : Form) : warning + Request :=
  let targetSizeMB := size_value f in
  if (targetSizeMB <=? 0.0)%float then inl InvalidSize
  else
    let startSecs := if range_custom f then start_value f else 0.0%float in
    let endSecs := if range_custom f then end_value f else g_duration in
    if range_custom f
       && ((startSecs <? 0.0)%float || (endSecs <=? startSecs)%float
           || (g_duration <? endSecs)%float)
    then inl InvalidRange
    else if full_checked f then inr (mkRequest targetSizeMB 1 startSecs endSecs)
    else if half_checked f then inr (mkRequest targetSizeMB 2 startSecs endSecs)
    else if quarter_checked f then inr (mkRequest targetSizeMB 4 startSecs endSecs)
    else inl NoScale.

(** The handler of the start button: a warning, or the run of the
    transcode on the file that was dropped. *)
Definition start_button (av_rescale_q : Z -> AVRational -> AVRational -> Z)
    (e : Transcode.Env) (g_duration : float) (g_vidWidth g_vidHeight : Z) (f : Form)
  : warning + Transcode.M unit :=
  match start_request g_duration f with
  | inl w => inl w
  | inr r =>
      inr (Transcode.TranscodeWithSizeAndScale av_rescale_q e (targetSizeMB r)
             (scaleFactor r) g_vidWidth g_vidHeight (startSecs r) (endSecs r))
  end.

(** The name of the output file.  Candidate [0] is the base name
    [fname_suffix.ext] and candidate [i], from 1 on, the numbered name
    [fname_suffix-i.ext]; [access i] tells whether [_access] finds
    candidate [i].  [numbered] is the loop [for (int i = 1;; i++)], run
    for at most [fuel] passes; it has no answer when the passes are used
    up or when [i++] would overflow. *)
Fixpoint numbered (access : Z -> bool) (fuel : nat) (i : Z) : option Z :=
  match fuel with
  | O => None
  | S fuel' =>
      if access i then
        if i <? Cxx.INT_MAX then numbered access fuel' (i + 1) else None
      else Some i
  end.

Definition outPath (access : Z -> bool) (fuel : nat) : option Z :=
  if access 0 then numbered access fuel 1 else Some 0.

(** The handler of the seek bar, for the scroll notifications it acts on:
    it does nothing until a file has been loaded. *)
Definition seekbar (g_playerReady : bool) (pos : Z) (s : Playback.Player)
  : option Playback.Player :=
  if g_playerReady then
    let wantSingle := negb (Playback.g_isPlaying s) in
    Playback.SeekMs pos wantSingle (Playback.EnsureThreadRunningPaused s)
  else Some s.

(** The form as the window sets it when a file is dropped, with a
    custom range typed in. *)
Definition sample_form (size start_s end_s : float) (custom : bool) : Form :=
  mkForm size custom start_s end_s true false false.

End Window.

(** ** Variations of a run *)

(** The environment with other packets to read and other answers of the
    encoder to the frames it is sent. *)
Definition with_loop (pkts : list AVPacket) (ok : AVFrame -> bool)
    (e : Transcode.Env) : Transcode.Env :=
  Transcode.mkEnv (Transcode.open_input_ok e) (Transcode.stream_info_ok e)
    (Transcode.streams e) (Transcode.decoder_found e) (Transcode.decoder_alloc_ok e)
    (Transcode.decoder_params_ok e) (Transcode.decoder_open_ok e)
    (Transcode.framerate e) (Transcode.output_ctx_ok e) (Transcode.output_nofile e)
    (Transcode.nvenc_by_name e) (Transcode.h264_by_id e) (Transcode.video_stream_ok e)
    (Transcode.encoder_alloc_ok e) (Transcode.encoder_open_ok e)
    (Transcode.encoder_params_ok e) (Transcode.audio_stream_ok e)
    (Transcode.audio_params_ok e) (Transcode.audio_out_time_base e)
    (Transcode.avio_open_ok e) (Transcode.write_header_ok e) (Transcode.alloc_ok e)
    (Transcode.sws_ok e) (Transcode.frame_buffer_ok e) pkts ok.

(** The audio stream of the input, as the run selects it. *)
Definition audio_stream_index (e : Transcode.Env) : Z :=
  snd (Transcode.find_streams (Transcode.streams e) 0 (-1) (-1)).

Definition audio_in_stream (e : Transcode.Env) : AVStream :=
  Transcode.stream_at (Transcode.streams e) (audio_stream_index e).

(** The timestamp of an audio packet that is held against the range:
    its presentation timestamp, or its decoding timestamp when it has no
    presentation timestamp. *)
Definition aud_in_pts_of (pkt : AVPacket) : Z :=
  if pkt_pts pkt =? AV_NOPTS_VALUE then pkt_dts pkt else pkt_pts pkt.

Definition aud_time_of (in_tb : AVRational) (pkt : AVPacket) : float :=
  (Cxx.of_int (aud_in_pts_of pkt) * av_q2d in_tb)%float.

(** A file with an audio stream and no video stream. *)
Definition sample_audio_only : Transcode.Env :=
  Transcode.mkEnv true true [mkStream AVMEDIA_TYPE_AUDIO (mkRational 1 48000)]
    true true true true (mkRational 30 1) true false true true
    true true (fun _ => true) true true true (mkRational 1 48000)
    true true true true true
    [mkPacket 0 480000 480000 true []]
    (fun _ => true).

(** The environment with other answers to the setup of the audio
    output stream. *)
Definition with_audio (stream_ok params_ok : bool) (e : Transcode.Env) : Transcode.Env :=
  Transcode.mkEnv (Transcode.open_input_ok e) (Transcode.stream_info_ok e)
    (Transcode.streams e) (Transcode.decoder_found e) (Transcode.decoder_alloc_ok e)
    (Transcode.decoder_params_ok e) (Transcode.decoder_open_ok e)
    (Transcode.framerate e) (Transcode.output_ctx_ok e) (Transcode.output_nofile e)
    (Transcode.nvenc_by_name e) (Transcode.h264_by_id e) (Transcode.video_stream_ok e)
    (Transcode.encoder_alloc_ok e) (Transcode.encoder_open_ok e)
    (Transcode.encoder_params_ok e) stream_ok params_ok
    (Transcode.audio_out_time_base e)
    (Transcode.avio_open_ok e) (Transcode.write_header_ok e) (Transcode.alloc_ok e)
    (Transcode.sws_ok e) (Transcode.frame_buffer_ok e) (Transcode.packets e)
    (Transcode.send_frame_ok e).

(** The calls that concern the audio stream. *)
Definition is_audio_call (c : Transcode.call) : bool :=
  match c with
  | Transcode.avformat_new_stream_audio | Transcode.avcodec_parameters_copy
  | Transcode.av_interleaved_write_frame_audio _ _ => true
  | _ => false
  end.

(** ** What the window sees of the thread *)

(** The bitmap and the position that a run of events leaves published:
    those of the last [published] event, or [slot] when there is none. *)
Definition last_published (ev : list Playback.event) (slot : Playback.HBITMAP * Z)
  : Playback.HBITMAP * Z :=
  fold_left
    (fun acc x => match x with Playback.published bmp ms => (bmp, ms) | _ => acc end)
    ev slot.

(** ** Proof support *)

(** A property of a run, kept apart from the run it speaks about. *)
Definition holds {A : Type} (Q : A -> Prop) (x : A) : Prop := Q x.

(** The innermost discriminee at the head of a nest of matches. *)
Ltac scrutinee t :=
  lazymatch t with
  | match ?x with _ => _ end =>
      lazymatch x with
      | match _ with _ => _ end => scrutinee x
      | _ => x
      end
  end.

Ltac run_cbn := cbv beta iota zeta; cbn [app].

(** Case analysis on the next answer of the environment that the run
    depends on. *)
Ltac run_step :=
  lazymatch goal with
  | |- holds _ ?r => let x := scrutinee r in destruct x eqn:?
  end; run_cbn.

Ltac run_start :=
  lazymatch goal with
  | |- context [Transcode.TranscodeWithSizeAndScale ?f ?e ?a ?b ?c ?d ?s ?t] =>
      pattern (Transcode.TranscodeWithSizeAndScale f e a b c d s t);
      lazymatch goal with |- ?Q ?r => change (holds Q r) end;
      unfold Transcode.TranscodeWithSizeAndScale;
      cbv beta iota zeta delta
        [Transcode.bind Transcode.try_call Transcode.abort_if Transcode.defined
         Transcode.tell Transcode.ret Transcode.select_encoder
         Transcode.open_audio];
      cbn [app]
  end.

(** The calls in front of the decode loop in a list of calls. *)
Ltac prefix_of l :=
  lazymatch l with
  | ?c :: ?t => let p := prefix_of t in constr:(c :: p)
  | _ => constr:(@nil Transcode.call)
  end.

(** The calls in front of the call [x] in a list of calls. *)
Ltac before_call x l :=
  lazymatch l with
  | x :: _ => constr:(@nil Transcode.call)
  | ?c :: ?t => let p := before_call x t in constr:(c :: p)
  end.

(** Case analysis on a hypothesis that a call occurs in a list of calls. *)
Ltac split_calls :=
  repeat match goal with
  | H : _ /\ _ |- _ => destruct H
  | H : In _ [] |- _ => destruct H
  | H : In _ (_ :: _) |- _ => destruct H as [H | H]; [try discriminate H|]
  | H : In _ (_ ++ _) |- _ => apply in_app_iff in H; destruct H as [H | H]
  end.

(** * Properties *)

(** ** Binary64 facts *)

Lemma digits2_pos_bound (m : positive) : Zpos m < 2 ^ Zpos (digits2_pos m).
Proof.
  induction m as [m IH | m IH | ]; simpl digits2_pos.
  - rewrite Pos2Z.inj_succ, Z.pow_succ_r by lia. lia.
  - rewrite Pos2Z.inj_succ, Z.pow_succ_r by lia. lia.
  - reflexivity.
Qed.

(** The mantissa of a binary64 number has at most 53 bits. *)
Lemma bounded_mantissa (m : positive) (e : Z) :
  bounded prec emax m e = true -> Zpos m < 2 ^ 53.
Proof.
  unfold bounded, canonical_mantissa, fexp. intros H.
  apply andb_true_iff in H. destruct H as [H _].
  apply Z.eqb_eq in H.
  assert (Hd : Zpos (digits2_pos m) <= 53) by (unfold prec in H; lia).
  eapply Z.lt_le_trans; [apply digits2_pos_bound|].
  apply Z.pow_le_mono_r; lia.
Qed.

Lemma Prim2SF_one : Prim2SF 1%float = S754_finite false 4503599627370496 (-52).
Proof. reflexivity. Qed.

Lemma Prim2SF_zero : Prim2SF 0%float = S754_zero false.
Proof. reflexivity. Qed.

(** A double that is neither [<= 0] nor a NaN and lies below one
    converts to the integer zero. *)
Lemma to_int64_below_one (x : float) :
  (x <=? 0)%float = false -> (x <? 1)%float = true -> Cxx.to_int64 x = Some 0.
Proof.
  rewrite leb_spec, ltb_spec, Prim2SF_one, Prim2SF_zero.
  unfold Cxx.to_int64.
  pose proof (Prim2SF_valid x) as Hv.
  destruct (Prim2SF x) as [s | s | | s m e]; try reflexivity.
  - destruct s; discriminate.
  - discriminate.
  - simpl in Hv. apply bounded_mantissa in Hv.
    cbv beta iota delta [SFleb SFltb SFcompare].
    destruct s; [discriminate|].
    destruct (Z.compare_spec e (-52)) as [He | He | He]; try discriminate.
    + subst e. intros _ H.
      destruct (PosDef.Pos.compare_cont Eq m 4503599627370496) eqn:Hc;
        try discriminate.
      assert (Hlt : Z.pos m < 4503599627370496) by exact Hc.
      clear Hc.
      unfold Cxx.trunc_sf.
      change (0 <=? -52) with false. cbv iota.
      change (2 ^ (- -52)) with 4503599627370496.
      rewrite Z.div_small; [reflexivity | lia].
    + intros _ _. unfold Cxx.trunc_sf.
      destruct (Z.leb_spec 0 e); [lia|].
      rewrite Z.div_small; [reflexivity|].
      split; [lia|]. eapply Z.lt_le_trans; [exact Hv|].
      apply Z.pow_le_mono_r; lia.
Qed.

(** Numbers that compare equal compare alike with any third number. *)
Lemma SFcompare_eq_l (x a c : spec_float) :
  SFcompare x a = Some Eq -> SFcompare x c = SFcompare a c.
Proof.
  destruct x as [sx | sx | | sx mx ex], a as [sa | sa | | sa ma ea];
    simpl; try discriminate;
    try (destruct sx; discriminate); try (destruct sa; discriminate).
  - intros _. destruct c; reflexivity.
  - destruct sx, sa; try discriminate; reflexivity.
  - destruct sx, sa; try discriminate;
      (destruct (Z.compare_spec ex ea) as [He | He | He]; try discriminate;
       destruct (PosDef.Pos.compare_cont Eq mx ma) eqn:Hc; try discriminate;
       change (Pos.compare mx ma = Eq) in Hc; apply Pos.compare_eq in Hc;
       subst; reflexivity).
Qed.

Lemma SFcompare_eq_r (x a c : spec_float) :
  SFcompare x a = Some Eq -> SFcompare c x = SFcompare c a.
Proof.
  destruct x as [sx | sx | | sx mx ex], a as [sa | sa | | sa ma ea];
    simpl; try discriminate;
    try (destruct sx; discriminate); try (destruct sa; discriminate).
  - intros _. destruct c; reflexivity.
  - destruct sx, sa; try discriminate; reflexivity.
  - destruct sx, sa; try discriminate;
      (destruct (Z.compare_spec ex ea) as [He | He | He]; try discriminate;
       destruct (PosDef.Pos.compare_cont Eq mx ma) eqn:Hc; try discriminate;
       change (Pos.compare mx ma = Eq) in Hc; apply Pos.compare_eq in Hc;
       subst; reflexivity).
Qed.

(** A time equal to the start of a non-empty range is neither before
    the start nor past the end. *)
Lemma at_start_in_range (x start_seconds end_seconds : float) :
  (end_seconds <=? start_seconds)%float = false ->
  (x =? start_seconds)%float = true ->
  (end_seconds <? x)%float = false /\ (x <? start_seconds)%float = false.
Proof.
  rewrite leb_spec, eqb_spec, !ltb_spec. unfold SFleb, SFeqb, SFltb.
  intros Hle Heq.
  destruct (SFcompare (Prim2SF x) (Prim2SF start_seconds)) as [[ | | ] | ] eqn:Hc;
    try discriminate.
  rewrite (SFcompare_eq_r _ _ (Prim2SF end_seconds) Hc).
  split; [|reflexivity].
  destruct (SFcompare (Prim2SF end_seconds) (Prim2SF start_seconds))
    as [[ | | ] | ]; try discriminate; reflexivity.
Qed.

Lemma SFcompare_refl_not_Lt (x : spec_float) : SFcompare x x <> Some Lt.
Proof.
  destruct x as [s | s | | s m e]; simpl; try discriminate.
  - destruct s; discriminate.
  - rewrite Z.compare_refl.
    change (PosDef.Pos.compare_cont Eq m m) with (Pos.compare m m).
    rewrite Pos.compare_refl. destruct s; discriminate.
Qed.

(** A time equal to the end of a non-empty range is neither before the
    start nor past the end. *)
Lemma at_end_in_range (x start_seconds end_seconds : float) :
  (end_seconds <=? start_seconds)%float = false ->
  (x =? end_seconds)%float = true ->
  (end_seconds <? x)%float = false /\ (x <? start_seconds)%float = false.
Proof.
  rewrite leb_spec, eqb_spec, !ltb_spec. unfold SFleb, SFeqb, SFltb.
  intros Hle Heq.
  destruct (SFcompare (Prim2SF x) (Prim2SF end_seconds)) as [[ | | ] | ] eqn:Hc;
    try discriminate.
  rewrite (SFcompare_eq_r _ _ (Prim2SF end_seconds) Hc).
  rewrite (SFcompare_eq_l _ _ (Prim2SF start_seconds) Hc).
  split.
  - pose proof (SFcompare_refl_not_Lt (Prim2SF end_seconds)) as Hr.
    destruct (SFcompare (Prim2SF end_seconds) (Prim2SF end_seconds))
      as [[ | | ] | ]; try reflexivity. congruence.
  - destruct (SFcompare (Prim2SF end_seconds) (Prim2SF start_seconds))
      as [[ | | ] | ]; try discriminate; reflexivity.
Qed.

(** ** The decode loop makes only its own calls *)

Import Transcode.

Lemma receive_frames_loop_calls av_rescale_q e s_ e_ vtb etb vsp queue :
  Forall (fun c => is_loop_call c = true)
    (fst (receive_frames av_rescale_q e s_ e_ vtb etb vsp queue)).
Proof.
  induction queue as [|frame q IH]; simpl; [constructor|].
  destruct (e_ <? in_time_of vtb frame)%float; simpl.
  - repeat constructor.
  - destruct (in_time_of vtb frame <? s_)%float.
    + destruct (receive_frames av_rescale_q e s_ e_ vtb etb vsp q).
      constructor; [reflexivity | exact IH].
    + destruct (send_frame_ok e frame).
      * destruct (receive_frames av_rescale_q e s_ e_ vtb etb vsp q).
        repeat (constructor; [reflexivity|]). exact IH.
      * repeat constructor.
Qed.

Lemma read_packets_loop_calls av_rescale_q e s_ e_ vtb etb vsp asp vi ai atb pkts :
  forall queue,
  Forall (fun c => is_loop_call c = true)
    (read_packets av_rescale_q e s_ e_ vtb etb vsp asp vi ai atb pkts queue).
Proof.
  induction pkts as [|pkt rest IH]; intros queue; simpl; [constructor|].
  destruct (stream_index pkt =? vi).
  - destruct (send_ok pkt); [|constructor].
    pose proof (receive_frames_loop_calls av_rescale_q e s_ e_ vtb etb vsp
                  (queue ++ decoded pkt)) as Hr.
    destruct (receive_frames av_rescale_q e s_ e_ vtb etb vsp (queue ++ decoded pkt))
      as [t [ | pending | ]]; simpl in Hr.
    + apply Forall_app; split; [exact Hr | apply IH].
    + apply Forall_app; split; [exact Hr | apply IH].
    + exact Hr.
  - destruct atb as [in_tb|]; [|apply IH].
    destruct (stream_index pkt =? ai); [|apply IH].
    apply Forall_app; split; [|apply IH].
    unfold audio_packet.
    match goal with |- context [if ?b then [] else _] => destruct b end;
      repeat constructor.
Qed.

Lemma not_in_read_packets av_rescale_q e s_ e_ vtb etb vsp asp vi ai atb pkts queue c :
  is_loop_call c = false ->
  ~ In c (read_packets av_rescale_q e s_ e_ vtb etb vsp asp vi ai atb pkts queue).
Proof.
  intros Hc Hin.
  pose proof (read_packets_loop_calls av_rescale_q e s_ e_ vtb etb vsp asp vi ai
                atb pkts queue) as Hf.
  rewrite Forall_forall in Hf. apply Hf in Hin. congruence.
Qed.

(** ** The size budget *)

(** Whatever a run calls, it calls after the three guards have passed. *)
Lemma run_calls_after_guards av_rescale_q e size sf w h start_seconds end_seconds :
  calls (TranscodeWithSizeAndScale av_rescale_q e size sf w h
           start_seconds end_seconds) <> [] ->
  (end_seconds <=? start_seconds)%float = false /\
  (end_seconds - start_seconds <=? 0.0)%float = false /\
  exists b, target_bitrate_of size (end_seconds - start_seconds) = Some b /\ 0 < b.
Proof.
  run_start.
  run_step; [unfold holds; simpl; congruence|].
  run_step; [unfold holds; simpl; congruence|].
  run_step; [|unfold holds; simpl; congruence].
  run_step; [unfold holds; simpl; congruence|].
  unfold holds. intros _. repeat split. eexists; split; [reflexivity|lia].
Qed.

(** The encoder is opened with the computed bitrate in its rate fields. *)
Lemma run_encoder_bit_rate av_rescale_q e size sf w h start_seconds end_seconds :
  forall codec cfg,
  In (avcodec_open2_encoder codec cfg)
     (calls (TranscodeWithSizeAndScale av_rescale_q e size sf w h
               start_seconds end_seconds)) ->
  target_bitrate_of size (end_seconds - start_seconds) = Some (bit_rate cfg) /\
  rc_max_rate cfg = bit_rate cfg.
Proof.
  intros codec cfg. run_start.
  repeat run_step.
  all: unfold holds; simpl; rewrite ?in_app_iff; simpl; intros H.
  all: repeat match goal with
       | H : _ \/ _ |- _ => destruct H as [H | H]
       | H : False |- _ => destruct H
       | H : avcodec_open2_encoder _ _ = avcodec_open2_encoder _ _ |- _ =>
           injection H as <- <-; simpl; auto
       | H : In _ (read_packets _ _ _ _ _ _ _ _ _ _ _ _ _) |- _ =>
           apply not_in_read_packets in H; [destruct H | reflexivity]
       | H : _ = _ |- _ => discriminate H
       end.
Qed.

(** C10: a request whose range is shorter than one second passes the
    two range guards, its duration converts to the integer 0, and the
    division by it is undefined: the bitrate computation yields no value
    and the run never reaches the guard on the bitrate, nor any call. *)
Theorem C10_subsecond_range_divides_by_zero
    av_rescale_q e size sf w h start_seconds end_seconds :
  (end_seconds <=? start_seconds)%float = false ->
  (end_seconds - start_seconds <=? 0)%float = false ->
  (end_seconds - start_seconds <? 1)%float = true ->
  Cxx.to_int64 (end_seconds - start_seconds) = Some 0 /\
  target_bitrate_of size (end_seconds - start_seconds) = None /\
  TranscodeWithSizeAndScale av_rescale_q e size sf w h start_seconds end_seconds
  = (UB, []).
Proof.
  intros Hguard Hpos Hlt.
  pose proof (to_int64_below_one _ Hpos Hlt) as Hzero.
  assert (Hnone : target_bitrate_of size (end_seconds - start_seconds) = None).
  { unfold target_bitrate_of. rewrite Hzero.
    destruct (Cxx.to_int64 (size * 8 * 1024 * 1024)) as [total_bits|];
      [|reflexivity].
    destruct (Cxx.to_int64 (Cxx.of_int total_bits * 0.95)) as [video_bits|];
      reflexivity. }
  repeat split; try assumption.
  unfold TranscodeWithSizeAndScale.
  rewrite Hguard. cbn [abort_if bind]. rewrite Hpos. cbn [abort_if bind app].
  rewrite Hnone. reflexivity.
Qed.

(** The marks 10.000 s and 10.500 s give such a request. *)
Lemma C10_subsecond_range_witness :
  Cxx.to_int64 (10.5 - 10)%float = Some 0 /\
  target_bitrate_of 5 (10.5 - 10)%float = None /\
  TranscodeWithSizeAndScale rescale_near (sample_env true true) 5 1 1920 1080
    10 10.5 = (UB, []).
Proof.
  apply (C10_subsecond_range_divides_by_zero rescale_near (sample_env true true)
           5 1 1920 1080 10 10.5); reflexivity.
Defined.

(** C3, as stated, fails: the bitrate computed for start 10, end 20 and
    5 MB is not within one of 4,239,756. *)
Lemma C3_counterexample :
  exists b, target_bitrate_of 5 (20 - 10)%float = Some b /\
            ~ (4239756 - 1 <= b <= 4239756 + 1).
Proof. exists 3984588. split; [reflexivity | lia]. Qed.

(** C3, amended: for start 10, end 20 and 5 MB the computed bitrate is
    3,984,588 bits per second, which is floor(5 * 8 * 1024^2 * 0.95 / 10). *)
Theorem C3_scenario_bitrate :
  target_bitrate_of 5 (20 - 10)%float = Some 3984588 /\
  EncodeBudget_bitrate 5 10 20 = 3984588.
Proof. split; reflexivity. Qed.

(** C1, as stated, fails: for 5 MB over the range from 0 to 2.5 seconds
    the program divides by 2 whole seconds, and the result is not the
    floor of the budget divided by 2.5. *)
Lemma C1_counterexample :
  (0 <? 2.5)%float = true /\ (0 <? 5)%float = true /\
  target_bitrate_of 5 (2.5 - 0)%float = Some 19922944 /\
  EncodeBudget_bitrate 5 0 (5 # 2) = 15938355.
Proof. repeat split; reflexivity. Qed.

(** C1, amended: a request with end <= start, or whose computed bitrate
    is <= 0, is rejected before any call into the media library; when the
    duration truncates to [d >= 1] whole seconds the bitrate is the
    quotient of [V] by [d], where [V] is the truncation of 0.95 times the
    truncated number of bits of the size, which is the floor of [V / d]
    for [V >= 0] and is positive exactly when [d <= V]; a run that makes
    any call has a strictly positive bitrate and opens its encoder with
    it. *)
Theorem C1_budget_and_rejection
    av_rescale_q e size sf w h start_seconds end_seconds :
  let run :=
    TranscodeWithSizeAndScale av_rescale_q e size sf w h start_seconds end_seconds in
  let segment_duration := (end_seconds - start_seconds)%float in
  ((end_seconds <=? start_seconds)%float = true ->
   run = (Abort EndNotAfterStart, [])) /\
  (forall b,
     (end_seconds <=? start_seconds)%float = false ->
     (segment_duration <=? 0)%float = false ->
     target_bitrate_of size segment_duration = Some b -> b <= 0 ->
     run = (Abort InvalidTargetBitrate, [])) /\
  (forall total_bits video_bits d,
     Cxx.to_int64 (size * 8 * 1024 * 1024)%float = Some total_bits ->
     Cxx.to_int64 (Cxx.of_int total_bits * 0.95)%float = Some video_bits ->
     Cxx.to_int64 segment_duration = Some d -> 1 <= d ->
     target_bitrate_of size segment_duration = Some (video_bits ÷ d) /\
     (0 <= video_bits ->
      video_bits ÷ d = video_bits / d /\ (0 < video_bits ÷ d <-> d <= video_bits))) /\
  (calls run <> [] ->
   exists b,
     target_bitrate_of size segment_duration = Some b /\ 0 < b /\
     (end_seconds <=? start_seconds)%float = false /\
     forall codec cfg,
       In (avcodec_open2_encoder codec cfg) (calls run) -> bit_rate cfg = b).
Proof.
  intros run segment_duration. subst run segment_duration.
  split; [|split; [|split]].
  - intros H. unfold TranscodeWithSizeAndScale. rewrite H. reflexivity.
  - intros b H1 H2 Hb Hle. unfold TranscodeWithSizeAndScale.
    rewrite H1. cbn [abort_if bind]. rewrite H2. cbn [abort_if bind app].
    rewrite Hb. cbn [defined bind app].
    destruct (Z.leb_spec b 0); [reflexivity | lia].
  - intros total_bits video_bits d HT HV Hd Hd1.
    split.
    + unfold target_bitrate_of. rewrite HT, HV, Hd. unfold Cxx.div64.
      destruct (Z.eqb_spec d 0); [lia|].
      destruct (Z.eqb_spec d (-1)); [lia|].
      rewrite andb_false_r. reflexivity.
    + intros HVpos. split.
      * apply Z.quot_div_nonneg; lia.
      * rewrite Z.quot_div_nonneg by lia. split; intros H.
        -- destruct (Z.le_gt_cases d video_bits) as [Hle | Hgt]; [exact Hle|].
           rewrite Z.div_small in H by lia. lia.
        -- apply Z.div_str_pos. lia.
  - intros Hcalls.
    destruct (run_calls_after_guards _ _ _ _ _ _ _ _ Hcalls)
      as (Hg & _ & b & Hb & Hpos).
    exists b. repeat split; try assumption.
    intros codec cfg Hin.
    apply run_encoder_bit_rate in Hin. destruct Hin as [Hin _].
    congruence.
Qed.

(** The four parts at concrete requests: a reversed range, a size too
    small for one bit per second, and 5 MB over the range from 10 to 20
    seconds. *)
Lemma C1_budget_and_rejection_witness :
  TranscodeWithSizeAndScale rescale_near (sample_env false true)
    5 4 1920 1080 20 10 = (Abort EndNotAfterStart, []) /\
  TranscodeWithSizeAndScale rescale_near (sample_env false true)
    0.00000001 4 1920 1080 10 20 = (Abort InvalidTargetBitrate, []) /\
  target_bitrate_of 5 (20 - 10)%float = Some (39845888 ÷ 10) /\
  exists b,
    target_bitrate_of 5 (20 - 10)%float = Some b /\ 0 < b /\
    (20 <=? 10)%float = false /\
    forall codec cfg,
      In (avcodec_open2_encoder codec cfg)
         (calls (TranscodeWithSizeAndScale rescale_near (sample_env false true)
                   5 4 1920 1080 10 20)) ->
      bit_rate cfg = b.
Proof.
  split; [|split; [|split]].
  - pose proof (C1_budget_and_rejection rescale_near (sample_env false true)
                  5 4 1920 1080 20 10) as H.
    cbv zeta in H. destruct H as (H & _). apply H. reflexivity.
  - pose proof (C1_budget_and_rejection rescale_near (sample_env false true)
                  0.00000001 4 1920 1080 10 20) as H.
    cbv zeta in H. destruct H as (_ & H & _).
    apply (H 0); reflexivity.
  - pose proof (C1_budget_and_rejection rescale_near (sample_env false true)
                  5 4 1920 1080 10 20) as H.
    cbv zeta in H. destruct H as (_ & _ & H & _).
    apply (H 41943040 39845888 10); try reflexivity. lia.
  - pose proof (C1_budget_and_rejection rescale_near (sample_env false true)
                  5 4 1920 1080 10 20) as H.
    cbv zeta in H. destruct H as (_ & _ & _ & H).
    apply H. vm_compute. discriminate.
Defined.

(** ** The shape of the decode loop *)

Section LoopShape.

Variable av_rescale_q : Z -> AVRational -> AVRational -> Z.
Variable e : Env.
Variables start_seconds end_seconds : float.
Variables video_tb enc_tb : AVRational.
Variable video_start_pts : Z.

Local Abbreviation loop_trace' :=
  (loop_trace av_rescale_q start_seconds end_seconds video_tb enc_tb video_start_pts).

Lemma loop_trace_app (t1 t2 : list call) (b : bool) :
  loop_trace' false t1 -> loop_trace' b t2 -> loop_trace' b (t1 ++ t2).
Proof.
  intros H1 H2. remember false as b1 eqn:Hb1.
  induction H1; try discriminate; cbn [app].
  - exact H2.
  - apply trace_drop; auto.
  - apply trace_send; auto.
  - apply trace_audio; auto.
Qed.

Lemma receive_frames_trace (queue : list AVFrame) :
  loop_trace'
    (match snd (receive_frames av_rescale_q e start_seconds end_seconds
                  video_tb enc_tb video_start_pts queue) with
     | PastEnd => true
     | _ => false
     end)
    (fst (receive_frames av_rescale_q e start_seconds end_seconds
            video_tb enc_tb video_start_pts queue)).
Proof.
  induction queue as [|frame q IH]; cbn [receive_frames].
  - apply trace_nil.
  - destruct (end_seconds <? in_time_of video_tb frame)%float eqn:Hend.
    + apply trace_stop. exact Hend.
    + destruct (in_time_of video_tb frame <? start_seconds)%float eqn:Hstart.
      * destruct (receive_frames av_rescale_q e start_seconds end_seconds
                    video_tb enc_tb video_start_pts q) as [t x].
        apply trace_drop; assumption.
      * destruct (send_frame_ok e frame).
        -- destruct (receive_frames av_rescale_q e start_seconds end_seconds
                       video_tb enc_tb video_start_pts q) as [t x].
           apply trace_send; assumption.
        -- apply trace_send; try assumption. apply trace_nil.
Qed.

Lemma read_packets_trace asp vi ai atb (pkts : list AVPacket) :
  forall queue, exists b,
    loop_trace' b
      (read_packets av_rescale_q e start_seconds end_seconds video_tb enc_tb
         video_start_pts asp vi ai atb pkts queue).
Proof.
  induction pkts as [|pkt rest IH]; intros queue; cbn [read_packets].
  - exists false. apply trace_nil.
  - destruct (stream_index pkt =? vi).
    + destruct (send_ok pkt); [|exists false; apply trace_nil].
      pose proof (receive_frames_trace (queue ++ decoded pkt)) as Hr.
      destruct (receive_frames av_rescale_q e start_seconds end_seconds
                  video_tb enc_tb video_start_pts (queue ++ decoded pkt))
        as [t [ | pending | ]]; cbn [fst snd] in Hr.
      * destruct (IH []) as [b Hb]. exists b. apply loop_trace_app; assumption.
      * destruct (IH pending) as [b Hb]. exists b.
        apply loop_trace_app; assumption.
      * exists true. exact Hr.
    + assert (Haudio : forall in_tb, exists b,
                loop_trace' b
                  (audio_packet av_rescale_q e start_seconds end_seconds asp in_tb pkt
                   ++ read_packets av_rescale_q e start_seconds end_seconds
                        video_tb enc_tb video_start_pts asp vi ai atb rest queue)).
      { intros in_tb. destruct (IH queue) as [b Hb]. exists b.
        unfold audio_packet.
        match goal with |- context [if ?c then [] else _] => destruct c end.
        - exact Hb.
        - apply trace_audio. exact Hb. }
      destruct atb as [in_tb|]; [|apply IH].
      destruct (stream_index pkt =? ai); [apply Haudio | apply IH].
Qed.

(** What the shape says about the frames handed to the encoder. *)
Lemma loop_trace_sent (b : bool) (t : list call) (frame : AVFrame) (p : Z) :
  loop_trace' b t -> In (avcodec_send_frame frame p) t ->
  p = av_rescale_q (rel_vid_pts_of video_start_pts frame) video_tb enc_tb /\
  (in_time_of video_tb frame <? start_seconds)%float = false /\
  (end_seconds <? in_time_of video_tb frame)%float = false.
Proof.
  intros Ht. induction Ht; cbn [In]; intros Hin.
  - destruct Hin.
  - destruct Hin as [Hin | []]. discriminate.
  - destruct Hin as [Hin | Hin]; [discriminate | auto].
  - destruct Hin as [Hin | [Hin | Hin]]; [discriminate | | auto].
    injection Hin as -> <-. auto.
  - destruct Hin as [Hin | Hin]; [discriminate | auto].
Qed.

(** A frame past the end is the last thing the loop receives. *)
Lemma loop_trace_stop (b : bool) (t l1 l2 : list call) (frame : AVFrame) :
  loop_trace' b t -> t = l1 ++ avcodec_receive_frame frame :: l2 ->
  (end_seconds <? in_time_of video_tb frame)%float = true -> l2 = [].
Proof.
  intros Ht. revert l1. induction Ht; intros l1 Heq Hpast.
  - destruct l1; discriminate.
  - destruct l1 as [|c l1]; [injection Heq as _ <-; reflexivity|].
    destruct l1; discriminate.
  - destruct l1 as [|c l1]; cbn [app] in Heq.
    + injection Heq as <- _. congruence.
    + injection Heq as _ Heq. eauto.
  - destruct l1 as [|c l1]; cbn [app] in Heq.
    + injection Heq as <- _. congruence.
    + injection Heq as _ Heq.
      destruct l1 as [|c' l1]; cbn [app] in Heq; [discriminate|].
      injection Heq as _ Heq. eauto.
  - destruct l1 as [|c l1]; cbn [app] in Heq; [discriminate|].
    injection Heq as _ Heq. eauto.
Qed.

(** A received frame inside the range is handed to the encoder next. *)
Lemma loop_trace_included (b : bool) (t l1 l2 : list call) (frame : AVFrame) :
  loop_trace' b t -> t = l1 ++ avcodec_receive_frame frame :: l2 ->
  (in_time_of video_tb frame <? start_seconds)%float = false ->
  (end_seconds <? in_time_of video_tb frame)%float = false ->
  exists l3,
    l2 = avcodec_send_frame frame
           (av_rescale_q (rel_vid_pts_of video_start_pts frame) video_tb enc_tb)
         :: l3.
Proof.
  intros Ht. revert l1. induction Ht; intros l1 Heq Hstart Hend.
  - destruct l1; discriminate.
  - destruct l1 as [|c l1]; [injection Heq as <- _; congruence|].
    destruct l1; discriminate.
  - destruct l1 as [|c l1]; cbn [app] in Heq.
    + injection Heq as <- _. congruence.
    + injection Heq as _ Heq. eauto.
  - destruct l1 as [|c l1]; cbn [app] in Heq.
    + injection Heq as <- <-. eauto.
    + injection Heq as _ Heq.
      destruct l1 as [|c' l1]; cbn [app] in Heq; [discriminate|].
      injection Heq as _ Heq. eauto.
  - destruct l1 as [|c l1]; cbn [app] in Heq; [discriminate|].
    injection Heq as _ Heq. eauto.
Qed.

End LoopShape.

(** A call found between a prefix and a suffix that cannot hold it lies
    in the middle part. *)
Lemma split_in_middle {A : Type} (P : A -> Prop) (pre mid suf l1 l2 : list A) (x : A) :
  Forall P pre -> Forall P suf -> ~ P x ->
  pre ++ mid ++ suf = l1 ++ x :: l2 ->
  exists m1 m2, mid = m1 ++ x :: m2 /\ l1 = pre ++ m1 /\ l2 = m2 ++ suf.
Proof.
  intros Hpre Hsuf Hx. revert l1.
  induction Hpre as [|a pre Ha Hpre IH]; intros l1 Heq; cbn [app] in Heq.
  - revert l1 Heq. induction mid as [|a mid IHm]; intros l1 Heq; cbn [app] in Heq.
    + exfalso. apply Hx. rewrite Forall_forall in Hsuf. apply Hsuf.
      rewrite Heq. apply in_elt.
    + destruct l1 as [|c l1]; cbn [app] in Heq.
      * injection Heq as -> <-. exists [], mid. auto.
      * injection Heq as -> Heq. destruct (IHm l1 Heq) as (m1 & m2 & -> & E1 & ->).
        exists (c :: m1), m2. cbn [app] in *. subst. auto.
  - destruct l1 as [|c l1]; cbn [app] in Heq.
    + injection Heq as -> _. contradiction.
    + injection Heq as -> Heq. destruct (IH l1 Heq) as (m1 & m2 & -> & -> & ->).
      exists m1, m2. auto.
Qed.

(** ** The shape of a run *)

(** A run either never enters the decode loop, or its calls are the
    opening calls, the calls of the loop, the flush of the encoder and
    the trailer. *)
Lemma run_loop_shape av_rescale_q e size sf w h start_seconds end_seconds :
  let run :=
    TranscodeWithSizeAndScale av_rescale_q e size sf w h start_seconds end_seconds in
  Forall (fun c => is_loop_call c = false) (calls run) \/
  exists pre vsp b loop,
    calls run = pre ++ loop ++ [avcodec_send_frame_null; av_write_trailer] /\
    Forall (fun c => is_loop_call c = false) pre /\
    video_start_pts_of av_rescale_q e start_seconds = Some vsp /\
    (end_seconds <=? start_seconds)%float = false /\
    loop_trace av_rescale_q start_seconds end_seconds
      (time_base (video_in_stream e)) (av_inv_q (framerate e)) vsp b loop.
Proof.
  intros run. subst run. run_start.
  repeat run_step.
  all: unfold holds, calls; cbn [snd].
  all: try solve [left; repeat constructor].
  all: right.
  all: lazymatch goal with
       | |- exists _ _ _ _, ?l = _ /\ _ =>
           let p := prefix_of l in exists p
       end.
  all: unfold video_start_pts_of, video_in_stream, video_stream_index.
  all: repeat match goal with
       | H : find_streams _ _ _ _ = _ |- _ => rewrite H; clear H
       | H : Cxx.llround _ = _ |- _ => rewrite H; clear H
       end.
  all: cbn [fst option_map enc_time_base].
  all: match goal with
       | |- context [read_packets ?f ?e ?s ?n ?vtb ?etb ?vsp ?asp ?vi ?ai ?atb ?p ?q] =>
           destruct (read_packets_trace f e s n vtb etb vsp asp vi ai atb p q)
             as [b Hb];
           exists vsp, b,
             (read_packets f e s n vtb etb vsp asp vi ai atb p q)
       end.
  all: repeat split; try reflexivity; try assumption; repeat constructor.
Qed.

(** ** The time range and the rebasing *)



(** C5: a frame handed to the encoder carries the rescaling, from the
    time base of the source stream into that of the encoder, of its
    timestamp minus the start offset in the source time base, clamped at
    zero.  The rebased timestamp is never negative, it is exactly zero
    for a frame not later than the start offset, and it grows with the
    source timestamp, so that the frame written first in presentation
    order carries the smallest rebased timestamp. *)
Theorem C5_rebased_timestamps
    av_rescale_q e size sf w h start_seconds end_seconds :
  let run :=
    TranscodeWithSizeAndScale av_rescale_q e size sf w h start_seconds end_seconds in
  forall frame p,
    In (avcodec_send_frame frame p) (calls run) ->
    exists video_start_pts,
      video_start_pts_of av_rescale_q e start_seconds = Some video_start_pts /\
      p = av_rescale_q (rel_vid_pts_of video_start_pts frame)
            (time_base (video_in_stream e)) (av_inv_q (framerate e)) /\
      rel_vid_pts_of video_start_pts frame
      = Z.max 0 (in_pts_of frame - video_start_pts) /\
      0 <= rel_vid_pts_of video_start_pts frame /\
      (in_pts_of frame <= video_start_pts ->
       rel_vid_pts_of video_start_pts frame = 0) /\
      (forall frame' p',
         In (avcodec_send_frame frame' p') (calls run) ->
         in_pts_of frame <= in_pts_of frame' ->
         rel_vid_pts_of video_start_pts frame
         <= rel_vid_pts_of video_start_pts frame').
Proof.
  intros run frame p Hin.
  pose proof (run_loop_shape av_rescale_q e size sf w h start_seconds end_seconds)
    as Hshape.
  cbv zeta in Hshape. fold run in Hshape.
  destruct Hshape as [Hf | (pre & vsp & b & loop & Hcalls & Hpre & Hvsp & _ & Ht)].
  - rewrite Forall_forall in Hf. apply Hf in Hin. discriminate.
  - exists vsp. split; [exact Hvsp|].
    assert (Hrel : forall f, rel_vid_pts_of vsp f = Z.max 0 (in_pts_of f - vsp)).
    { intros f. unfold rel_vid_pts_of.
      destruct (Z.ltb_spec (in_pts_of f - vsp) 0); lia. }
    split; [|split; [apply Hrel | split; [|split]]].
    + rewrite Hcalls, !in_app_iff in Hin. destruct Hin as [Hin | [Hin | Hin]].
      * rewrite Forall_forall in Hpre. apply Hpre in Hin. discriminate.
      * destruct (loop_trace_sent _ _ _ _ _ _ _ _ _ _ Ht Hin) as (Hp & _). exact Hp.
      * destruct Hin as [Hin | [Hin | []]]; discriminate.
    + rewrite Hrel. lia.
    + intros Hle. rewrite Hrel. lia.
    + intros frame' p' _ Hle. rewrite !Hrel. lia.
Qed.

(** In the sample file cut from 10 s to 20 s the first frame written is
    the one at the start offset, with timestamp 0. *)
Lemma C5_rebased_timestamps_witness :
  exists video_start_pts,
    video_start_pts_of rescale_near (sample_env false true) 10 = Some video_start_pts /\
    0 = rescale_near (rel_vid_pts_of video_start_pts (sample_frame 10000))
          (time_base (video_in_stream (sample_env false true)))
          (av_inv_q (framerate (sample_env false true))) /\
    rel_vid_pts_of video_start_pts (sample_frame 10000)
    = Z.max 0 (in_pts_of (sample_frame 10000) - video_start_pts) /\
    0 <= rel_vid_pts_of video_start_pts (sample_frame 10000) /\
    (in_pts_of (sample_frame 10000) <= video_start_pts ->
     rel_vid_pts_of video_start_pts (sample_frame 10000) = 0) /\
    (forall frame' p',
       In (avcodec_send_frame frame' p')
          (calls (TranscodeWithSizeAndScale rescale_near (sample_env false true)
                    5 4 1920 1080 10 20)) ->
       in_pts_of (sample_frame 10000) <= in_pts_of frame' ->
       rel_vid_pts_of video_start_pts (sample_frame 10000)
       <= rel_vid_pts_of video_start_pts frame').
Proof.
  apply (C5_rebased_timestamps rescale_near (sample_env false true)
           5 4 1920 1080 10 20 (sample_frame 10000) 0).
  vm_compute. tauto.
Defined.

(** ** The choice of the encoder *)

Ltac split_run_calls :=
  repeat (split_calls;
          try match goal with
          | H : In _ (read_packets _ _ _ _ _ _ _ _ _ _ _ _ _) |- _ =>
              apply not_in_read_packets in H; [destruct H | reflexivity]
          end).

(** The lookup by codec id is made only after the lookup by name, and
    only when that one failed. *)
Lemma run_lookup_order av_rescale_q e size sf w h start_seconds end_seconds :
  let run :=
    TranscodeWithSizeAndScale av_rescale_q e size sf w h start_seconds end_seconds in
  In avcodec_find_encoder (calls run) ->
  nvenc_by_name e = false /\
  exists l1 l2,
    calls run = l1 ++ avcodec_find_encoder_by_name :: avcodec_find_encoder :: l2.
Proof.
  intros run. subst run. run_start. repeat run_step.
  all: unfold holds, calls; cbn [snd]; intros H; split_run_calls.
  all: split; [reflexivity|].
  all: lazymatch goal with
       | |- exists _ _, ?l = _ =>
           let p := before_call avcodec_find_encoder_by_name l in exists p
       end; eexists; reflexivity.
Qed.

(** The encoder that is opened is the one the lookups chose. *)
Lemma run_opened_encoder av_rescale_q e size sf w h start_seconds end_seconds :
  let run :=
    TranscodeWithSizeAndScale av_rescale_q e size sf w h start_seconds end_seconds in
  forall codec cfg,
    In (avcodec_open2_encoder codec cfg) (calls run) ->
    (nvenc_by_name e = true /\ codec = h264_nvenc) \/
    (nvenc_by_name e = false /\ h264_by_id e = true /\ codec = h264_software).
Proof.
  intros run codec cfg. subst run. run_start. repeat run_step.
  all: unfold holds, calls; cbn [snd]; intros H; split_run_calls.
  all: injection H as <- _; auto.
Qed.

(** The run fails for want of an encoder exactly when it reaches the
    lookups and both fail. *)
Lemma run_no_encoder av_rescale_q e size sf w h start_seconds end_seconds :
  let run :=
    TranscodeWithSizeAndScale av_rescale_q e size sf w h start_seconds end_seconds in
  fst run = Abort NoEncoder <->
  In avcodec_find_encoder_by_name (calls run) /\
  nvenc_by_name e = false /\ h264_by_id e = false.
Proof.
  intros run. subst run. run_start. repeat run_step.
  all: unfold holds, calls; cbn [fst snd]; split; intros H.
  all: try discriminate H.
  all: split_run_calls; try congruence.
  all: repeat split; try assumption; cbn [In]; auto 12.
Qed.

(** C6: the hardware encoder is looked up by name first and the lookup
    by codec id is made only when that fails; the encoder then opened is
    the hardware one when the first lookup succeeded and the software one
    when only the second did; the run fails for want of an encoder
    exactly when both lookups fail; and a run that falls back on the
    software encoder can succeed. *)
Theorem C6_encoder_fallback
    av_rescale_q e size sf w h start_seconds end_seconds :
  let run :=
    TranscodeWithSizeAndScale av_rescale_q e size sf w h start_seconds end_seconds in
  (In avcodec_find_encoder (calls run) ->
   nvenc_by_name e = false /\
   exists l1 l2,
     calls run = l1 ++ avcodec_find_encoder_by_name :: avcodec_find_encoder :: l2) /\
  (forall codec cfg,
     In (avcodec_open2_encoder codec cfg) (calls run) ->
     (nvenc_by_name e = true /\ codec = h264_nvenc) \/
     (nvenc_by_name e = false /\ h264_by_id e = true /\ codec = h264_software)) /\
  (fst run = Abort NoEncoder <->
   In avcodec_find_encoder_by_name (calls run) /\
   nvenc_by_name e = false /\ h264_by_id e = false) /\
  (exists e' cfg,
     nvenc_by_name e' = false /\
     In (avcodec_open2_encoder h264_software cfg)
        (calls (TranscodeWithSizeAndScale rescale_near e' 5 4 1920 1080 10 20)) /\
     returns (TranscodeWithSizeAndScale rescale_near e' 5 4 1920 1080 10 20)
     = Some true).
Proof.
  intros run. subst run.
  split; [apply run_lookup_order|].
  split; [apply run_opened_encoder|].
  split; [apply run_no_encoder|].
  exists (sample_env false true).
  eexists. split; [reflexivity|]. split; [|reflexivity].
  vm_compute. do 11 right. left. reflexivity.
Qed.

(** The sample file without the hardware encoder, and without any. *)
Lemma C6_encoder_fallback_witness :
  (nvenc_by_name (sample_env false true) = false /\
   exists l1 l2,
     calls (TranscodeWithSizeAndScale rescale_near (sample_env false true)
              5 4 1920 1080 10 20)
     = l1 ++ avcodec_find_encoder_by_name :: avcodec_find_encoder :: l2) /\
  fst (TranscodeWithSizeAndScale rescale_near (sample_env false false)
         5 4 1920 1080 10 20) = Abort NoEncoder.
Proof.
  split.
  - pose proof (C6_encoder_fallback rescale_near (sample_env false true)
                  5 4 1920 1080 10 20) as H.
    cbv zeta in H. destruct H as (H & _). apply H.
    vm_compute. do 8 right. left. reflexivity.
  - pose proof (C6_encoder_fallback rescale_near (sample_env false false)
                  5 4 1920 1080 10 20) as H.
    cbv zeta in H. destruct H as (_ & _ & H & _). apply H.
    split; [|split; reflexivity].
    vm_compute. do 7 right. left. reflexivity.
Defined.

(** ** The single-frame scan of the decode thread *)

Section Scan.

Variable media : Playback.Media.

Local Abbreviation ms_of := (Playback.ms_of media).
Local Abbreviation hNew_of := (Playback.hNew_of media).
Local Abbreviation receive_single := (Playback.receive_single media).
Local Abbreviation scan_packets := (Playback.scan_packets media).
Local Abbreviation decode_order := (Playback.decode_order media).
Local Abbreviation all_before := (Playback.all_before media).

Lemma all_before_app (t : Z) (l1 l2 : list AVFrame) :
  all_before t (l1 ++ l2) <-> all_before t l1 /\ all_before t l2.
Proof.
  unfold Playback.all_before. split.
  - intros H. split; intros f Hf; apply H; apply in_or_app; auto.
  - intros [H1 H2] f Hf. apply in_app_or in Hf. destruct Hf; auto.
Qed.

(** Forward: frames before the target are passed over. *)
Lemma receive_single_forward_pending stepDir targetMs queue best :
  (0 <=? stepDir) = true -> all_before targetMs queue ->
  receive_single stepDir targetMs queue best = Some (Playback.Pending best).
Proof.
  intros Hdir. induction queue as [|frame q IH]; intros Hq; cbn [Playback.receive_single].
  - reflexivity.
  - destruct (Hq frame (or_introl eq_refl)) as (m & -> & Hm).
    rewrite Hdir. destruct (Z.leb_spec targetMs m); [lia|].
    apply IH. intros f Hf. apply Hq. right. exact Hf.
Qed.

(** Forward: the first frame at or after the target is produced. *)
Lemma receive_single_forward_found stepDir targetMs pre frame post ms best :
  (0 <=? stepDir) = true -> all_before targetMs pre ->
  ms_of frame = Some ms -> targetMs <= ms ->
  receive_single stepDir targetMs (pre ++ frame :: post) best
  = Some (Playback.Produced (hNew_of frame) ms post).
Proof.
  intros Hdir Hpre Hms Hle.
  induction pre as [|f0 pre IH]; cbn [app Playback.receive_single].
  - rewrite Hms, Hdir. destruct (Z.leb_spec targetMs ms); [reflexivity | lia].
  - destruct (Hpre f0 (or_introl eq_refl)) as (m & -> & Hm).
    rewrite Hdir. destruct (Z.leb_spec targetMs m); [lia|].
    apply IH. intros f Hf. apply Hpre. right. exact Hf.
Qed.

Lemma scan_packets_forward_found stepDir targetMs frame post ms :
  (0 <=? stepDir) = true -> ms_of frame = Some ms -> targetMs <= ms ->
  forall reader pre best,
    decode_order reader = pre ++ frame :: post -> all_before targetMs pre ->
    exists reader' queue',
      scan_packets stepDir targetMs reader [] best
      = Some (Some (hNew_of frame, ms), reader', queue').
Proof.
  intros Hdir Hms Hle.
  induction reader as [|pkt rest IH]; intros pre best Heq Hpre;
    cbn [Playback.decode_order Playback.scan_packets] in *.
  - destruct pre; discriminate.
  - destruct (negb (stream_index pkt =? Playback.videoStreamIndex media)).
    + apply (IH pre best Heq Hpre).
    + destruct (negb (send_ok pkt)); [destruct pre; discriminate|].
      cbn [app].
      apply app_eq_app in Heq. destruct Heq as [l [[Hd Hp] | [Hp Hd]]].
      * destruct l as [|f' l].
        -- rewrite app_nil_r in Hd. subst pre. cbn [app] in Hp.
           rewrite (receive_single_forward_pending _ _ _ _ Hdir Hpre).
           apply (IH [] best); [symmetry; exact Hp|].
           intros f [].
        -- cbn [app] in Hp. injection Hp as <- _. rewrite Hd.
           rewrite (receive_single_forward_found _ _ _ _ _ _ _ Hdir Hpre Hms Hle).
           eauto.
      * subst pre. apply all_before_app in Hpre. destruct Hpre as [Hpre1 Hpre2].
        rewrite (receive_single_forward_pending _ _ _ _ Hdir Hpre1).
        apply (IH l best); assumption.
Qed.

(** Forward: when every decoded frame is before the target, nothing is
    published. *)
Lemma scan_packets_forward_none stepDir targetMs :
  (0 <=? stepDir) = true ->
  forall reader best,
    all_before targetMs (decode_order reader) ->
    exists reader' queue',
      scan_packets stepDir targetMs reader [] best = Some (None, reader', queue').
Proof.
  intros Hdir.
  induction reader as [|pkt rest IH]; intros best Hall;
    cbn [Playback.decode_order Playback.scan_packets] in *.
  - eauto.
  - destruct (negb (stream_index pkt =? Playback.videoStreamIndex media)).
    + apply (IH best Hall).
    + destruct (negb (send_ok pkt)); [eauto|].
      cbn [app]. apply all_before_app in Hall. destruct Hall as [H1 H2].
      rewrite (receive_single_forward_pending _ _ _ _ Hdir H1).
      apply (IH best H2).
Qed.

End Scan.

(** ** Steps and seeks *)

Ltac player_cbn :=
  cbn [Playback.g_duration Playback.g_videoFPS Playback.thread
       Playback.g_playThreadShouldExit Playback.g_isPlaying
       Playback.g_seekRequested Playback.g_seekTargetMs Playback.g_currentPosMs
       Playback.g_decodeSingleFrame Playback.g_stepDir Playback.g_hFrameBitmap
       Playback.set_thread Playback.set_playThreadShouldExit
       Playback.set_isPlaying Playback.set_seekRequested
       Playback.set_seekTargetMs Playback.set_decodeSingleFrame
       Playback.set_stepDir Playback.publish Playback.set_hFrameBitmap
       Playback.g_hPlaybackThread Playback.EnsureThreadRunningPaused
       negb andb fst snd app] in *.

Ltac thread_cbn :=
  cbn [Playback.g_duration Playback.g_videoFPS Playback.thread
       Playback.g_playThreadShouldExit Playback.g_isPlaying
       Playback.g_seekRequested Playback.g_seekTargetMs Playback.g_currentPosMs
       Playback.g_decodeSingleFrame Playback.g_stepDir Playback.g_hFrameBitmap
       Playback.set_thread Playback.set_playThreadShouldExit
       Playback.set_isPlaying Playback.set_seekRequested
       Playback.set_seekTargetMs Playback.set_decodeSingleFrame
       Playback.set_stepDir Playback.publish Playback.set_hFrameBitmap
       Playback.g_hPlaybackThread Playback.EnsureThreadRunningPaused
       Playback.thread_run Playback.thread_step
       negb andb fst snd app] in *.

Section Steps.

Variable av_rescale_q : Z -> AVRational -> AVRational -> Z.
Variable media : Playback.Media.

Local Abbreviation thread_step := (Playback.thread_step av_rescale_q media).
Local Abbreviation thread_run := (Playback.thread_run av_rescale_q media).
Local Abbreviation loop_body := (Playback.loop_body av_rescale_q media).
Local Abbreviation seek_packets := (Playback.seek_packets av_rescale_q media).

(** The thread services a pending forward step within two of its steps:
    one seek, then the first frame at or after the target is published. *)
Lemma forward_step_serviced (s : Playback.Player) (target : Z)
    (pre : list AVFrame) (frame : AVFrame) (post : list AVFrame) (ms : Z) :
  Playback.step_pending 1 target s -> Playback.init_ok media = true ->
  Playback.decode_order media (seek_packets target) = pre ++ frame :: post ->
  Playback.all_before media target pre ->
  Playback.ms_of media frame = Some ms -> target <= ms ->
  exists s2,
    thread_run 2 s
    = Some (s2, [Playback.doSeek target;
                 Playback.published (Playback.hNew_of media frame) ms;
                 Playback.WM_APP_FRAME_READY]) /\
    Playback.g_currentPosMs s2 = ms /\
    Playback.g_hFrameBitmap s2 = Playback.hNew_of media frame /\
    Playback.g_decodeSingleFrame s2 = false /\
    Playback.g_seekRequested s2 = false /\
    Playback.g_isPlaying s2 = false.
Proof.
  intros (Hreq & Htgt & Hsingle & Hdir & Hplay & Hth & Hexit) Hinit Hdec Hpre Hms Hle.
  destruct s as [dur fps th ex pl rq tgt pos single dir bmp].
  player_cbn. subst.
  assert (Hd : (0 <=? 1) = true) by reflexivity.
  destruct Hth as [-> | (reader & queue & ->)].
  - destruct (scan_packets_forward_found media 1 target frame post ms Hd Hms Hle
                (seek_packets target) pre (None, -1) Hdec Hpre)
      as (reader' & queue' & Hscan).
    thread_cbn. unfold Playback.thread_start. rewrite Hinit. thread_cbn.
    unfold Playback.loop_body. player_cbn. rewrite Hscan. thread_cbn.
    eexists. split; [reflexivity|]. player_cbn. repeat split.
  - destruct (scan_packets_forward_found media 1 target frame post ms Hd Hms Hle
                (seek_packets target) pre (None, -1) Hdec Hpre)
      as (reader' & queue' & Hscan).
    thread_cbn. unfold Playback.loop_body at 1. player_cbn. rewrite Hscan.
    thread_cbn. unfold Playback.loop_body. player_cbn.
    eexists. split; [reflexivity|]. player_cbn. repeat split.
Qed.

End Steps.

Section StepCommands.

Variable av_rescale_q : Z -> AVRational -> AVRational -> Z.
Variable media : Playback.Media.

Local Abbreviation thread_run := (Playback.thread_run av_rescale_q media).
Local Abbreviation seek_packets := (Playback.seek_packets av_rescale_q media).

(** The thread services a pending forward step within two of its steps
    also when no decoded frame reaches the target: it seeks and
    publishes nothing. *)
Lemma forward_step_unanswered (s : Playback.Player) (target : Z) :
  Playback.step_pending 1 target s -> Playback.init_ok media = true ->
  Playback.all_before media target
    (Playback.decode_order media (seek_packets target)) ->
  exists s2,
    thread_run 2 s = Some (s2, [Playback.doSeek target]) /\
    Playback.g_currentPosMs s2 = Playback.g_currentPosMs s /\
    Playback.g_hFrameBitmap s2 = Playback.g_hFrameBitmap s /\
    Playback.g_decodeSingleFrame s2 = false.
Proof.
  intros (Hreq & Htgt & Hsingle & Hdir & Hplay & Hth & Hexit) Hinit Hall.
  destruct s as [dur fps th ex pl rq tgt pos single dir bmp].
  player_cbn. subst.
  assert (Hd : (0 <=? 1) = true) by reflexivity.
  destruct (scan_packets_forward_none media 1 target Hd
              (seek_packets target) (None, -1) Hall)
    as (reader' & queue' & Hscan).
  destruct Hth as [-> | (reader & queue & ->)].
  - thread_cbn. unfold Playback.thread_start. rewrite Hinit. thread_cbn.
    unfold Playback.loop_body. player_cbn. rewrite Hscan. thread_cbn.
    eexists. split; [reflexivity|]. player_cbn. repeat split.
  - thread_cbn. unfold Playback.loop_body at 1. player_cbn. rewrite Hscan.
    thread_cbn. unfold Playback.loop_body. player_cbn.
    eexists. split; [reflexivity|]. player_cbn. repeat split.
Qed.

(** [StepForward] leaves a pending forward step whose target is the
    position one frame interval ahead, clamped into the duration. *)
Lemma StepForward_pending (s : Playback.Player) (durMs F : Z) :
  Playback.thread s <> Playback.Exited ->
  Playback.thread s = Playback.NoThread \/
  Playback.g_playThreadShouldExit s = false ->
  Cxx.to_int64 (Playback.g_duration s * 1000.0)%float = Some durMs ->
  Playback.frameMs_of s = Some F ->
  exists s1,
    Playback.StepForward s = Some s1 /\
    Playback.step_pending 1
      (Playback.clamp_ms durMs (Playback.g_currentPosMs s + F)) s1 /\
    Playback.g_currentPosMs s1 = Playback.g_currentPosMs s /\
    Playback.g_hFrameBitmap s1 = Playback.g_hFrameBitmap s.
Proof.
  intros Hth Hexit Hdur HF.
  destruct s as [dur fps th ex pl rq tgt pos single dir bmp].
  unfold Playback.StepForward, Playback.frameMs_of, Playback.SeekMs,
    Playback.step_pending, Playback.clamp_ms in *.
  player_cbn.
  destruct th; player_cbn; try congruence;
    rewrite HF; player_cbn; rewrite Hdur;
    (eexists; split; [reflexivity|]); player_cbn;
    repeat split; eauto;
    destruct Hexit as [Hexit | Hexit]; congruence.
Qed.

End StepCommands.

(** C7, as stated, fails: a forward step at the last frame of the sample
    clip, 233 ms, probed at 10 frames per second, has the frame interval
    100 ms; the pending target is the duration, 267 ms, not 333 ms. *)
Lemma C7_counterexample :
  let s := Playback.sample_player (Playback.Running [] []) 10 233 7 in
  Playback.frameMs_of s = Some 100 /\
  exists s1,
    Playback.StepForward s = Some s1 /\
    Playback.g_seekTargetMs s1 = 267 /\
    Playback.g_seekTargetMs s1 <> Playback.g_currentPosMs s + 100.
Proof.
  split; [reflexivity|]. eexists. split; [reflexivity|].
  split; [reflexivity|]. vm_compute. discriminate.
Qed.

(** C7, amended: a forward step at position [P] with frame interval [F]
    sets the pending target to [P + F] clamped into the duration (which
    is [P + F] itself when that lies within the duration), and the thread
    then seeks once and publishes the first decoded frame whose time is
    at or after that target; when no decoded frame reaches the target
    nothing is published. *)
Theorem C7_forward_step
    av_rescale_q media (s : Playback.Player) (durMs F : Z) :
  Playback.thread s <> Playback.Exited ->
  Playback.thread s = Playback.NoThread \/
  Playback.g_playThreadShouldExit s = false ->
  Playback.init_ok media = true ->
  Cxx.to_int64 (Playback.g_duration s * 1000.0)%float = Some durMs ->
  Playback.frameMs_of s = Some F ->
  let P := Playback.g_currentPosMs s in
  let target := Playback.clamp_ms durMs (P + F) in
  exists s1,
    Playback.StepForward s = Some s1 /\
    Playback.g_seekRequested s1 = true /\
    Playback.g_seekTargetMs s1 = target /\
    Playback.g_decodeSingleFrame s1 = true /\
    Playback.g_stepDir s1 = 1 /\
    (0 <= P + F <= durMs -> target = P + F) /\
    (forall pre frame post ms,
       Playback.decode_order media (Playback.seek_packets av_rescale_q media target)
       = pre ++ frame :: post ->
       Playback.all_before media target pre ->
       Playback.ms_of media frame = Some ms -> target <= ms ->
       exists s2,
         Playback.thread_run av_rescale_q media 2 s1
         = Some (s2, [Playback.doSeek target;
                      Playback.published (Playback.hNew_of media frame) ms;
                      Playback.WM_APP_FRAME_READY]) /\
         Playback.g_currentPosMs s2 = ms /\
         Playback.g_hFrameBitmap s2 = Playback.hNew_of media frame) /\
    (Playback.all_before media target
       (Playback.decode_order media (Playback.seek_packets av_rescale_q media target)) ->
     exists s2,
       Playback.thread_run av_rescale_q media 2 s1
       = Some (s2, [Playback.doSeek target]) /\
       Playback.g_currentPosMs s2 = P /\
       Playback.g_hFrameBitmap s2 = Playback.g_hFrameBitmap s).
Proof.
  intros Hth Hexit Hinit Hdur HF P target.
  destruct (StepForward_pending s durMs F Hth Hexit Hdur HF)
    as (s1 & Hstep & Hpend & Hpos & Hbmp).
  exists s1. split; [exact Hstep|].
  pose proof Hpend as (Hreq & Htgt & Hsingle & Hdir & _).
  repeat (split; [assumption|]).
  split; [|split].
  - intros Hrange. subst target. unfold Playback.clamp_ms.
    destruct (Z.ltb_spec (P + F) 0); [lia|].
    destruct (Z.ltb_spec durMs (P + F)); [lia | reflexivity].
  - intros pre frame post ms Hdec Hpre Hms Hle.
    destruct (forward_step_serviced av_rescale_q media s1 target pre frame post ms
                Hpend Hinit Hdec Hpre Hms Hle) as (s2 & Hrun & Hp & Hb & _).
    exists s2. auto.
  - intros Hall.
    destruct (forward_step_unanswered av_rescale_q media s1 target Hpend Hinit Hall)
      as (s2 & Hrun & Hp & Hb & _).
    exists s2. split; [exact Hrun|]. split.
    + rewrite Hp. exact Hpos.
    + rewrite Hb. exact Hbmp.
Qed.

(** A forward step from the frame at 200 ms of the sample clip lands on
    the frame at 233 ms. *)
Lemma C7_forward_step_witness :
  exists s1,
    Playback.StepForward (Playback.sample_player Playback.NoThread 30 200 6)
    = Some s1 /\
    Playback.g_seekTargetMs s1 = 233 /\
    exists s2,
      Playback.thread_run rescale_near Playback.sample_media 2 s1
      = Some (s2, [Playback.doSeek 233;
                   Playback.published (Some 7%nat) 233;
                   Playback.WM_APP_FRAME_READY]) /\
      Playback.g_currentPosMs s2 = 233.
Proof.
  destruct (C7_forward_step rescale_near Playback.sample_media
              (Playback.sample_player Playback.NoThread 30 200 6) 267 33)
    as (s1 & Hstep & _ & Htgt & _ & _ & _ & Hfound & _);
    try reflexivity; try discriminate; [left; reflexivity|].
  exists s1. split; [exact Hstep|]. split; [exact Htgt|].
  destruct (Hfound (firstn 7 (Playback.decode_order Playback.sample_media
                                Playback.sample_clip))
              (mkFrame 233 233 7) [] 233) as (s2 & Hrun & Hpos & _).
  - reflexivity.
  - intros f Hf. vm_compute in Hf.
    repeat (destruct Hf as [<- | Hf];
            [eexists; split; [vm_compute; reflexivity | vm_compute; reflexivity]|]).
    destruct Hf.
  - reflexivity.
  - vm_compute. discriminate.
  - exists s2. split; [exact Hrun | exact Hpos].
Defined.

(** C2: on the sample clip, whose frames lie at 0, 33, 67, 100, 133, 167,
    200 and 233 ms, a backward step from the frame at 200 ms seeks to
    134 ms and publishes the frame at 133 ms, the latest one before the
    seek target, and not the frame at 167 ms, the latest one before the
    position the step was issued at. *)
Theorem C2_backward_step_lands_before_seek_target :
  let s := Playback.sample_player (Playback.Running [] []) 30 200 6 in
  map (Playback.ms_of Playback.sample_media)
    (Playback.decode_order Playback.sample_media Playback.sample_clip)
  = [Some 0; Some 33; Some 67; Some 100; Some 133; Some 167; Some 200; Some 233] /\
  Playback.frameMs_of s = Some 33 /\
  exists s1 s2,
    Playback.StepBackward s = Some s1 /\
    Playback.g_seekTargetMs s1 = 200 - 2 * 33 /\
    Playback.thread_step rescale_near Playback.sample_media s1
    = Some (s2, [Playback.doSeek 134;
                 Playback.published (Some 4%nat) 133;
                 Playback.WM_APP_FRAME_READY]) /\
    Playback.g_currentPosMs s2 = 133.
Proof.
  split; [reflexivity|]. split; [reflexivity|].
  eexists. eexists. split; [reflexivity|]. split; [reflexivity|].
  split; reflexivity.
Qed.

(** ** Pending seeks and the end of the stream *)

Section ThreadFacts.

Variable av_rescale_q : Z -> AVRational -> AVRational -> Z.
Variable media : Playback.Media.

Local Abbreviation thread_step := (Playback.thread_step av_rescale_q media).
Local Abbreviation thread_run := (Playback.thread_run av_rescale_q media).
Local Abbreviation loop_body := (Playback.loop_body av_rescale_q media).

(** Continuous playback publishes frames; it never seeks, and it leaves
    the flags as they are. *)
Lemma play_frames_facts (queue : list AVFrame) :
  forall s s' ev,
    Playback.play_frames media queue s = Some (s', ev) ->
    Playback.seeks ev = [] /\
    Playback.g_isPlaying s' = Playback.g_isPlaying s /\
    Playback.g_seekRequested s' = Playback.g_seekRequested s /\
    Playback.g_playThreadShouldExit s' = Playback.g_playThreadShouldExit s.
Proof.
  induction queue as [|frame q IH]; intros s s' ev H; cbn [Playback.play_frames] in H.
  - injection H as <- <-. auto.
  - destruct (Playback.hNew_of media frame) as [b|].
    + destruct (Playback.ms_of media frame) as [ms|]; [|discriminate].
      destruct (Playback.play_frames media q (Playback.publish (Some b) ms s))
        as [[s1 ev1]|] eqn:Hq; [|discriminate].
      injection H as <- <-. apply IH in Hq. cbn [Playback.seeks flat_map app].
      destruct Hq as (H1 & H2 & H3 & H4). destruct s. auto.
    + destruct (Playback.play_frames media q s) as [[s1 ev1]|] eqn:Hq;
        [|discriminate].
      injection H as <- <-. apply IH in Hq. cbn [Playback.seeks flat_map app].
      exact Hq.
Qed.

(** One pass of the loop seeks exactly when a seek is pending, to the
    pending target, and leaves no seek pending. *)
Lemma loop_body_seeks (reader : list AVPacket) (queue : list AVFrame)
    (s s' : Playback.Player) (ev : list Playback.event) :
  loop_body reader queue s = Some (s', ev) ->
  Playback.seeks ev
  = (if Playback.g_seekRequested s then [Playback.g_seekTargetMs s] else []) /\
  Playback.g_seekRequested s' = false /\
  (Playback.g_isPlaying s = false -> Playback.g_isPlaying s' = false) /\
  (exists reader' queue', Playback.thread s' = Playback.Running reader' queue') /\
  Playback.g_playThreadShouldExit s' = Playback.g_playThreadShouldExit s.
Proof.
  destruct s as [dur fps th ex pl rq tgt pos single dir bmp].
  unfold Playback.loop_body. player_cbn. intros H.
  destruct rq; player_cbn.
  all: repeat (lazymatch type of H with
               | ?l = Some _ => let x := scrutinee l in destruct x eqn:?
               end; player_cbn).
  all: try discriminate H.
  all: injection H as <- <-; player_cbn.
  all: try match goal with
       | Hp : Playback.play_frames _ _ _ = Some (?s1, _) |- _ =>
           apply play_frames_facts in Hp; destruct Hp as (Hs & Hp & Hr & Hx);
           destruct s1; player_cbn; subst
       end.
  all: unfold Playback.seeks in *; rewrite ?flat_map_app; cbn [flat_map app].
  all: try match goal with Hs : flat_map _ _ = [] |- _ => rewrite Hs end.
  all: repeat split; eauto; intros; try congruence; try discriminate.
  all: repeat match goal with
       | Hn : negb ?b = _ |- _ => destruct b; try discriminate Hn
       | Hn : andb ?a ?b = _ |- _ => destruct a, b; try discriminate Hn
       end; try reflexivity; try discriminate.
Qed.

End ThreadFacts.

Section ThreadSteps.

Variable av_rescale_q : Z -> AVRational -> AVRational -> Z.
Variable media : Playback.Media.

Local Abbreviation thread_step := (Playback.thread_step av_rescale_q media).
Local Abbreviation thread_run := (Playback.thread_run av_rescale_q media).

(** A step of a live thread seeks exactly when a seek is pending, to the
    pending target, and leaves the thread in its loop with no seek
    pending. *)
Lemma thread_step_seeks (s s' : Playback.Player) (ev : list Playback.event) :
  Playback.init_ok media = true ->
  Playback.thread s = Playback.Spawned \/
  (exists reader queue, Playback.thread s = Playback.Running reader queue) ->
  Playback.g_playThreadShouldExit s = false ->
  thread_step s = Some (s', ev) ->
  (Playback.g_seekRequested s = true ->
   Playback.seeks ev = [Playback.g_seekTargetMs s]) /\
  Playback.g_seekRequested s' = false /\
  (exists reader queue, Playback.thread s' = Playback.Running reader queue) /\
  Playback.g_playThreadShouldExit s' = false.
Proof.
  intros Hinit Hth Hexit Hstep. unfold Playback.thread_step in Hstep.
  destruct Hth as [Hth | (reader & queue & Hth)]; rewrite Hth in Hstep.
  - unfold Playback.thread_start in Hstep. rewrite Hinit in Hstep.
    destruct s as [dur fps th ex pl rq tgt pos single dir bmp]. player_cbn.
    destruct rq; injection Hstep as <- <-; player_cbn;
      repeat split; eauto; discriminate.
  - rewrite Hexit in Hstep.
    apply loop_body_seeks in Hstep.
    destruct Hstep as (Hs & Hr & _ & Ht & Hx).
    repeat split; try assumption; [|congruence].
    intros Hreq. rewrite Hreq in Hs. exact Hs.
Qed.

(** With no seek pending, a step of the thread does not seek. *)
Lemma thread_step_no_seek (s s' : Playback.Player) (ev : list Playback.event) :
  (exists reader queue, Playback.thread s = Playback.Running reader queue) ->
  Playback.g_seekRequested s = false ->
  thread_step s = Some (s', ev) -> Playback.seeks ev = [].
Proof.
  intros (reader & queue & Hth) Hreq Hstep.
  unfold Playback.thread_step in Hstep. rewrite Hth in Hstep.
  destruct (Playback.g_playThreadShouldExit s).
  - injection Hstep as _ <-. reflexivity.
  - apply loop_body_seeks in Hstep. destruct Hstep as (Hs & _).
    rewrite Hreq in Hs. exact Hs.
Qed.

(** The thread never starts playback by itself. *)
Lemma thread_step_keeps_paused (s s' : Playback.Player) (ev : list Playback.event) :
  Playback.g_isPlaying s = false -> thread_step s = Some (s', ev) ->
  Playback.g_isPlaying s' = false.
Proof.
  intros Hpl Hstep. unfold Playback.thread_step in Hstep.
  destruct (Playback.thread s) as [ | | reader queue | ] eqn:Hth.
  - injection Hstep as <- _. exact Hpl.
  - unfold Playback.thread_start in Hstep.
    destruct s as [dur fps th ex pl rq tgt pos single dir bmp]. player_cbn.
    destruct (Playback.init_ok media), rq; injection Hstep as <- _; exact Hpl.
  - destruct (Playback.g_playThreadShouldExit s).
    + injection Hstep as <- _. destruct s; exact Hpl.
    + apply loop_body_seeks in Hstep. destruct Hstep as (_ & _ & Hk & _). auto.
  - injection Hstep as <- _. exact Hpl.
Qed.

Lemma thread_run_keeps_paused (n : nat) :
  forall (s s' : Playback.Player) (ev : list Playback.event),
    Playback.g_isPlaying s = false -> thread_run n s = Some (s', ev) ->
    Playback.g_isPlaying s' = false.
Proof.
  induction n as [|n IH]; intros s s' ev Hpl Hrun; cbn [Playback.thread_run] in Hrun.
  - injection Hrun as <- _. exact Hpl.
  - destruct (thread_step s) as [[s1 ev1]|] eqn:Hstep; [|discriminate].
    destruct (thread_run n s1) as [[s2 ev2]|] eqn:Hrest; [|discriminate].
    injection Hrun as <- _.
    apply (IH s1 s2 ev2); [|exact Hrest].
    apply (thread_step_keeps_paused s s1 ev1 Hpl Hstep).
Qed.

End ThreadSteps.

(** [SeekMs] stores the clamped position as the pending target; the
    single-frame flag is set by a request that asks for it and kept
    otherwise. *)
Lemma SeekMs_spec (s : Playback.Player) (ms : Z) (decodeSingle : bool) (durMs : Z) :
  Cxx.to_int64 (Playback.g_duration s * 1000.0)%float = Some durMs ->
  Playback.SeekMs ms decodeSingle s
  = Some (Playback.mkPlayer (Playback.g_duration s) (Playback.g_videoFPS s)
            (Playback.thread s) (Playback.g_playThreadShouldExit s)
            (Playback.g_isPlaying s) true (Playback.clamp_ms durMs ms)
            (Playback.g_currentPosMs s)
            (decodeSingle || Playback.g_decodeSingleFrame s)
            (Playback.g_stepDir s) (Playback.g_hFrameBitmap s)).
Proof.
  intros Hdur. unfold Playback.SeekMs. rewrite Hdur.
  destruct s, decodeSingle; reflexivity.
Qed.

(** C8, as stated, fails: two requests to seek to 333 ms in the sample
    clip, which lasts 267 ms, are served by one seek, to 267 ms. *)
Lemma C8_counterexample :
  let s := Playback.sample_player (Playback.Running [] []) 10 233 7 in
  exists s1 s2 s3 ev,
    Playback.SeekMs 333 true s = Some s1 /\
    Playback.SeekMs 333 true s1 = Some s2 /\
    Playback.thread_step rescale_near Playback.sample_media s2 = Some (s3, ev) /\
    Playback.seeks ev = [267] /\ Playback.seeks ev <> [333].
Proof.
  do 4 eexists. split; [reflexivity|]. split; [reflexivity|].
  split; [reflexivity|]. split; [reflexivity|]. vm_compute. discriminate.
Qed.

(** C8, amended: a seek request issued before an earlier one is served
    overwrites the pending target with its own position clamped into the
    duration (its position itself when that lies within the duration);
    the same request issued twice leaves the state the first one left;
    and the decode thread then performs exactly one seek, to that target,
    and none on its next step. *)
Theorem C8_latest_seek_wins
    av_rescale_q media (s : Playback.Player) (ms1 ms2 : Z)
    (single1 single2 : bool) (durMs : Z) :
  Cxx.to_int64 (Playback.g_duration s * 1000.0)%float = Some durMs ->
  Playback.init_ok media = true ->
  Playback.thread s = Playback.Spawned \/
  (exists reader queue, Playback.thread s = Playback.Running reader queue) ->
  Playback.g_playThreadShouldExit s = false ->
  exists s1 s2,
    Playback.SeekMs ms1 single1 s = Some s1 /\
    Playback.SeekMs ms2 single2 s1 = Some s2 /\
    Playback.g_seekRequested s2 = true /\
    Playback.g_seekTargetMs s2 = Playback.clamp_ms durMs ms2 /\
    (0 <= ms2 <= durMs -> Playback.g_seekTargetMs s2 = ms2) /\
    (ms1 = ms2 -> single1 = single2 -> s2 = s1) /\
    (forall s3 ev,
       Playback.thread_step av_rescale_q media s2 = Some (s3, ev) ->
       Playback.seeks ev = [Playback.clamp_ms durMs ms2] /\
       Playback.g_seekRequested s3 = false /\
       forall s4 ev',
         Playback.thread_step av_rescale_q media s3 = Some (s4, ev') ->
         Playback.seeks ev' = []).
Proof.
  intros Hdur Hinit Hth Hexit.
  rewrite (SeekMs_spec s ms1 single1 durMs Hdur).
  eexists. eexists. split; [reflexivity|].
  rewrite (SeekMs_spec _ ms2 single2 durMs) by exact Hdur. player_cbn.
  split; [reflexivity|]. split; [reflexivity|]. split; [reflexivity|].
  split.
  { intros Hr. unfold Playback.clamp_ms.
    destruct (Z.ltb_spec ms2 0); [lia|].
    destruct (Z.ltb_spec durMs ms2); [lia | reflexivity]. }
  split.
  { intros -> ->. destruct single2; reflexivity. }
  intros s3 ev Hstep.
  apply thread_step_seeks in Hstep; try assumption.
  destruct Hstep as (Hs & Hr & Ht & Hx).
  split; [apply Hs; reflexivity|]. split; [exact Hr|].
  intros s4 ev' Hstep'.
  apply (thread_step_no_seek av_rescale_q media s3 s4 ev' Ht Hr Hstep').
Qed.

(** Two requests on the sample clip, to 100 ms and then to 167 ms: one
    seek, to 167 ms. *)
Lemma C8_latest_seek_wins_witness :
  exists s1 s2,
    Playback.SeekMs 100 true
      (Playback.sample_player (Playback.Running [] []) 30 0 0) = Some s1 /\
    Playback.SeekMs 167 true s1 = Some s2 /\
    Playback.g_seekTargetMs s2 = 167 /\
    exists s3 ev,
      Playback.thread_step rescale_near Playback.sample_media s2 = Some (s3, ev) /\
      Playback.seeks ev = [167].
Proof.
  destruct (C8_latest_seek_wins rescale_near Playback.sample_media
              (Playback.sample_player (Playback.Running [] []) 30 0 0)
              100 167 true true 267)
    as (s1 & s2 & H1 & H2 & _ & _ & Htgt & _ & Hserve);
    try reflexivity; [right; do 2 eexists; reflexivity|].
  exists s1, s2. split; [exact H1|]. split; [exact H2|].
  split; [apply Htgt; lia|].
  destruct (Playback.thread_step rescale_near Playback.sample_media s2)
    as [[s3 ev]|] eqn:Hstep.
  - exists s3, ev. split; [reflexivity|].
    destruct (Hserve s3 ev eq_refl) as (Hs & _). exact Hs.
  - exfalso. revert Hstep. injection H1 as <-. injection H2 as <-.
    vm_compute. discriminate.
Defined.

(** C9: when the loop is playing and the read of the next packet
    reports the end of the stream, the pass clears the playing flag and
    publishes nothing; the thread stays in its loop, its exit flag
    untouched; and the flag stays clear through every later step of the
    thread, until a command of the window procedure sets it. *)
Theorem C9_end_of_stream_pauses
    av_rescale_q media (s : Playback.Player)
    (reader : list AVPacket) (queue : list AVFrame) :
  Playback.thread s = Playback.Running reader queue ->
  Playback.g_playThreadShouldExit s = false ->
  Playback.g_isPlaying s = true ->
  (if Playback.g_seekRequested s
   then Playback.seek_packets av_rescale_q media (Playback.g_seekTargetMs s)
   else reader) = [] ->
  exists s',
    Playback.thread_step av_rescale_q media s
    = Some (s', if Playback.g_seekRequested s
                then [Playback.doSeek (Playback.g_seekTargetMs s)] else []) /\
    Playback.g_isPlaying s' = false /\
    Playback.g_playThreadShouldExit s' = false /\
    (exists queue', Playback.thread s' = Playback.Running [] queue') /\
    Playback.g_currentPosMs s' = Playback.g_currentPosMs s /\
    Playback.g_hFrameBitmap s' = Playback.g_hFrameBitmap s /\
    forall n s'' ev,
      Playback.thread_run av_rescale_q media n s' = Some (s'', ev) ->
      Playback.g_isPlaying s'' = false.
Proof.
  intros Hth Hexit Hplay Heos.
  destruct s as [dur fps th ex pl rq tgt pos single dir bmp].
  player_cbn. subst.
  assert (Hstep :
    exists queue',
      Playback.thread_step av_rescale_q media
        (Playback.mkPlayer dur fps (Playback.Running reader queue) false true rq
           tgt pos single dir bmp)
      = Some (Playback.mkPlayer dur fps (Playback.Running [] queue') false false
                false tgt pos single dir bmp,
              if rq then [Playback.doSeek tgt] else [])).
  { unfold Playback.thread_step. player_cbn. unfold Playback.loop_body. player_cbn.
    destruct rq; player_cbn; rewrite andb_false_r; rewrite Heos; player_cbn;
      eexists; reflexivity. }
  destruct Hstep as [queue' Hstep]. eexists. split; [exact Hstep|].
  player_cbn. repeat split; eauto.
  intros n s'' ev Hrun.
  eapply (thread_run_keeps_paused av_rescale_q media n); [|exact Hrun].
  reflexivity.
Qed.

(** The sample clip played to its end. *)
Lemma C9_end_of_stream_witness :
  exists s',
    Playback.thread_step rescale_near Playback.sample_media
      (Playback.mkPlayer 0.267 30 (Playback.Running [] []) false true false
         0 233 false 0 (Some 7%nat))
    = Some (s', []) /\
    Playback.g_isPlaying s' = false /\
    Playback.g_playThreadShouldExit s' = false.
Proof.
  destruct (C9_end_of_stream_pauses rescale_near Playback.sample_media
              (Playback.mkPlayer 0.267 30 (Playback.Running [] []) false true false
                 0 233 false 0 (Some 7%nat)) [] [])
    as (s' & Hstep & Hpl & Hx & _); try reflexivity.
  exists s'. split; [exact Hstep|]. split; assumption.
Defined.
(** ** Stream selection *)

(** An index that is set is kept by the rest of the scan. *)
Lemma find_streams_keeps_video (sts : list AVStream) :
  forall i v a, 0 <= v -> fst (find_streams sts i v a) = v.
Proof.
  induction sts as [|st rest IH]; intros i v a Hv; cbn [find_streams]; [reflexivity|].
  destruct (Z.ltb_spec v 0); [lia|]. rewrite andb_false_r.
  destruct (is_audio st && (a <? 0)); apply IH; exact Hv.
Qed.

Lemma find_streams_keeps_audio (sts : list AVStream) :
  forall i v a, 0 <= i -> 0 <= a -> snd (find_streams sts i v a) = a.
Proof.
  induction sts as [|st rest IH]; intros i v a Hi Ha; cbn [find_streams]; [reflexivity|].
  destruct (Z.ltb_spec a 0); [lia|]. rewrite andb_false_r.
  destruct (is_video st && (v <? 0)); apply IH; lia.
Qed.

(** An index that is unset becomes the position of the first stream of
    its kind, counted from [i]. *)
Lemma find_streams_first_video (sts : list AVStream) (d : AVStream) :
  forall i v a, 0 <= i -> v < 0 ->
    (fst (find_streams sts i v a) = v /\
     Forall (fun st => is_video st = false) sts) \/
    exists k : nat,
      (k < List.length sts)%nat /\
      fst (find_streams sts i v a) = i + Z.of_nat k /\
      is_video (nth k sts d) = true /\
      forall j : nat, (j < k)%nat -> is_video (nth j sts d) = false.
Proof.
  induction sts as [|st rest IH]; intros i v a Hi Hv; cbn [find_streams].
  - left. split; [reflexivity | constructor].
  - destruct (Z.ltb_spec v 0); [|lia]. rewrite andb_true_r.
    destruct (is_video st) eqn:Hst.
    + right. exists 0%nat. cbn [List.length nth].
      rewrite find_streams_keeps_video by exact Hi.
      repeat split; [lia | lia | exact Hst | intros j Hj; lia].
    + assert (Hrec : forall a',
        (fst (find_streams rest (i + 1) v a') = v /\
         Forall (fun st => is_video st = false) (st :: rest)) \/
        exists k : nat,
          (k < List.length (st :: rest))%nat /\
          fst (find_streams rest (i + 1) v a') = i + Z.of_nat k /\
          is_video (nth k (st :: rest) d) = true /\
          forall j : nat, (j < k)%nat -> is_video (nth j (st :: rest) d) = false).
      { intros a'. destruct (IH (i + 1) v a') as [[Hr Hall] | (k & Hk & Hr & Hvid & Hbefore)];
          [lia | exact Hv | |].
        - left. split; [exact Hr | constructor; assumption].
        - right. exists (S k). cbn [List.length nth].
          repeat split; [lia | rewrite Hr; lia | exact Hvid |].
          intros [|j] Hj; [exact Hst | apply Hbefore; lia]. }
      cbn [andb]. destruct (is_audio st && (a <? 0)); apply Hrec.
Qed.

Lemma find_streams_first_audio (sts : list AVStream) (d : AVStream) :
  forall i v a, 0 <= i -> a < 0 ->
    (snd (find_streams sts i v a) = a /\
     Forall (fun st => is_audio st = false) sts) \/
    exists k : nat,
      (k < List.length sts)%nat /\
      snd (find_streams sts i v a) = i + Z.of_nat k /\
      is_audio (nth k sts d) = true /\
      forall j : nat, (j < k)%nat -> is_audio (nth j sts d) = false.
Proof.
  induction sts as [|st rest IH]; intros i v a Hi Ha; cbn [find_streams].
  - left. split; [reflexivity | constructor].
  - destruct (Z.ltb_spec a 0); [|lia]. rewrite andb_true_r.
    assert (Hrec : is_audio st = false -> forall v',
        (snd (find_streams rest (i + 1) v' a) = a /\
         Forall (fun st => is_audio st = false) (st :: rest)) \/
        exists k : nat,
          (k < List.length (st :: rest))%nat /\
          snd (find_streams rest (i + 1) v' a) = i + Z.of_nat k /\
          is_audio (nth k (st :: rest) d) = true /\
          forall j : nat, (j < k)%nat -> is_audio (nth j (st :: rest) d) = false).
    { intros Hst v'.
      destruct (IH (i + 1) v' a) as [[Hr Hall] | (k & Hk & Hr & Haud & Hbefore)];
        [lia | exact Ha | |].
      - left. split; [exact Hr | constructor; assumption].
      - right. exists (S k). cbn [List.length nth].
        repeat split; [lia | rewrite Hr; lia | exact Haud |].
        intros [|j] Hj; [exact Hst | apply Hbefore; lia]. }
    destruct (is_video st && (v <? 0)) eqn:Hvid.
    + apply Hrec. apply andb_prop in Hvid. destruct Hvid as [Hvid _].
      unfold is_video, is_audio in *. destruct (codec_type st); congruence.
    + destruct (is_audio st) eqn:Hst.
      * right. exists 0%nat. cbn [List.length nth].
        rewrite find_streams_keeps_audio by lia.
        repeat split; [lia | lia | exact Hst | intros j Hj; lia].
      * apply Hrec. reflexivity.
Qed.

(** X1: the scan of the streams made by [TranscodeWithSizeAndScale]
    yields, for video and for audio alike, the index of the first stream
    of that kind, and [-1] exactly when the file has no stream of that
    kind. *)
Theorem X1_first_stream_of_each_kind (sts : list AVStream) :
  let v := fst (find_streams sts 0 (-1) (-1)) in
  let a := snd (find_streams sts 0 (-1) (-1)) in
  ((v = -1 /\ Forall (fun st => is_video st = false) sts) \/
   (0 <= v < Z.of_nat (List.length sts) /\
    is_video (stream_at sts v) = true /\
    forall j, 0 <= j < v -> is_video (stream_at sts j) = false)) /\
  ((a = -1 /\ Forall (fun st => is_audio st = false) sts) \/
   (0 <= a < Z.of_nat (List.length sts) /\
    is_audio (stream_at sts a) = true /\
    forall j, 0 <= j < a -> is_audio (stream_at sts j) = false)).
Proof.
  intros v a. subst v a. unfold stream_at. split.
  - destruct (find_streams_first_video sts (mkStream AVMEDIA_TYPE_OTHER (mkRational 0 1))
                0 (-1) (-1)) as [[Hr Hall] | (k & Hk & Hr & Hvid & Hbefore)];
      [lia | lia | left; auto |].
    right. rewrite Hr. rewrite Z.add_0_l, Nat2Z.id.
    split; [lia|]. split; [exact Hvid|].
    intros j Hj. apply Hbefore. lia.
  - destruct (find_streams_first_audio sts (mkStream AVMEDIA_TYPE_OTHER (mkRational 0 1))
                0 (-1) (-1)) as [[Hr Hall] | (k & Hk & Hr & Haud & Hbefore)];
      [lia | lia | left; auto |].
    right. rewrite Hr. rewrite Z.add_0_l, Nat2Z.id.
    split; [lia|]. split; [exact Haud|].
    intros j Hj. apply Hbefore. lia.
Qed.

(** In the sample file the first stream is the video stream and the
    second the audio stream. *)
Lemma X1_first_stream_of_each_kind_witness :
  is_video (stream_at (streams (sample_env true true))
              (fst (find_streams (streams (sample_env true true)) 0 (-1) (-1)))) = true /\
  is_audio (stream_at (streams (sample_env true true))
              (snd (find_streams (streams (sample_env true true)) 0 (-1) (-1)))) = true.
Proof.
  pose proof (X1_first_stream_of_each_kind (streams (sample_env true true))) as H.
  cbv zeta in H. destruct H as [[[Hv _] | (_ & Hv & _)] [[Ha _] | (_ & Ha & _)]].
  - vm_compute in Hv. discriminate Hv.
  - vm_compute in Hv. discriminate Hv.
  - vm_compute in Ha. discriminate Ha.
  - split; [exact Hv | exact Ha].
Defined.

(** ** The run outside the decode loop *)

(** The file has a video stream exactly when the scan finds an index. *)
Lemma video_stream_index_unset (sts : list AVStream) :
  (fst (find_streams sts 0 (-1) (-1)) <? 0) = true <->
  Forall (fun st => is_video st = false) sts.
Proof.
  destruct (find_streams_first_video sts (mkStream AVMEDIA_TYPE_OTHER (mkRational 0 1))
              0 (-1) (-1)) as [[Hr Hall] | (k & Hk & Hr & Hvid & Hbefore)];
    [lia | lia | |].
  - rewrite Hr. split; [intros _; exact Hall | reflexivity].
  - rewrite Hr. split; [intros H; apply Z.ltb_lt in H; lia|].
    intros Hall. rewrite Forall_forall in Hall.
    rewrite (Hall (nth k sts (mkStream AVMEDIA_TYPE_OTHER (mkRational 0 1)))) in Hvid;
      [discriminate | apply nth_In; exact Hk].
Qed.

(** X2: a run ends with "No video stream found." exactly when its
    arguments pass the guards, the input opens, its stream information is
    found and none of its streams is a video stream; the run has then
    made the two calls that open and probe the input, and no other. *)
Theorem X2_no_video_stream av_rescale_q e size sf w h start_seconds end_seconds :
  let run :=
    TranscodeWithSizeAndScale av_rescale_q e size sf w h start_seconds end_seconds in
  (fst run = Abort NoVideoStream <->
   calls run <> [] /\ open_input_ok e = true /\ stream_info_ok e = true /\
   Forall (fun st => is_video st = false) (streams e)) /\
  (fst run = Abort NoVideoStream ->
   calls run = [avformat_open_input; avformat_find_stream_info]).
Proof.
  intros run. subst run.
  pose proof (video_stream_index_unset (streams e)) as Hv.
  run_start. repeat run_step.
  all: unfold holds, calls; cbn [fst snd].
  all: cbn [fst] in Hv.
  all: split; [split|]; intros H; try discriminate H; try reflexivity.
  all: try (destruct H as (H0 & H1 & H2 & H3)).
  all: try (exfalso; apply H0; reflexivity).
  all: try clear H0.
  all: try (apply Hv in H3).
  all: try match goal with
       | Ha : ?x = true, Hb : ?x = false |- _ => rewrite Ha in Hb; discriminate Hb
       | Ha : false = true |- _ => discriminate Ha
       end.
  all: repeat split; try assumption; try (intros Hn; discriminate Hn).
  all: apply Hv; assumption.
Qed.

(** A file with an audio stream only ends the run with this message,
    after the two calls that open and probe it. *)
Lemma X2_no_video_stream_witness :
  fst (TranscodeWithSizeAndScale rescale_near sample_audio_only 5 4 1920 1080 10 20)
  = Abort NoVideoStream /\
  calls (TranscodeWithSizeAndScale rescale_near sample_audio_only 5 4 1920 1080 10 20)
  = [avformat_open_input; avformat_find_stream_info].
Proof.
  pose proof (X2_no_video_stream rescale_near sample_audio_only 5 4 1920 1080 10 20) as H.
  cbv zeta in H. destruct H as [[_ Hiff] Hcalls].
  assert (Hr : fst (TranscodeWithSizeAndScale rescale_near sample_audio_only
                      5 4 1920 1080 10 20) = Abort NoVideoStream).
  { apply Hiff. split; [vm_compute; discriminate|].
    split; [reflexivity|]. split; [reflexivity|].
    repeat constructor. }
  split; [exact Hr | exact (Hcalls Hr)].
Defined.

(** X3: the encoder a run opens is configured with the frame size divided
    by the scale factor, truncating (the floor, for a size that is not
    negative and a positive factor), with NV12 as pixel format for the
    hardware encoder and YUV420P for the other, with the inverse of the
    frame rate of the decoder as time base, and with a buffer size that is
    the bitrate converted to [int]: the bitrate itself when it is below
    [2^31].  No encoder is opened with a scale factor of zero: the run
    that gets as far as dividing by it is undefined. *)
Theorem X3_encoder_configuration av_rescale_q e size sf w h start_seconds end_seconds :
  let run :=
    TranscodeWithSizeAndScale av_rescale_q e size sf w h start_seconds end_seconds in
  (forall codec cfg,
     In (avcodec_open2_encoder codec cfg) (calls run) ->
     sf <> 0 /\
     Cxx.div32 h sf = Some (height cfg) /\ Cxx.div32 w sf = Some (width cfg) /\
     (0 < sf -> 0 <= h -> 0 <= w -> height cfg = h / sf /\ width cfg = w / sf) /\
     pix_fmt cfg = match codec with
                   | h264_nvenc => AV_PIX_FMT_NV12
                   | h264_software => AV_PIX_FMT_YUV420P
                   end /\
     enc_time_base cfg = av_inv_q (framerate e) /\
     0 < bit_rate cfg /\
     rc_buffer_size cfg = Cxx.wrap_int (bit_rate cfg) /\
     (bit_rate cfg < 2 ^ 31 -> rc_buffer_size cfg = bit_rate cfg)) /\
  (sf = 0 -> In avcodec_alloc_context3_encoder (calls run) ->
   encoder_alloc_ok e = true -> fst run = UB).
Proof.
  intros run. subst run. split.
  - intros codec cfg. run_start. repeat run_step.
    all: unfold holds, calls; cbn [snd]; intros H; split_run_calls.
    all: match goal with
         | H : avcodec_open2_encoder _ _ = avcodec_open2_encoder _ _ |- _ =>
             injection H as <- <-
         end.
    all: cbn [height width pix_fmt enc_time_base bit_rate rc_buffer_size].
    all: repeat match goal with
         | H : Cxx.div32 _ _ = Some _ |- _ =>
             unfold Cxx.div32 in H;
             destruct (Z.eqb_spec sf 0); [discriminate H|];
             match type of H with
             | (if ?c then _ else _) = _ => destruct c; [discriminate H|]
             end;
             injection H as <-
         end.
    all: unfold Cxx.div32.
    all: destruct (Z.eqb_spec sf 0) as [|_]; [contradiction|].
    all: repeat match goal with
         | |- context [if ?c then None else _] => destruct c eqn:?; [discriminate|]
         end.
    all: repeat match goal with
         | H : (_ <=? 0) = false |- _ => apply Z.leb_gt in H
         end.
    all: (split; [assumption|]).
    all: repeat (split; [reflexivity|]).
    all: (split; [intros; split; apply Z.quot_div_nonneg; lia|]).
    all: repeat (split; [reflexivity || assumption|]).
    all: intros Hb; unfold Cxx.wrap_int;
         rewrite Z.mod_small by lia; lia.
  - intros ->. run_start. repeat run_step.
    all: unfold holds, calls; cbn [fst snd]; intros H Hok; split_run_calls.
    all: try reflexivity; try congruence.
    all: try match goal with
         | H : Cxx.div32 _ 0 = Some _ |- _ => discriminate H
         end.
Qed.
(** The sample file at a quarter of 1920x1080: the software encoder is
    opened for 480x270 frames in YUV420P. *)
Lemma X3_encoder_configuration_witness :
  exists codec cfg,
    In (avcodec_open2_encoder codec cfg)
       (calls (TranscodeWithSizeAndScale rescale_near (sample_env false true)
                 5 4 1920 1080 10 20)) /\
    codec = h264_software /\ height cfg = 270 /\ width cfg = 480.
Proof.
  assert (Hin :
    In (avcodec_open2_encoder h264_software
          (mkConfig (1080 / 4) (1920 / 4) AV_PIX_FMT_YUV420P (mkRational 1 30)
             3984588 3984588 3984588))
       (calls (TranscodeWithSizeAndScale rescale_near (sample_env false true)
                 5 4 1920 1080 10 20))).
  { vm_compute. auto 20. }
  eexists. eexists. split; [exact Hin|]. split; [reflexivity|].
  pose proof (X3_encoder_configuration rescale_near (sample_env false true)
                5 4 1920 1080 10 20) as Hx.
  cbv zeta in Hx. destruct Hx as [Hx _].
  destruct (Hx _ _ Hin) as (_ & _ & _ & Hdim & _).
  destruct Hdim as [Hh Hw]; [reflexivity | discriminate | discriminate |].
  split; [exact Hh | exact Hw].
Defined.

(** X4: a run returns true exactly when it writes the trailer.  Its calls
    are then the setup, the calls of the decode loop, the flush of the
    encoder and the trailer, in this order.  Once the buffer of the scaled
    frame is allocated nothing makes the run fail: a run that has received
    or sent a frame, or written an audio packet, returns true. *)
Theorem X4_success_and_trailer av_rescale_q e size sf w h start_seconds end_seconds :
  let run :=
    TranscodeWithSizeAndScale av_rescale_q e size sf w h start_seconds end_seconds in
  (returns run = Some true <-> In av_write_trailer (calls run)) /\
  (returns run = Some true ->
   exists pre loop,
     calls run = pre ++ loop ++ [avcodec_send_frame_null; av_write_trailer] /\
     Forall (fun c => is_loop_call c = false) pre /\
     Forall (fun c => is_loop_call c = true) loop) /\
  (forall c, is_loop_call c = true -> In c (calls run) -> returns run = Some true) /\
  (In av_frame_get_buffer (calls run) -> frame_buffer_ok e = true ->
   returns run = Some true).
Proof.
  intros run. subst run. run_start. repeat run_step.
  all: unfold holds, returns, calls; cbn [fst snd].
  all: split; [split; intros H | split; [intros H | split; [intros c Hc H | intros H Hok]]].
  all: try reflexivity; try discriminate H.
  all: try (discriminate Hok).
  all: try solve [split_run_calls].
  all: try solve [repeat (destruct H as [<- | H]; [discriminate Hc|]); destruct H].
  all: try solve [repeat apply in_cons; apply in_or_app; right; right; left; reflexivity].
  all: lazymatch goal with
       | |- exists _ _, ?l = _ /\ _ => let p := prefix_of l in exists p
       end.
  all: match goal with
       | |- context [read_packets ?f ?e ?s ?n ?vtb ?etb ?vsp ?asp ?vi ?ai ?atb ?p ?q] =>
           exists (read_packets f e s n vtb etb vsp asp vi ai atb p q)
       end.
  all: split; [reflexivity|]; split;
       [repeat constructor | apply read_packets_loop_calls].
Qed.

(** The sample file is transcoded: the run returns true, and its last
    call writes the trailer. *)
Lemma X4_success_and_trailer_witness :
  returns (TranscodeWithSizeAndScale rescale_near (sample_env false true)
             5 4 1920 1080 10 20) = Some true /\
  In av_write_trailer
    (calls (TranscodeWithSizeAndScale rescale_near (sample_env false true)
              5 4 1920 1080 10 20)).
Proof.
  pose proof (X4_success_and_trailer rescale_near (sample_env false true)
                5 4 1920 1080 10 20) as H.
  cbv zeta in H. destruct H as (_ & _ & Hloop & _).
  assert (Hr : returns (TranscodeWithSizeAndScale rescale_near (sample_env false true)
                          5 4 1920 1080 10 20) = Some true).
  { apply (Hloop (avcodec_receive_frame (sample_frame 9000))); [reflexivity|].
    vm_compute. auto 30. }
  split; [exact Hr|].
  apply (X4_success_and_trailer rescale_near (sample_env false true)
           5 4 1920 1080 10 20). exact Hr.
Defined.

(** ** The decode loop of the transcode *)

Section LoopFacts.

Variable av_rescale_q : Z -> AVRational -> AVRational -> Z.
Variable e : Env.
Variables start_seconds end_seconds : float.
Variables video_tb enc_tb : AVRational.
Variables video_start_pts audio_start_pts : Z.
Variables videoStreamIndex audioStreamIndex : Z.

Local Abbreviation read_packets' :=
  (read_packets av_rescale_q e start_seconds end_seconds video_tb enc_tb
     video_start_pts audio_start_pts videoStreamIndex audioStreamIndex).

(** The frames a packet yields are received and sent; no audio packet is
    written meanwhile. *)
Lemma receive_frames_no_audio (queue : list AVFrame) (p d : Z) :
  ~ In (av_interleaved_write_frame_audio p d)
      (fst (receive_frames av_rescale_q e start_seconds end_seconds video_tb enc_tb
              video_start_pts queue)).
Proof.
  induction queue as [|frame q IH]; cbn [receive_frames fst]; [intros []|].
  destruct (end_seconds <? in_time_of video_tb frame)%float.
  { cbn [fst In]. intros [H | []]. discriminate H. }
  destruct (in_time_of video_tb frame <? start_seconds)%float.
  { destruct (receive_frames av_rescale_q e start_seconds end_seconds video_tb enc_tb
                video_start_pts q) as [t x].
    cbn [fst In] in *. intros [H | H]; [discriminate H | exact (IH H)]. }
  destruct (send_frame_ok e frame).
  - destruct (receive_frames av_rescale_q e start_seconds end_seconds video_tb enc_tb
                video_start_pts q) as [t x].
    cbn [fst In] in *. intros [H | [H | H]]; [discriminate H | discriminate H | exact (IH H)].
  - cbn [fst In]. intros [H | [H | []]]; discriminate H.
Qed.

(** An audio packet that is written lies within the range; its
    timestamps are moved to the start of the range, clamped at zero, and
    rescaled to the time base of the output, a missing one taken from the
    other; a packet with no timestamp at all is written without any. *)
Lemma audio_packet_written (in_tb : AVRational) (pkt : AVPacket) (p d : Z) :
  In (av_interleaved_write_frame_audio p d)
     (audio_packet av_rescale_q e start_seconds end_seconds audio_start_pts in_tb pkt) ->
  (aud_time_of in_tb pkt <? start_seconds)%float = false /\
  (end_seconds <? aud_time_of in_tb pkt)%float = false /\
  (pkt_pts pkt = AV_NOPTS_VALUE -> pkt_dts pkt = AV_NOPTS_VALUE ->
   p = AV_NOPTS_VALUE /\ d = AV_NOPTS_VALUE) /\
  (pkt_pts pkt <> AV_NOPTS_VALUE \/ pkt_dts pkt <> AV_NOPTS_VALUE ->
   p = av_rescale_q (Z.max 0 (aud_in_pts_of pkt - audio_start_pts))
         in_tb (audio_out_time_base e) /\
   d = av_rescale_q
         (Z.max 0 ((if pkt_dts pkt =? AV_NOPTS_VALUE then pkt_pts pkt else pkt_dts pkt)
                   - audio_start_pts))
         in_tb (audio_out_time_base e)).
Proof.
  unfold audio_packet, aud_time_of, aud_in_pts_of.
  destruct (Z.eqb_spec (pkt_pts pkt) AV_NOPTS_VALUE) as [Hp | Hp];
    destruct (Z.eqb_spec (pkt_dts pkt) AV_NOPTS_VALUE) as [Hd | Hd];
    cbn [andb negb].
  all: repeat match goal with
       | |- context [Z.eqb ?a ?b] =>
           destruct (Z.eqb_spec a b); try congruence
       end; cbn [andb negb].
  all: match goal with
       | |- context [((?x <? start_seconds)%float || (end_seconds <? ?x)%float)%bool] =>
           destruct (x <? start_seconds)%float; [intros []|];
           destruct (end_seconds <? x)%float; [intros []|]
       end; cbn [orb In].
  all: intros [H | []]; injection H as <- <-.
  all: split; [reflexivity|]; split; [reflexivity|].
  all: split; [intros Ha Hb; first [contradiction | split; assumption]|].
  all: intros Hor; try (destruct Hor; contradiction).
  all: repeat match goal with
       | |- context [Z.eqb ?a ?b] =>
           destruct (Z.eqb_spec a b); try congruence
       end.
  all: repeat match goal with
       | |- context [Z.ltb ?a ?b] => destruct (Z.ltb_spec a b)
       end.
  all: split; f_equal; lia.
Qed.

(** An audio packet is written only for a packet of the audio stream,
    and only when the audio output was set up. *)
Lemma read_packets_audio (atb : option AVRational) (p d : Z) (pkts : list AVPacket) :
  forall queue,
    In (av_interleaved_write_frame_audio p d) (read_packets' atb pkts queue) ->
    exists in_tb pkt,
      atb = Some in_tb /\ In pkt pkts /\
      stream_index pkt = audioStreamIndex /\ stream_index pkt <> videoStreamIndex /\
      In (av_interleaved_write_frame_audio p d)
         (audio_packet av_rescale_q e start_seconds end_seconds audio_start_pts
            in_tb pkt).
Proof.
  induction pkts as [|pkt rest IH]; intros queue H; cbn [read_packets] in H; [destruct H|].
  assert (Hrest : forall q,
    In (av_interleaved_write_frame_audio p d) (read_packets' atb rest q) ->
    exists in_tb pkt0,
      atb = Some in_tb /\ In pkt0 (pkt :: rest) /\
      stream_index pkt0 = audioStreamIndex /\ stream_index pkt0 <> videoStreamIndex /\
      In (av_interleaved_write_frame_audio p d)
         (audio_packet av_rescale_q e start_seconds end_seconds audio_start_pts
            in_tb pkt0)).
  { intros q Hq. destruct (IH q Hq) as (in_tb & pkt0 & H1 & H2 & H3).
    exists in_tb, pkt0. split; [exact H1|]. split; [right; exact H2 | exact H3]. }
  destruct (Z.eqb_spec (stream_index pkt) videoStreamIndex) as [Hv | Hv].
  - destruct (send_ok pkt); [|destruct H].
    pose proof (receive_frames_no_audio (queue ++ decoded pkt) p d) as Hno.
    destruct (receive_frames av_rescale_q e start_seconds end_seconds video_tb enc_tb
                video_start_pts (queue ++ decoded pkt)) as [t x].
    cbn [fst] in Hno.
    destruct x; try (apply in_app_iff in H; destruct H as [H | H]);
      try contradiction; eauto.
  - destruct atb as [in_tb|]; [|eauto].
    destruct (Z.eqb_spec (stream_index pkt) audioStreamIndex) as [Ha | Ha]; [|eauto].
    apply in_app_iff in H. destruct H as [H | H]; [|eauto].
    exists in_tb, pkt. repeat split; auto. left; reflexivity.
Qed.

End LoopFacts.

(** The audio index, when set, names an audio stream. *)
Lemma audio_stream_index_set (sts : list AVStream) :
  0 <= snd (find_streams sts 0 (-1) (-1)) ->
  is_audio (stream_at sts (snd (find_streams sts 0 (-1) (-1)))) = true.
Proof.
  intros H. unfold stream_at.
  destruct (find_streams_first_audio sts (mkStream AVMEDIA_TYPE_OTHER (mkRational 0 1))
              0 (-1) (-1)) as [[Hr Hall] | (k & Hk & Hr & Haud & Hbefore)];
    [lia | lia | lia |].
  rewrite Hr, Z.add_0_l, Nat2Z.id. exact Haud.
Qed.

(** X5: audio is passed through only when the input has an audio stream
    and the audio output stream was created and given its parameters.
    Each audio packet written comes from a packet of the first audio
    stream whose time lies within the range, bounds included, and its
    presentation timestamp is the one of the packet (the decoding
    timestamp when that is missing) moved to the start of the range,
    clamped at zero and rescaled to the time base of the output. *)
Theorem X5_audio_passthrough av_rescale_q e size sf w h start_seconds end_seconds :
  let run :=
    TranscodeWithSizeAndScale av_rescale_q e size sf w h start_seconds end_seconds in
  let in_tb := time_base (audio_in_stream e) in
  forall p d,
    In (av_interleaved_write_frame_audio p d) (calls run) ->
    audio_stream_ok e = true /\ audio_params_ok e = true /\
    0 <= audio_stream_index e /\ is_audio (audio_in_stream e) = true /\
    exists pkt start_av,
      In pkt (packets e) /\
      stream_index pkt = audio_stream_index e /\
      stream_index pkt <> video_stream_index e /\
      (aud_time_of in_tb pkt <? start_seconds)%float = false /\
      (end_seconds <? aud_time_of in_tb pkt)%float = false /\
      Cxx.llround (start_seconds * Cxx.of_int AV_TIME_BASE)%float = Some start_av /\
      (pkt_pts pkt <> AV_NOPTS_VALUE \/ pkt_dts pkt <> AV_NOPTS_VALUE ->
       p = av_rescale_q
             (Z.max 0 (aud_in_pts_of pkt - av_rescale_q start_av AV_TIME_BASE_Q in_tb))
             in_tb (audio_out_time_base e)).
Proof.
  intros run in_tb p d. subst run in_tb.
  pose proof (audio_stream_index_set (streams e)) as Haud.
  unfold audio_in_stream, audio_stream_index, video_stream_index.
  run_start. repeat run_step.
  all: unfold holds, calls; cbn [fst snd] in *; intros H.
  all: repeat (destruct H as [H | H]; [discriminate H|]).
  all: try solve [destruct H].
  all: apply in_app_iff in H; destruct H as [H | H];
       [|repeat (destruct H as [H | H]; [discriminate H|]); destruct H].
  all: apply read_packets_audio in H;
       destruct H as (in_tb & pkt & Htb & Hin & Ha & Hv & H).
  all: try discriminate Htb.
  all: cbn [option_map] in Htb; injection Htb as <-.
  all: apply audio_packet_written in H; destruct H as (H1 & H2 & _ & H3).
  all: repeat match goal with
       | Hz : (0 <=? _) = true |- _ => apply Z.leb_le in Hz
       end.
  all: repeat (split; [reflexivity || assumption || (apply Haud; assumption)|]).
  all: exists pkt; eexists.
  all: repeat (split; [reflexivity || assumption|]).
  all: intros Hor; apply H3 in Hor; destruct Hor as [Hp _]; exact Hp.
Qed.

(** The audio packet of the sample file lies at 10 s, the start of the
    range: it is written with the timestamp 0. *)
Lemma X5_audio_passthrough_witness :
  audio_stream_ok (sample_env false true) = true /\
  exists pkt,
    In pkt (packets (sample_env false true)) /\
    stream_index pkt = audio_stream_index (sample_env false true) /\
    0 = rescale_near
          (Z.max 0 (aud_in_pts_of pkt
                    - rescale_near 10000000 AV_TIME_BASE_Q
                        (time_base (audio_in_stream (sample_env false true)))))
          (time_base (audio_in_stream (sample_env false true)))
          (audio_out_time_base (sample_env false true)).
Proof.
  pose proof (X5_audio_passthrough rescale_near (sample_env false true)
                5 4 1920 1080 10 20) as H.
  cbv zeta in H.
  destruct (H 0 0) as (Hok & _ & _ & _ & pkt & start_av & Hin & Hidx & _ & _ & _ & Hs & Hp).
  { vm_compute. auto 40. }
  split; [exact Hok|]. exists pkt. split; [exact Hin|]. split; [exact Hidx|].
  assert (Hs' : start_av = 10000000).
  { vm_compute in Hs. injection Hs as <-. reflexivity. }
  subst start_av. apply Hp.
  destruct Hin as [<- | [<- | [<- | Hin]]]; try (left; vm_compute; discriminate).
  vm_compute in Hidx.
  repeat (destruct Hin as [<- | Hin]; [discriminate Hidx|]). destruct Hin.
Defined.

(** ** What the result of a run depends on *)

(** A video packet that the decoder refuses ends the loop: the packets
    behind it leave no call. *)
Lemma read_packets_refused av_rescale_q e s_ e_ vtb etb vsp asp vi ai atb
    (p : AVPacket) (rest : list AVPacket) :
  stream_index p = vi -> send_ok p = false ->
  forall pre queue,
    read_packets av_rescale_q e s_ e_ vtb etb vsp asp vi ai atb (pre ++ p :: rest) queue
    = read_packets av_rescale_q e s_ e_ vtb etb vsp asp vi ai atb pre queue.
Proof.
  intros Hv Hs. induction pre as [|pkt pre IH]; intros queue; cbn [app read_packets].
  - rewrite Hv, Z.eqb_refl, Hs. reflexivity.
  - destruct (stream_index pkt =? vi).
    + destruct (send_ok pkt); [|reflexivity].
      destruct (receive_frames av_rescale_q e s_ e_ vtb etb vsp (queue ++ decoded pkt))
        as [t x].
      destruct x; rewrite ?IH; reflexivity.
    + destruct atb as [in_tb|]; [|apply IH].
      destruct (stream_index pkt =? ai); rewrite IH; reflexivity.
Qed.

(** The decode loop depends on the environment only through the answers
    of the encoder and the time base of the audio output. *)
Lemma read_packets_env av_rescale_q (e e' : Env) s_ e_ vtb etb vsp asp vi ai atb pkts :
  (forall frame, send_frame_ok e frame = send_frame_ok e' frame) ->
  audio_out_time_base e = audio_out_time_base e' ->
  forall queue,
    read_packets av_rescale_q e s_ e_ vtb etb vsp asp vi ai atb pkts queue
    = read_packets av_rescale_q e' s_ e_ vtb etb vsp asp vi ai atb pkts queue.
Proof.
  intros Hok Htb.
  assert (Hrec : forall queue,
    receive_frames av_rescale_q e s_ e_ vtb etb vsp queue
    = receive_frames av_rescale_q e' s_ e_ vtb etb vsp queue).
  { induction queue as [|frame q IH]; cbn [receive_frames]; [reflexivity|].
    rewrite IH, Hok. reflexivity. }
  induction pkts as [|pkt rest IH]; intros queue; cbn [read_packets]; [reflexivity|].
  rewrite Hrec. unfold audio_packet. rewrite Htb.
  destruct (stream_index pkt =? vi).
  - destruct (send_ok pkt); [|reflexivity].
    destruct (receive_frames av_rescale_q e' s_ e_ vtb etb vsp (queue ++ decoded pkt))
      as [t x].
    destruct x; rewrite ?IH; reflexivity.
  - destruct atb as [in_tb|]; [|apply IH].
    destruct (stream_index pkt =? ai); rewrite IH; reflexivity.
Qed.

(** The calls of the decode loop are all of its own kinds. *)
Lemma filter_read_packets av_rescale_q e s_ e_ vtb etb vsp asp vi ai atb pkts queue :
  filter (fun c => negb (is_loop_call c))
    (read_packets av_rescale_q e s_ e_ vtb etb vsp asp vi ai atb pkts queue) = [].
Proof.
  pose proof (read_packets_loop_calls av_rescale_q e s_ e_ vtb etb vsp asp vi ai atb
                pkts queue) as H.
  induction H as [|c l Hc _ IH]; cbn [filter]; [reflexivity|].
  rewrite Hc. exact IH.
Qed.

(** Case analysis on the next answer of the environment that two runs
    set side by side depend on. *)
Ltac both_step :=
  match goal with
  | |- context [match ?x with _ => _ end] =>
      lazymatch x with
      | match _ with _ => _ end => fail
      | _ => destruct x eqn:?
      end
  end; cbv beta iota zeta; cbn [app fst snd].

Ltac both_start :=
  unfold with_loop, TranscodeWithSizeAndScale;
  cbv beta iota zeta delta
    [Transcode.bind Transcode.try_call Transcode.abort_if Transcode.defined
     Transcode.tell Transcode.ret Transcode.select_encoder Transcode.open_audio
     open_input_ok stream_info_ok streams decoder_found decoder_alloc_ok
     decoder_params_ok decoder_open_ok framerate output_ctx_ok output_nofile
     nvenc_by_name h264_by_id video_stream_ok encoder_alloc_ok encoder_open_ok
     encoder_params_ok audio_stream_ok audio_params_ok audio_out_time_base
     avio_open_ok write_header_ok alloc_ok sws_ok frame_buffer_ok packets
     send_frame_ok];
  cbn [app fst snd].

(** X6: whether a run succeeds, how it fails, and the calls it makes
    outside the decode loop do not depend on the packets that are read
    nor on the answers of the encoder to the frames it is sent: no error
    met inside the decode loop makes the run fail. *)
Theorem X6_result_independent_of_loop
    av_rescale_q e size sf w h start_seconds end_seconds
    (pkts : list AVPacket) (ok : AVFrame -> bool) :
  let run :=
    TranscodeWithSizeAndScale av_rescale_q e size sf w h start_seconds end_seconds in
  let run' :=
    TranscodeWithSizeAndScale av_rescale_q (with_loop pkts ok e) size sf w h
      start_seconds end_seconds in
  fst run' = fst run /\
  filter (fun c => negb (is_loop_call c)) (calls run')
  = filter (fun c => negb (is_loop_call c)) (calls run).
Proof.
  intros run run'. subst run run'. unfold calls.
  destruct e. both_start. repeat both_step.
  all: split; [reflexivity|].
  all: cbn [filter is_loop_call negb]; try reflexivity.
  all: rewrite !filter_app, !filter_read_packets; reflexivity.
Qed.

(** X7: a video packet that the decoder refuses ends the decode loop
    without a message: the run is the run on the packets in front of it,
    whatever follows it in the file. *)
Theorem X7_refused_packet_truncates
    av_rescale_q e size sf w h start_seconds end_seconds
    (pre : list AVPacket) (p : AVPacket) (rest : list AVPacket) :
  packets e = pre ++ p :: rest ->
  stream_index p = video_stream_index e -> send_ok p = false ->
  TranscodeWithSizeAndScale av_rescale_q e size sf w h start_seconds end_seconds
  = TranscodeWithSizeAndScale av_rescale_q (with_loop pre (send_frame_ok e) e)
      size sf w h start_seconds end_seconds.
Proof.
  destruct e. unfold video_stream_index. cbn [packets streams send_frame_ok].
  intros -> Hv Hs. both_start. repeat both_step.
  all: try reflexivity.
  all: cbn [fst] in Hv.
  all: rewrite (read_packets_refused _ _ _ _ _ _ _ _ _ _ _ p rest Hv Hs).
  all: repeat f_equal; apply read_packets_env; reflexivity.
Qed.

(** The sample file with its fourth packet refused: the run returns
    true, as the run on the first three packets does. *)
Lemma X7_refused_packet_truncates_witness :
  let e :=
    with_loop
      (firstn 3 (packets (sample_env false true))
       ++ mkPacket 0 10000 10000 false []
       :: skipn 4 (packets (sample_env false true)))
      (fun _ => true) (sample_env false true) in
  TranscodeWithSizeAndScale rescale_near e 5 4 1920 1080 10 20
  = TranscodeWithSizeAndScale rescale_near
      (with_loop (firstn 3 (packets (sample_env false true))) (send_frame_ok e) e)
      5 4 1920 1080 10 20.
Proof.
  intros e.
  apply (X7_refused_packet_truncates rescale_near e 5 4 1920 1080 10 20
           (firstn 3 (packets (sample_env false true)))
           (mkPacket 0 10000 10000 false [])
           (skipn 4 (packets (sample_env false true))));
    reflexivity.
Defined.

(** ** The probe *)

(** The loop over the streams stops at the first video stream. *)
Lemma first_video_spec (sts : list Probe.Stream) (d : Probe.Stream) :
  forall i, 0 <= i ->
    (Probe.first_video sts i = -1 /\
     Forall (fun st => Probe.is_video st = false) sts) \/
    exists k : nat,
      (k < List.length sts)%nat /\
      Probe.first_video sts i = i + Z.of_nat k /\
      Probe.is_video (nth k sts d) = true /\
      forall j : nat, (j < k)%nat -> Probe.is_video (nth j sts d) = false.
Proof.
  induction sts as [|st rest IH]; intros i Hi; cbn [Probe.first_video].
  - left. split; [reflexivity | constructor].
  - destruct (Probe.is_video st) eqn:Hst.
    + right. exists 0%nat. cbn [List.length nth].
      repeat split; [lia | lia | exact Hst | intros j Hj; lia].
    + destruct (IH (i + 1)) as [[Hr Hall] | (k & Hk & Hr & Hvid & Hbefore)]; [lia | |].
      * left. split; [exact Hr | constructor; assumption].
      * right. exists (S k). cbn [List.length nth].
        repeat split; [lia | rewrite Hr; lia | exact Hvid |].
        intros [|j] Hj; [exact Hst | apply Hbefore; lia].
Qed.

(** X8: [GetVideoInfo] fails exactly when the input cannot be opened, its
    stream information cannot be found, or it has no video stream, and
    then leaves the variables it was given as they were.  When it
    succeeds it reports the size of the first video stream, the duration
    of the container in seconds, or zero when the container states none,
    and as frame rate the average rate of that stream, else its base
    rate, else 30: a rate with a zero term is never used. *)
Theorem X8_probe (f : Probe.File) (old : Probe.Info) :
  let r := Probe.GetVideoInfo f old in
  (fst r = false <->
   Probe.open_input_ok f = false \/ Probe.stream_info_ok f = false \/
   Forall (fun st => Probe.is_video st = false) (Probe.streams f)) /\
  (fst r = false -> snd r = old) /\
  (fst r = true ->
   exists (k : nat) (st : Probe.Stream),
     nth_error (Probe.streams f) k = Some st /\
     Probe.is_video st = true /\
     (forall j st', (j < k)%nat -> nth_error (Probe.streams f) j = Some st' ->
                    Probe.is_video st' = false) /\
     Probe.out_width (snd r) = Probe.width st /\
     Probe.out_height (snd r) = Probe.height st /\
     Probe.durationSeconds (snd r)
     = (if Probe.duration f =? AV_NOPTS_VALUE then 0%float
        else (Cxx.of_int (Probe.duration f) / Cxx.of_int AV_TIME_BASE)%float) /\
     Probe.g_videoFPS (snd r) = Probe.frame_rate_of st /\
     ((num (Probe.avg_frame_rate st) <> 0 /\ den (Probe.avg_frame_rate st) <> 0 /\
       Probe.g_videoFPS (snd r) = av_q2d (Probe.avg_frame_rate st)) \/
      ((num (Probe.avg_frame_rate st) = 0 \/ den (Probe.avg_frame_rate st) = 0) /\
       num (Probe.r_frame_rate st) <> 0 /\ den (Probe.r_frame_rate st) <> 0 /\
       Probe.g_videoFPS (snd r) = av_q2d (Probe.r_frame_rate st)) \/
      ((num (Probe.avg_frame_rate st) = 0 \/ den (Probe.avg_frame_rate st) = 0) /\
       (num (Probe.r_frame_rate st) = 0 \/ den (Probe.r_frame_rate st) = 0) /\
       Probe.g_videoFPS (snd r) = 30%float))).
Proof.
  intros r. subst r. unfold Probe.GetVideoInfo.
  set (d := Probe.mkStream AVMEDIA_TYPE_OTHER 0 0 (mkRational 0 1) (mkRational 0 1)).
  destruct (Probe.open_input_ok f); cbn [negb fst snd];
    [|split; [split; auto | split; [reflexivity | discriminate]]].
  destruct (Probe.stream_info_ok f); cbn [negb fst snd];
    [|split; [split; auto | split; [reflexivity | discriminate]]].
  destruct (first_video_spec (Probe.streams f) d 0)
    as [[Hr Hall] | (k & Hk & Hr & Hvid & Hbefore)]; [lia | |].
  - rewrite Hr. cbn [Z.ltb Z.compare fst snd].
    split; [split; auto | split; [reflexivity | discriminate]].
  - rewrite Hr, Z.add_0_l.
    destruct (Z.ltb_spec (Z.of_nat k) 0) as [Hneg | _]; [lia|]. cbn [fst snd].
    split; [|split; [discriminate|]].
    + split; [discriminate|]. intros [H | [H | H]]; try discriminate H.
      rewrite Forall_forall in H.
      rewrite (H (nth k (Probe.streams f) d)) in Hvid;
        [discriminate | apply nth_In; exact Hk].
    + intros _. unfold Probe.stream_at. rewrite Nat2Z.id. fold d.
      exists k, (nth k (Probe.streams f) d).
      split; [apply nth_error_nth'; exact Hk|].
      split; [exact Hvid|].
      split.
      { intros j st' Hj Hst'. rewrite <- (Hbefore j Hj).
        apply (nth_error_nth _ _ d) in Hst'. rewrite Hst'. reflexivity. }
      cbn [Probe.out_width Probe.out_height Probe.durationSeconds Probe.g_videoFPS].
      split; [reflexivity|]. split; [reflexivity|].
      split; [destruct (Probe.duration f =? AV_NOPTS_VALUE); reflexivity|].
      split; [reflexivity|].
      unfold Probe.frame_rate_of.
      destruct (Z.eqb_spec (num (Probe.avg_frame_rate (nth k (Probe.streams f) d))) 0);
        destruct (Z.eqb_spec (den (Probe.avg_frame_rate (nth k (Probe.streams f) d))) 0);
        destruct (Z.eqb_spec (num (Probe.r_frame_rate (nth k (Probe.streams f) d))) 0);
        destruct (Z.eqb_spec (den (Probe.r_frame_rate (nth k (Probe.streams f) d))) 0);
        cbn [negb andb]; auto 10.
Qed.

(** The sample file: its second stream is the video stream; it declares
    no average rate, so its base rate, 25, is the frame rate. *)
Lemma X8_probe_witness :
  exists (st : Probe.Stream),
    nth_error (Probe.streams Probe.sample_file) 1 = Some st /\
    Probe.out_width (snd (Probe.GetVideoInfo Probe.sample_file
                            (Probe.mkInfo 0 0 0 0))) = Probe.width st /\
    Probe.g_videoFPS (snd (Probe.GetVideoInfo Probe.sample_file
                             (Probe.mkInfo 0 0 0 0))) = 25%float.
Proof.
  pose proof (X8_probe Probe.sample_file (Probe.mkInfo 0 0 0 0)) as H.
  cbv zeta in H. destruct H as (_ & _ & H).
  destruct (H eq_refl) as (k & st & Hnth & Hvid & Hfirst & Hw & _ & _ & Hfps & _).
  destruct k as [|[|k]].
  - injection Hnth as <-. discriminate Hvid.
  - exists st. split; [exact Hnth|]. split; [exact Hw|].
    rewrite Hfps. injection Hnth as <-. reflexivity.
  - destruct k; discriminate Hnth.
Defined.

(** ** The frame interval *)

Lemma digits2_pos_lower (m : positive) : 2 ^ (Zpos (digits2_pos m) - 1) <= Zpos m.
Proof.
  induction m as [m IH | m IH | ]; simpl digits2_pos.
  - rewrite Pos2Z.inj_succ.
    replace (Z.succ (Zpos (digits2_pos m)) - 1) with (Z.succ (Zpos (digits2_pos m) - 1))
      by lia.
    rewrite Z.pow_succ_r by lia. lia.
  - rewrite Pos2Z.inj_succ.
    replace (Z.succ (Zpos (digits2_pos m)) - 1) with (Z.succ (Zpos (digits2_pos m) - 1))
      by lia.
    rewrite Z.pow_succ_r by lia. lia.
  - reflexivity.
Qed.

(** A double that is not below one converts to an integer that is at
    least one, when it converts at all. *)
Lemma to_int_at_least_one (x : float) (F : Z) :
  (x <? 1)%float = false -> Cxx.to_int x = Some F -> 1 <= F.
Proof.
  rewrite ltb_spec, Prim2SF_one. unfold Cxx.to_int.
  pose proof (Prim2SF_valid x) as Hv.
  destruct (Prim2SF x) as [s | s | | s m e]; try discriminate.
  cbv beta iota delta [SFltb SFcompare].
  destruct s; [discriminate|].
  unfold Cxx.trunc_sf.
  assert (Hgoal : (e = -52 -> 4503599627370496 <= Zpos m) ->
                  -52 <= e ->
                  forall z, (if 0 <=? e then Z.pos m * 2 ^ e else Z.pos m / 2 ^ (- e)) = z ->
                  1 <= z).
  { intros Hm He z <-.
    destruct (Z.leb_spec 0 e) as [H0 | H0].
    - assert (0 < 2 ^ e) by (apply Z.pow_pos_nonneg; lia).
      assert (0 < Z.pos m * 2 ^ e) by (apply Z.mul_pos_pos; lia). lia.
    - assert (Hd : 4503599627370496 <= Zpos m).
      { destruct (Z.eq_dec e (-52)) as [He52 | He52]; [exact (Hm He52)|].
        simpl in Hv. unfold bounded, canonical_mantissa, fexp in Hv.
        apply andb_true_iff in Hv. destruct Hv as [Hv _].
        apply Z.eqb_eq in Hv. unfold prec, emin, emax in Hv.
        assert (Hdig : Zpos (digits2_pos m) = 53) by lia.
        pose proof (digits2_pos_lower m) as Hl. rewrite Hdig in Hl.
        exact Hl. }
      apply Z.div_le_lower_bound; [apply Z.pow_pos_nonneg; lia|].
      rewrite Z.mul_1_r.
      apply Z.le_trans with (2 ^ 52); [apply Z.pow_le_mono_r; lia | exact Hd]. }
  destruct (Z.compare_spec e (-52)) as [He | He | He]; try discriminate.
  + subst e.
    destruct (PosDef.Pos.compare_cont Eq m 4503599627370496) eqn:Hc;
      try discriminate; intros _ H.
    * apply Pos.compare_eq in Hc. subst m.
      destruct (Cxx.in_int _); [|discriminate]. injection H as <-.
      apply Hgoal with (z := _); [intros _; apply Z.le_refl | apply Z.le_refl | reflexivity].
    * assert (Hlt : 4503599627370496 < Z.pos m).
      { apply Pos.compare_gt_iff in Hc. exact Hc. }
      clear Hc.
      destruct (Cxx.in_int _); [|discriminate]. injection H as <-.
      apply Hgoal with (z := _);
        [intros _; apply Z.lt_le_incl; exact Hlt | apply Z.le_refl | reflexivity].
  + intros _ H.
    destruct (Cxx.in_int _); [|discriminate]. injection H as <-.
    apply Hgoal with (z := _); [intros ->; inversion He | | reflexivity].
    apply Z.lt_le_incl. exact He.
Qed.



(** ** The preview frame *)

(** The read loop yields the first frame that the decoder delivers:
    the packets in front of the one that carries it are packets of other
    streams or video packets that the decoder took without delivering a
    frame. *)
Lemma first_frame_spec (vi : Z) (frame : AVFrame) (pkts : list AVPacket) :
  Probe.first_frame vi pkts = Some frame <->
  exists pre pkt tl rest,
    pkts = pre ++ pkt :: rest /\
    stream_index pkt = vi /\ send_ok pkt = true /\ decoded pkt = frame :: tl /\
    Forall (fun q => stream_index q <> vi \/ (send_ok q = true /\ decoded q = [])) pre.
Proof.
  induction pkts as [|p rest IH]; cbn [Probe.first_frame].
  - split; [discriminate|]. intros (pre & pkt & tl & rest & H & _).
    destruct pre; discriminate H.
  - destruct (Z.eqb_spec (stream_index p) vi) as [Hv | Hv].
    + destruct (send_ok p) eqn:Hs; cbn [negb].
      * destruct (decoded p) as [|f tl] eqn:Hd.
        -- rewrite IH. split.
           ++ intros (pre & pkt & tl & rest' & -> & H).
              exists (p :: pre), pkt, tl, rest'. split; [reflexivity|].
              destruct H as (H1 & H2 & H3 & H4).
              repeat split; try assumption. constructor; auto.
           ++ intros (pre & pkt & tl & rest' & Heq & H1 & H2 & H3 & H4).
              destruct pre as [|q pre]; cbn [app] in Heq; injection Heq as -> ->.
              ** congruence.
              ** exists pre, pkt, tl, rest'. inversion H4; subst. auto.
        -- split.
           ++ intros H. injection H as ->.
              exists [], p, tl, rest. repeat split; auto.
           ++ intros (pre & pkt & tl' & rest' & Heq & H1 & H2 & H3 & H4).
              destruct pre as [|q pre]; cbn [app] in Heq; injection Heq as -> ->.
              ** congruence.
              ** inversion H4 as [|? ? [Hq | [_ Hq]] _]; subst; congruence.
      * split; [discriminate|].
        intros (pre & pkt & tl' & rest' & Heq & H1 & H2 & H3 & H4).
        destruct pre as [|q pre]; cbn [app] in Heq; injection Heq as -> ->.
        -- congruence.
        -- inversion H4 as [|? ? [Hq | [Hq _]] _]; subst; congruence.
    + rewrite IH. split.
      * intros (pre & pkt & tl & rest' & -> & H).
        exists (p :: pre), pkt, tl, rest'. split; [reflexivity|].
        destruct H as (H1 & H2 & H3 & H4).
        repeat split; try assumption. constructor; auto.
      * intros (pre & pkt & tl & rest' & Heq & H1 & H2 & H3 & H4).
        destruct pre as [|q pre]; cbn [app] in Heq; injection Heq as -> ->.
        -- congruence.
        -- exists pre, pkt, tl, rest'. inversion H4; subst. auto.
Qed.



(** ** The start button *)

(** What the handler of the start button has checked when it starts the
    transcode. *)
Lemma start_request_facts (g_duration : float) (f : Window.Form) (r : Window.Request) :
  Window.start_request g_duration f = inr r ->
  (Window.size_value f <=? 0)%float = false /\
  Window.targetSizeMB r = Window.size_value f /\
  Window.scaleFactor r
  = (if Window.full_checked f then 1 else if Window.half_checked f then 2 else 4) /\
  (Window.full_checked f = true \/ Window.half_checked f = true \/
   Window.quarter_checked f = true) /\
  (Window.range_custom f = false ->
   Window.startSecs r = 0%float /\ Window.endSecs r = g_duration) /\
  (Window.range_custom f = true ->
   Window.startSecs r = Window.start_value f /\
   Window.endSecs r = Window.end_value f /\
   (Window.start_value f <? 0)%float = false /\
   (Window.end_value f <=? Window.start_value f)%float = false /\
   (g_duration <? Window.end_value f)%float = false).
Proof.
  unfold Window.start_request. intros H.
  destruct (Window.size_value f <=? 0)%float; [discriminate H|].
  split; [reflexivity|].
  destruct (Window.range_custom f); cbn [andb] in H.
  - destruct (Window.start_value f <? 0)%float; [discriminate H|].
    destruct (Window.end_value f <=? Window.start_value f)%float; [discriminate H|].
    destruct (g_duration <? Window.end_value f)%float; [discriminate H|].
    cbn [orb] in H.
    destruct (Window.full_checked f); [|destruct (Window.half_checked f);
      [|destruct (Window.quarter_checked f); [|discriminate H]]];
      injection H as <-; cbn; repeat split; auto; discriminate.
  - destruct (Window.full_checked f); [|destruct (Window.half_checked f);
      [|destruct (Window.quarter_checked f); [|discriminate H]]];
      injection H as <-; cbn; repeat split; auto; discriminate.
Qed.

(** X11: the handler of the start button hands to the transcode only a
    size that is not [<= 0], a scale factor of 1, 2 or 4 as the first
    checked scale option says, and either the whole file, from zero to
    the probed duration, or a custom range whose start is not negative,
    whose end is not at or before its start and not after the probed
    duration. *)
Theorem X11_start_request (g_duration : float) (f : Window.Form) (r : Window.Request) :
  Window.start_request g_duration f = inr r ->
  (Window.size_value f <=? 0)%float = false /\
  Window.targetSizeMB r = Window.size_value f /\
  Window.scaleFactor r
  = (if Window.full_checked f then 1 else if Window.half_checked f then 2 else 4) /\
  (Window.full_checked f = true \/ Window.half_checked f = true \/
   Window.quarter_checked f = true) /\
  (Window.range_custom f = false ->
   Window.startSecs r = 0%float /\ Window.endSecs r = g_duration) /\
  (Window.range_custom f = true ->
   Window.startSecs r = Window.start_value f /\
   Window.endSecs r = Window.end_value f /\
   (Window.start_value f <? 0)%float = false /\
   (Window.end_value f <=? Window.start_value f)%float = false /\
   (g_duration <? Window.end_value f)%float = false).
Proof. exact (start_request_facts g_duration f r). Qed.


(** A custom range from 10 s to 20 s of a file of 30 s at full size. *)
Lemma X11_start_request_witness :
  exists r,
    Window.start_request 30 (Window.sample_form 5 10 20 true) = inr r /\
    Window.scaleFactor r = 1 /\ Window.startSecs r = 10%float /\
    Window.endSecs r = 20%float.
Proof.
  eexists. split; [reflexivity|].
  destruct (X11_start_request 30 (Window.sample_form 5 10 20 true) _ eq_refl)
    as (_ & _ & Hsf & _ & _ & Hc).
  destruct (Hc eq_refl) as (Hs & He & _).
  split; [exact Hsf|]. split; [exact Hs | exact He].
Defined.

(** Numbers that are not NaN: the first not below zero, the second not
    above zero, and the second above the first; there are none. *)
Lemma no_range_within_zero (a b : float) :
  is_nan a = false -> is_nan b = false ->
  (a <? 0)%float = false -> (b <=? a)%float = false -> (0 <? b)%float = false ->
  False.
Proof.
  unfold is_nan.
  rewrite !ltb_spec, leb_spec, !eqb_spec, Prim2SF_zero.
  destruct (Prim2SF a) as [sa | sa | | sa ma ea];
    destruct (Prim2SF b) as [sb | sb | | sb mb eb];
    try destruct sa; try destruct sb;
    cbv beta iota delta [SFltb SFleb SFeqb SFcompare negb];
    intros; discriminate.
Qed.

(** X12: a run started from the window ends with "End time must be
    greater than start time." exactly when the whole file was asked for
    and its probed duration is not above zero; a custom range never
    meets that guard.  Such a run is undefined only through the bitrate
    computation or the conversion of the start offset: the scale factor
    of the window never makes the division of the frame size
    undefined. *)
Theorem X12_start_button_run av_rescale_q e (g_duration : float) (w h : Z)
    (f : Window.Form) (run : M unit) :
  Window.start_button av_rescale_q e g_duration w h f = inr run ->
  Cxx.INT_MIN < w -> Cxx.INT_MIN < h ->
  exists r,
    Window.start_request g_duration f = inr r /\
    run = TranscodeWithSizeAndScale av_rescale_q e (Window.targetSizeMB r)
            (Window.scaleFactor r) w h (Window.startSecs r) (Window.endSecs r) /\
    (fst run = Abort EndNotAfterStart <->
     Window.range_custom f = false /\ (g_duration <=? 0)%float = true) /\
    (fst run = UB ->
     target_bitrate_of (Window.targetSizeMB r)
       (Window.endSecs r - Window.startSecs r) = None \/
     Cxx.llround (Window.startSecs r * Cxx.of_int AV_TIME_BASE)%float = None).
Proof.
  unfold Window.start_button.
  destruct (Window.start_request g_duration f) as [wn | r] eqn:Hreq; [discriminate|].
  intros H Hw Hh. injection H as <-.
  exists r. split; [reflexivity|]. split; [reflexivity|].
  destruct (start_request_facts g_duration f r Hreq)
    as (Hsize & Hsz & Hsf & Hany & Hfull & Hcustom).
  assert (Hdiv : forall x, Cxx.INT_MIN < x -> exists q, Cxx.div32 x (Window.scaleFactor r) = Some q).
  { intros x Hx. unfold Cxx.div32. rewrite Hsf.
    destruct (Z.eqb_spec x Cxx.INT_MIN); [lia|].
    destruct (Window.full_checked f); [|destruct (Window.half_checked f)];
      cbn; eexists; reflexivity. }
  destruct (Hdiv w Hw) as [qw Hqw]. destruct (Hdiv h Hh) as [qh Hqh].
  split.
  - run_start. run_step.
    + unfold holds; cbn [fst]. split; [intros _|reflexivity].
      destruct (Window.range_custom f).
      * destruct (Hcustom eq_refl) as (Hs & He & _ & Hle & _).
        rewrite Hs, He, Hle in Heqb. discriminate Heqb.
      * destruct (Hfull eq_refl) as (Hs & He). rewrite Hs, He in Heqb. auto.
    + clear Hqw Hqh Hdiv. repeat run_step.
      all: unfold holds; cbn [fst]; split; [discriminate|].
      all: intros [Hc Hg]; destruct (Hfull Hc) as (Hs & He).
      all: rewrite Hs, He, Hg in Heqb; discriminate Heqb.
  - run_start. repeat run_step.
    all: unfold holds; cbn [fst]; intros H; try discriminate H.
    all: try (left; reflexivity); try (right; reflexivity).
    all: match goal with Hq : None = Some _ |- _ => discriminate Hq end.
Qed.

(** The custom range from 10 s to 20 s of the sample file, typed into
    the window: the run does not meet the first guard. *)
Lemma X12_start_button_run_witness :
  exists run,
    Window.start_button rescale_near (sample_env false true) 30 1920 1080
      (Window.sample_form 5 10 20 true) = inr run /\
    fst run <> Abort EndNotAfterStart.
Proof.
  eexists. split; [reflexivity|].
  destruct (X12_start_button_run rescale_near (sample_env false true) 30 1920 1080
              (Window.sample_form 5 10 20 true) _ eq_refl)
    as (r & _ & _ & Hguard & _); [reflexivity | reflexivity |].
  intros H. apply Hguard in H. destruct H as [H _]. discriminate H.
Defined.

(** X13: a file whose container states no duration is probed with the
    duration zero, and cannot be transcoded from the window: whatever
    numbers the form holds, the handler of the start button shows a
    warning, or starts a run that ends with "End time must be greater
    than start time." before any call is made. *)
Theorem X13_unknown_duration av_rescale_q e (file : Probe.File) (old : Probe.Info)
    (w h : Z) (f : Window.Form) :
  fst (Probe.GetVideoInfo file old) = true ->
  Probe.duration file = AV_NOPTS_VALUE ->
  is_nan (Window.start_value f) = false -> is_nan (Window.end_value f) = false ->
  let g_duration := Probe.durationSeconds (snd (Probe.GetVideoInfo file old)) in
  g_duration = 0%float /\
  ((exists wn, Window.start_button av_rescale_q e g_duration w h f = inl wn) \/
   Window.start_button av_rescale_q e g_duration w h f
   = inr (Abort EndNotAfterStart, [])).
Proof.
  intros Hok Hdur Hs He g_duration.
  assert (Hg : g_duration = 0%float).
  { subst g_duration. unfold Probe.GetVideoInfo in *.
    destruct (Probe.open_input_ok file); [|discriminate Hok].
    destruct (Probe.stream_info_ok file); [|discriminate Hok].
    cbn [negb] in *.
    destruct (Probe.first_video (Probe.streams file) 0 <? 0); [discriminate Hok|].
    cbn [snd Probe.durationSeconds]. rewrite Hdur. reflexivity. }
  split; [exact Hg|]. rewrite Hg. clear Hg g_duration.
  unfold Window.start_button.
  destruct (Window.start_request 0 f) as [wn | r] eqn:Hreq; [left; eauto|].
  right. f_equal.
  destruct (start_request_facts 0 f r Hreq) as (_ & _ & _ & _ & Hfull & Hcustom).
  destruct (Window.range_custom f).
  - exfalso. destruct (Hcustom eq_refl) as (_ & _ & H1 & H2 & H3).
    exact (no_range_within_zero _ _ Hs He H1 H2 H3).
  - destruct (Hfull eq_refl) as (Hst & Hen).
    unfold TranscodeWithSizeAndScale. rewrite Hst, Hen. reflexivity.
Qed.

(** The sample file with no duration stated: the whole file at full
    size is refused by the first guard of the transcode. *)
Lemma X13_unknown_duration_witness :
  Window.start_button rescale_near (sample_env false true) 0 1920 1080
    (Window.sample_form 5 0 0 false)
  = inr (Abort EndNotAfterStart, []).
Proof.
  pose proof (X13_unknown_duration rescale_near (sample_env false true)
                (Probe.mkFile true true (Probe.streams Probe.sample_file) AV_NOPTS_VALUE)
                (Probe.mkInfo 0 0 0 0) 1920 1080 (Window.sample_form 5 0 0 false)
                eq_refl eq_refl eq_refl eq_refl) as H.
  cbv zeta in H. destruct H as (_ & [(wn & H) | H]).
  - discriminate H.
  - exact H.
Defined.

(** ** The name of the output file *)

(** The numbering loop stops at the first candidate that is not found. *)
Lemma numbered_sound (access : Z -> bool) (fuel : nat) :
  forall i k, Window.numbered access fuel i = Some k ->
    i <= k /\ access k = false /\ forall j, i <= j < k -> access j = true.
Proof.
  induction fuel as [|fuel IH]; intros i k H; cbn [Window.numbered] in H; [discriminate H|].
  destruct (access i) eqn:Hi.
  - destruct (i <? Cxx.INT_MAX); [|discriminate H].
    destruct (IH (i + 1) k H) as (Hle & Hk & Hbelow).
    split; [lia|]. split; [exact Hk|].
    intros j Hj. destruct (Z.eq_dec j i) as [-> | Hne]; [exact Hi | apply Hbelow; lia].
  - injection H as <-. split; [lia|]. split; [exact Hi|]. intros j Hj. lia.
Qed.

Lemma numbered_complete (access : Z -> bool) (fuel : nat) :
  forall i k, i <= k -> k <= Cxx.INT_MAX -> access k = false ->
    (forall j, i <= j < k -> access j = true) ->
    (Z.to_nat (k - i) < fuel)%nat ->
    Window.numbered access fuel i = Some k.
Proof.
  induction fuel as [|fuel IH]; intros i k Hik Hmax Hk Hbelow Hfuel; [lia|].
  cbn [Window.numbered].
  destruct (Z.eq_dec i k) as [-> | Hne].
  - rewrite Hk. reflexivity.
  - rewrite (Hbelow i) by lia.
    destruct (Z.ltb_spec i Cxx.INT_MAX) as [_ | Hge]; [|lia].
    apply IH; try assumption; try lia.
    intros j Hj. apply Hbelow. lia.
Qed.

(** X14: the output file is never a file that exists: the name chosen is
    the base name when no such file exists, and otherwise the numbered
    name with the least number, counted from one, that no file has.
    With the least free number [k] the numbering loop ends within [k]
    passes. *)
Theorem X14_output_name_is_free (access : Z -> bool) (fuel : nat) :
  (forall k, Window.outPath access fuel = Some k ->
     0 <= k /\ access k = false /\ forall j, 0 <= j < k -> access j = true) /\
  (forall k, 0 <= k <= Cxx.INT_MAX -> access k = false ->
     (forall j, 0 <= j < k -> access j = true) ->
     (Z.to_nat k <= fuel)%nat ->
     Window.outPath access fuel = Some k).
Proof.
  unfold Window.outPath. split.
  - intros k H. destruct (access 0) eqn:H0.
    + apply numbered_sound in H. destruct H as (Hle & Hk & Hbelow).
      split; [lia|]. split; [exact Hk|].
      intros j Hj. destruct (Z.eq_dec j 0) as [-> | Hne]; [exact H0 | apply Hbelow; lia].
    + injection H as <-. split; [lia|]. split; [exact H0|]. intros j Hj. lia.
  - intros k Hk Hfree Hbelow Hfuel.
    destruct (Z.eq_dec k 0) as [-> | Hne].
    + rewrite Hfree. reflexivity.
    + rewrite (Hbelow 0) by lia.
      apply numbered_complete; try assumption; try lia.
      intros j Hj. apply Hbelow. lia.
Qed.

(** With the base name and the names numbered 1 and 2 taken, the output
    goes to the name numbered 3. *)
Lemma X14_output_name_is_free_witness :
  Window.outPath (fun i => i <? 3) 3 = Some 3.
Proof.
  apply (X14_output_name_is_free (fun i => i <? 3) 3).
  - split; [lia|]. vm_compute. discriminate.
  - reflexivity.
  - intros j Hj. apply Z.ltb_lt. lia.
  - vm_compute. lia.
Defined.

(** ** The commands and the thread handle *)

(** X15: there is never a second decode thread.  A command that needs
    the thread spawns one only when the handle is null, with the exit
    flag cleared, and otherwise leaves the thread as it is; a seek
    request never spawns one; only [StopPlayback] removes the thread.
    The step commands and [EnsureThreadRunningPaused] never start
    playback. *)
Theorem X15_one_thread (s : Playback.Player) :
  let kept (s' : Playback.Player) :=
    Playback.thread s'
    = (if Playback.g_hPlaybackThread s then Playback.thread s else Playback.Spawned) /\
    (Playback.g_hPlaybackThread s = false -> Playback.g_playThreadShouldExit s' = false) in
  kept (Playback.StartPlayback s) /\
  kept (Playback.EnsureThreadRunningPaused s) /\
  kept (Playback.TogglePlayPause s) /\
  (forall s', Playback.StepForward s = Some s' -> kept s' /\ Playback.g_isPlaying s' = false) /\
  (forall s', Playback.StepBackward s = Some s' -> kept s' /\ Playback.g_isPlaying s' = false) /\
  (forall ms single s',
     Playback.SeekMs ms single s = Some s' ->
     Playback.thread s' = Playback.thread s /\
     Playback.g_isPlaying s' = Playback.g_isPlaying s /\
     Playback.g_playThreadShouldExit s' = Playback.g_playThreadShouldExit s) /\
  Playback.g_isPlaying (Playback.EnsureThreadRunningPaused s)
  = (Playback.g_isPlaying s && Playback.g_hPlaybackThread s)%bool /\
  Playback.thread (Playback.StopPlayback s) = Playback.NoThread.
Proof.
  intros kept. subst kept.
  destruct s as [dur fps th ex pl rq tgt pos single dir bmp].
  unfold Playback.StartPlayback, Playback.TogglePlayPause, Playback.StopPlayback,
    Playback.StepForward, Playback.StepBackward, Playback.SeekMs,
    Playback.StartPlayback.
  player_cbn.
  repeat split; intros.
  all: repeat match goal with
       | H : match ?o with _ => _ end = Some _ |- _ =>
           destruct o eqn:?; [|discriminate H]
       | H : Some _ = Some _ |- _ => injection H as <-
       end.
  all: destruct th; player_cbn; try reflexivity; try discriminate.
  all: repeat match goal with
       | H : match ?o with _ => _ end = Some _ |- _ =>
           destruct o eqn:?; [|discriminate H]
       | H : Some _ = Some _ |- _ => injection H as <-
       end.
  all: try (destruct single0); try (destruct pl); player_cbn; try reflexivity.
Qed.

(** A toggle with no thread spawns one; a toggle with a thread in its
    loop leaves that thread as it is. *)
Lemma X15_one_thread_witness :
  Playback.thread
    (Playback.TogglePlayPause (Playback.sample_player Playback.NoThread 30 100 3))
  = Playback.Spawned /\
  Playback.thread
    (Playback.TogglePlayPause
       (Playback.sample_player (Playback.Running [] []) 30 100 3))
  = Playback.Running [] [].
Proof.
  split.
  - pose proof (X15_one_thread (Playback.sample_player Playback.NoThread 30 100 3)) as H.
    cbv zeta in H. destruct H as (_ & _ & (Hth & _) & _). exact Hth.
  - pose proof (X15_one_thread
                  (Playback.sample_player (Playback.Running [] []) 30 100 3)) as H.
    cbv zeta in H. destruct H as (_ & _ & (Hth & _) & _). exact Hth.
Defined.

(** X16: with a thread, [TogglePlayPause] flips the playing flag and
    nothing else, so that two of them leave the player as it was; with
    no thread it starts playback: it discards the published bitmap and
    spawns a thread that plays, and a second one then pauses it. *)
Theorem X16_toggle (s : Playback.Player) :
  (Playback.g_hPlaybackThread s = true ->
   Playback.TogglePlayPause s = Playback.set_isPlaying (negb (Playback.g_isPlaying s)) s /\
   Playback.TogglePlayPause (Playback.TogglePlayPause s) = s) /\
  (Playback.g_hPlaybackThread s = false ->
   Playback.TogglePlayPause s = Playback.StartPlayback s /\
   Playback.g_isPlaying (Playback.TogglePlayPause s) = true /\
   Playback.thread (Playback.TogglePlayPause s) = Playback.Spawned /\
   Playback.g_playThreadShouldExit (Playback.TogglePlayPause s) = false /\
   Playback.g_hFrameBitmap (Playback.TogglePlayPause s) = None /\
   Playback.g_currentPosMs (Playback.TogglePlayPause s) = Playback.g_currentPosMs s /\
   Playback.g_isPlaying (Playback.TogglePlayPause (Playback.TogglePlayPause s)) = false).
Proof.
  destruct s as [dur fps th ex pl rq tgt pos single dir bmp].
  unfold Playback.TogglePlayPause, Playback.StartPlayback. player_cbn.
  split; intros H; destruct th; try discriminate H; player_cbn;
    rewrite ?negb_involutive; repeat split.
Qed.

Lemma X16_toggle_witness :
  Playback.TogglePlayPause
    (Playback.TogglePlayPause (Playback.sample_player (Playback.Running [] []) 30 100 3))
  = Playback.sample_player (Playback.Running [] []) 30 100 3 /\
  Playback.g_hFrameBitmap
    (Playback.TogglePlayPause (Playback.sample_player Playback.NoThread 30 100 3)) = None.
Proof.
  split.
  - apply (X16_toggle (Playback.sample_player (Playback.Running [] []) 30 100 3)).
    reflexivity.
  - apply (X16_toggle (Playback.sample_player Playback.NoThread 30 100 3)).
    reflexivity.
Defined.

(** ** The end of the thread *)

Section ThreadEnd.

Variable av_rescale_q : Z -> AVRational -> AVRational -> Z.
Variable media : Playback.Media.

Local Abbreviation thread_step := (Playback.thread_step av_rescale_q media).
Local Abbreviation thread_run := (Playback.thread_run av_rescale_q media).

(** Without a thread, or with one that has ended, nothing happens. *)
Lemma thread_run_ended (s : Playback.Player) (n : nat) :
  Playback.thread s = Playback.NoThread \/ Playback.thread s = Playback.Exited ->
  thread_run n s = Some (s, []).
Proof.
  intros H. induction n as [|n IH]; cbn [Playback.thread_run]; [reflexivity|].
  unfold Playback.thread_step. destruct H as [H | H]; rewrite H; rewrite IH; reflexivity.
Qed.

(** The step at which a thread ends. *)
Lemma thread_step_ends (s : Playback.Player) :
  (Playback.thread s = Playback.Spawned /\ Playback.init_ok media = false) \/
  (exists reader queue,
     Playback.thread s = Playback.Running reader queue /\
     Playback.g_playThreadShouldExit s = true) ->
  thread_step s = Some (Playback.set_thread Playback.Exited s, []).
Proof.
  unfold Playback.thread_step, Playback.thread_start.
  intros [[Hth Hinit] | (reader & queue & Hth & Hexit)]; rewrite Hth.
  - rewrite Hinit. reflexivity.
  - rewrite Hexit. reflexivity.
Qed.

End ThreadEnd.



(** X18: a thread that has been asked to exit, that could not open the
    file, or that has ended is silent however long it runs: it posts no
    event and leaves the published bitmap, the position and every flag as
    they are; only the state of the thread changes, to ended.  Its handle
    stays non-null, so no command but [StopPlayback] brings the decoding
    back. *)
Theorem X18_ended_thread_is_silent av_rescale_q media (s : Playback.Player) (n : nat) :
  Playback.thread s = Playback.Exited \/
  (Playback.thread s = Playback.Spawned /\ Playback.init_ok media = false) \/
  (exists reader queue,
     Playback.thread s = Playback.Running reader queue /\
     Playback.g_playThreadShouldExit s = true) ->
  exists s',
    Playback.thread_run av_rescale_q media n s = Some (s', []) /\
    (s' = s \/ s' = Playback.set_thread Playback.Exited s) /\
    Playback.g_hPlaybackThread s' = true /\
    Playback.thread (Playback.TogglePlayPause s') = Playback.thread s' /\
    Playback.thread (Playback.EnsureThreadRunningPaused s') = Playback.thread s' /\
    (n <> O -> Playback.thread s' = Playback.Exited).
Proof.
  intros H.
  assert (Hcmd : forall s' : Playback.Player,
            Playback.g_hPlaybackThread s' = true ->
            Playback.thread (Playback.TogglePlayPause s') = Playback.thread s' /\
            Playback.thread (Playback.EnsureThreadRunningPaused s') = Playback.thread s').
  { intros s' Hs'. unfold Playback.TogglePlayPause, Playback.EnsureThreadRunningPaused.
    rewrite Hs'. destruct s'; split; reflexivity. }
  destruct H as [H | H].
  - exists s. rewrite thread_run_ended by (right; exact H).
    assert (Hh : Playback.g_hPlaybackThread s = true)
      by (unfold Playback.g_hPlaybackThread; rewrite H; reflexivity).
    destruct (Hcmd s Hh). repeat split; auto.
  - destruct n as [|n].
    + exists s. cbn [Playback.thread_run].
      assert (Hh : Playback.g_hPlaybackThread s = true).
      { unfold Playback.g_hPlaybackThread.
        destruct H as [[-> _] | (r & q & -> & _)]; reflexivity. }
      destruct (Hcmd s Hh). repeat split; auto. intros Hn. contradiction.
    + exists (Playback.set_thread Playback.Exited s).
      cbn [Playback.thread_run]. rewrite (thread_step_ends av_rescale_q media s H).
      rewrite thread_run_ended by (right; destruct s; reflexivity).
      assert (Hh : Playback.g_hPlaybackThread (Playback.set_thread Playback.Exited s) = true)
        by (destruct s; reflexivity).
      destruct (Hcmd _ Hh). repeat split; auto.
Qed.

(** A thread told to exit while in its loop on the sample clip. *)
Lemma X18_ended_thread_is_silent_witness :
  exists s',
    Playback.thread_run rescale_near Playback.sample_media 5
      (Playback.set_playThreadShouldExit true
         (Playback.sample_player (Playback.Running Playback.sample_clip []) 30 0 0))
    = Some (s', []) /\
    Playback.thread s' = Playback.Exited.
Proof.
  destruct (X18_ended_thread_is_silent rescale_near Playback.sample_media
              (Playback.set_playThreadShouldExit true
                 (Playback.sample_player (Playback.Running Playback.sample_clip []) 30 0 0))
              5) as (s' & Hrun & _ & _ & _ & _ & Hex).
  - right. right. do 2 eexists. split; reflexivity.
  - exists s'. split; [exact Hrun|]. apply Hex. discriminate.
Defined.

(** ** The backward scan *)

Section BackwardScan.

Variable av_rescale_q : Z -> AVRational -> AVRational -> Z.
Variable media : Playback.Media.

Local Abbreviation ms_of := (Playback.ms_of media).
Local Abbreviation hNew_of := (Playback.hNew_of media).
Local Abbreviation receive_single := (Playback.receive_single media).
Local Abbreviation scan_packets := (Playback.scan_packets media).
Local Abbreviation decode_order := (Playback.decode_order media).
Local Abbreviation all_before := (Playback.all_before media).
Local Abbreviation tracked := (Playback.tracked media).
Local Abbreviation thread_run := (Playback.thread_run av_rescale_q media).
Local Abbreviation seek_packets := (Playback.seek_packets av_rescale_q media).

Lemma tracked_app (best : Playback.HBITMAP * Z) (l1 l2 : list AVFrame) :
  tracked best (l1 ++ l2) = tracked (tracked best l1) l2.
Proof. unfold Playback.tracked. apply fold_left_app. Qed.

(** Backward: each frame before the target becomes the candidate. *)
Lemma receive_single_backward_pending stepDir targetMs queue :
  (0 <=? stepDir) = false -> all_before targetMs queue ->
  forall best,
    receive_single stepDir targetMs queue best
    = Some (Playback.Pending (tracked best queue)).
Proof.
  intros Hdir. induction queue as [|frame q IH]; intros Hq best;
    cbn [Playback.receive_single].
  - reflexivity.
  - destruct (Hq frame (or_introl eq_refl)) as (m & Hms & Hm).
    rewrite Hms, Hdir. destruct (Z.ltb_spec m targetMs); [|lia].
    rewrite IH by (intros f Hf; apply Hq; right; exact Hf).
    unfold Playback.tracked. cbn [fold_left]. rewrite Hms. reflexivity.
Qed.

(** Backward: at the first frame at or after the target the candidate is
    produced, or that frame when there is no candidate. *)
Lemma receive_single_backward_found stepDir targetMs pre frame post ms :
  (0 <=? stepDir) = false -> all_before targetMs pre ->
  ms_of frame = Some ms -> targetMs <= ms ->
  forall best,
    receive_single stepDir targetMs (pre ++ frame :: post) best
    = Some (Playback.Produced
              (fst (Playback.backward_pick (tracked best pre) (hNew_of frame) ms))
              (snd (Playback.backward_pick (tracked best pre) (hNew_of frame) ms))
              post).
Proof.
  intros Hdir Hpre Hms Hle.
  induction pre as [|f0 pre IH]; intros best; cbn [app Playback.receive_single].
  - rewrite Hms, Hdir. destruct (Z.ltb_spec ms targetMs); [lia|].
    unfold Playback.backward_pick, Playback.tracked. cbn [fold_left].
    destruct (fst best); reflexivity.
  - destruct (Hpre f0 (or_introl eq_refl)) as (m & Hm0 & Hm).
    rewrite Hm0, Hdir. destruct (Z.ltb_spec m targetMs); [|lia].
    rewrite IH by (intros f Hf; apply Hpre; right; exact Hf).
    unfold Playback.tracked. cbn [fold_left]. rewrite Hm0. reflexivity.
Qed.

Lemma scan_packets_backward_found stepDir targetMs frame post ms :
  (0 <=? stepDir) = false -> ms_of frame = Some ms -> targetMs <= ms ->
  forall reader pre best,
    decode_order reader = pre ++ frame :: post -> all_before targetMs pre ->
    exists reader' queue',
      scan_packets stepDir targetMs reader [] best
      = Some (Some (Playback.backward_pick (tracked best pre) (hNew_of frame) ms),
              reader', queue').
Proof.
  intros Hdir Hms Hle.
  induction reader as [|pkt rest IH]; intros pre best Heq Hpre;
    cbn [Playback.decode_order Playback.scan_packets] in *.
  - destruct pre; discriminate.
  - destruct (negb (stream_index pkt =? Playback.videoStreamIndex media)).
    + apply (IH pre best Heq Hpre).
    + destruct (negb (send_ok pkt)); [destruct pre; discriminate|].
      cbn [app].
      apply app_eq_app in Heq. destruct Heq as [l [[Hd Hp] | [Hp Hd]]].
      * destruct l as [|f' l].
        -- rewrite app_nil_r in Hd. subst pre. cbn [app] in Hp.
           rewrite (receive_single_backward_pending _ _ _ Hdir Hpre).
           apply (IH [] (tracked best (decoded pkt))); [symmetry; exact Hp|].
           intros f [].
        -- cbn [app] in Hp. injection Hp as <- _. rewrite Hd.
           rewrite (receive_single_backward_found _ _ _ _ _ _ Hdir Hpre Hms Hle).
           rewrite <- surjective_pairing. eauto.
      * subst pre. apply all_before_app in Hpre. destruct Hpre as [Hpre1 Hpre2].
        rewrite (receive_single_backward_pending _ _ _ Hdir Hpre1).
        rewrite tracked_app.
        apply (IH l (tracked best (decoded pkt))); assumption.
Qed.

(** Backward: when every decoded frame is before the target, the
    candidate is dropped and nothing is published. *)
Lemma scan_packets_backward_none stepDir targetMs :
  (0 <=? stepDir) = false ->
  forall reader best,
    all_before targetMs (decode_order reader) ->
    exists reader' queue',
      scan_packets stepDir targetMs reader [] best = Some (None, reader', queue').
Proof.
  intros Hdir.
  induction reader as [|pkt rest IH]; intros best Hall;
    cbn [Playback.decode_order Playback.scan_packets] in *.
  - eauto.
  - destruct (negb (stream_index pkt =? Playback.videoStreamIndex media)).
    + apply (IH best Hall).
    + destruct (negb (send_ok pkt)); [eauto|].
      cbn [app]. apply all_before_app in Hall. destruct Hall as [H1 H2].
      rewrite (receive_single_backward_pending _ _ _ Hdir H1).
      apply (IH _ H2).
Qed.

(** The thread services a pending single-frame request within two of
    its steps, whatever the scan yields: one seek, then what the scan
    produced, if anything. *)
Lemma pending_step_serviced (s : Playback.Player) (dir target : Z)
    (out : option (Playback.HBITMAP * Z)) :
  Playback.step_pending dir target s -> Playback.init_ok media = true ->
  (exists reader' queue',
     scan_packets dir target (seek_packets target) [] (None, -1)
     = Some (out, reader', queue')) ->
  exists s2,
    thread_run 2 s
    = Some (s2, Playback.doSeek target
                :: match out with
                   | Some (bmp, ms) => [Playback.published bmp ms; Playback.WM_APP_FRAME_READY]
                   | None => []
                   end) /\
    (Playback.g_hFrameBitmap s2, Playback.g_currentPosMs s2)
    = match out with
      | Some shown => shown
      | None => (Playback.g_hFrameBitmap s, Playback.g_currentPosMs s)
      end /\
    Playback.g_decodeSingleFrame s2 = false /\
    Playback.g_stepDir s2 = 0 /\
    Playback.g_seekRequested s2 = false /\
    Playback.g_isPlaying s2 = false.
Proof.
  intros (Hreq & Htgt & Hsingle & Hdir & Hplay & Hth & Hexit) Hinit
    (reader' & queue' & Hscan).
  destruct s as [dur fps th ex pl rq tgt pos single dir0 bmp].
  player_cbn. subst.
  destruct Hth as [-> | (reader & queue & ->)].
  - thread_cbn. unfold Playback.thread_start. rewrite Hinit. thread_cbn.
    unfold Playback.loop_body. player_cbn. rewrite Hscan. thread_cbn.
    destruct out as [[b m]|]; eexists; (split; [reflexivity|]);
      player_cbn; repeat split.
  - thread_cbn. unfold Playback.loop_body at 1. player_cbn. rewrite Hscan.
    thread_cbn. unfold Playback.loop_body. player_cbn.
    destruct out as [[b m]|]; eexists; (split; [reflexivity|]);
      player_cbn; repeat split.
Qed.

(** [StepBackward] leaves a pending backward step whose target lies two
    frame intervals before the position, or at zero, clamped into the
    duration. *)
Lemma StepBackward_pending (s : Playback.Player) (durMs F : Z) :
  Playback.thread s <> Playback.Exited ->
  Playback.thread s = Playback.NoThread \/
  Playback.g_playThreadShouldExit s = false ->
  Cxx.to_int64 (Playback.g_duration s * 1000.0)%float = Some durMs ->
  Playback.frameMs_of s = Some F ->
  exists s1,
    Playback.StepBackward s = Some s1 /\
    Playback.step_pending (-1)
      (Playback.clamp_ms durMs
         (if F * 2 <? Playback.g_currentPosMs s
          then Playback.g_currentPosMs s - F * 2 else 0)) s1 /\
    Playback.g_currentPosMs s1 = Playback.g_currentPosMs s /\
    Playback.g_hFrameBitmap s1 = Playback.g_hFrameBitmap s.
Proof.
  intros Hth Hexit Hdur HF.
  destruct s as [dur fps th ex pl rq tgt pos single dir bmp].
  unfold Playback.StepBackward, Playback.frameMs_of, Playback.SeekMs,
    Playback.step_pending, Playback.clamp_ms in *.
  player_cbn.
  destruct th; player_cbn; try congruence;
    rewrite HF; player_cbn; rewrite Hdur;
    (eexists; split; [reflexivity|]); player_cbn;
    repeat split; eauto;
    destruct Hexit as [Hexit | Hexit]; congruence.
Qed.

End BackwardScan.



(** ** What one step of the thread changes *)

Section StepInvariants.

Variable av_rescale_q : Z -> AVRational -> AVRational -> Z.
Variable media : Playback.Media.

Local Abbreviation thread_step := (Playback.thread_step av_rescale_q media).
Local Abbreviation thread_run := (Playback.thread_run av_rescale_q media).
Local Abbreviation loop_body := (Playback.loop_body av_rescale_q media).

(** Continuous playback changes the published bitmap and position, and
    nothing else: it leaves published what its last [published] event
    says, and notifies the window once for each frame received. *)
Lemma play_frames_slot (queue : list AVFrame) :
  forall s s' ev,
    Playback.play_frames media queue s = Some (s', ev) ->
    s' = Playback.publish
           (fst (last_published ev (Playback.g_hFrameBitmap s, Playback.g_currentPosMs s)))
           (snd (last_published ev (Playback.g_hFrameBitmap s, Playback.g_currentPosMs s)))
           s /\
    List.length (filter (fun x => match x with
                                  | Playback.WM_APP_FRAME_READY => true
                                  | _ => false
                                  end) ev) = List.length queue.
Proof.
  induction queue as [|frame q IH]; intros s s' ev H; cbn [Playback.play_frames] in H.
  - injection H as <- <-. destruct s. split; reflexivity.
  - destruct (Playback.hNew_of media frame) as [b|].
    + destruct (Playback.ms_of media frame) as [ms|]; [|discriminate].
      destruct (Playback.play_frames media q (Playback.publish (Some b) ms s))
        as [[s1 ev1]|] eqn:Hq; [|discriminate].
      injection H as <- <-. apply IH in Hq. destruct Hq as (H1 & H2).
      unfold last_published in *. cbn [fold_left filter List.length].
      rewrite H2. split; [|reflexivity].
      rewrite H1. destruct s. reflexivity.
    + destruct (Playback.play_frames media q s) as [[s1 ev1]|] eqn:Hq;
        [|discriminate].
      injection H as <- <-. apply IH in Hq. destruct Hq as (H1 & H2).
      unfold last_published in *. cbn [fold_left filter List.length].
      rewrite H2. split; [exact H1 | reflexivity].
Qed.

(** What a step of the thread changes, and what it leaves. *)
Lemma thread_step_effect (s s' : Playback.Player) (ev : list Playback.event) :
  thread_step s = Some (s', ev) ->
  (Playback.g_hFrameBitmap s', Playback.g_currentPosMs s')
  = last_published ev (Playback.g_hFrameBitmap s, Playback.g_currentPosMs s) /\
  Playback.g_seekTargetMs s' = Playback.g_seekTargetMs s /\
  Playback.g_duration s' = Playback.g_duration s /\
  Playback.g_videoFPS s' = Playback.g_videoFPS s /\
  Playback.g_playThreadShouldExit s' = Playback.g_playThreadShouldExit s /\
  (Playback.g_isPlaying s = true ->
   Playback.g_decodeSingleFrame s' = Playback.g_decodeSingleFrame s /\
   Playback.g_stepDir s' = Playback.g_stepDir s) /\
  (Playback.g_isPlaying s = false -> Playback.g_seekRequested s = false ->
   Playback.g_decodeSingleFrame s = false ->
   Playback.thread s <> Playback.Spawned ->
   Playback.g_playThreadShouldExit s = false ->
   s' = s /\ ev = []) /\
  (Playback.g_isPlaying s = false -> Playback.g_decodeSingleFrame s = true ->
   (exists reader queue, Playback.thread s = Playback.Running reader queue) ->
   Playback.g_playThreadShouldExit s = false ->
   Playback.g_decodeSingleFrame s' = false /\ Playback.g_stepDir s' = 0 /\
   Playback.g_isPlaying s' = false).
Proof.
  destruct s as [dur fps th ex pl rq tgt pos single dir bmp].
  unfold Playback.thread_step, Playback.thread_start, Playback.loop_body.
  player_cbn. intros H.
  destruct th as [ | | reader queue | ]; player_cbn.
  1, 4: injection H as <- <-; player_cbn; repeat split; intros;
    match goal with
    | Hr : exists _ _, _ = Playback.Running _ _ |- _ =>
        destruct Hr as (? & ? & Hr); discriminate Hr
    end.
  - destruct (Playback.init_ok media), rq; injection H as <- <-; player_cbn;
      repeat split; intros; try discriminate; try contradiction;
      match goal with
      | Hr : exists _ _, _ = Playback.Running _ _ |- _ =>
          destruct Hr as (? & ? & Hr); discriminate Hr
      end.
  - destruct ex; [injection H as <- <-; player_cbn; repeat split; intros; discriminate|].
    destruct rq, single, pl; player_cbn.
    all: repeat (lazymatch type of H with
                 | ?l = Some _ => let x := scrutinee l in destruct x eqn:?
                 end; player_cbn).
    all: try discriminate H.
    all: injection H as <- <-; player_cbn.
    all: try match goal with
         | Hp : Playback.play_frames _ _ _ = Some (?s1, _) |- _ =>
             apply play_frames_slot in Hp; destruct Hp as (Hp & _); subst s1
         end.
    all: unfold last_published in *; rewrite ?fold_left_app; cbn [fold_left].
    all: player_cbn.
    all: repeat split; intros.
    all: try match goal with
         | Hd : true = false |- _ => discriminate Hd
         | Hd : false = true |- _ => discriminate Hd
         end.
    all: try reflexivity.
    all: try (rewrite <- surjective_pairing; reflexivity).
Qed.

End StepInvariants.

(** X20: what the window finds published is what the thread published
    last: after any number of steps the bitmap and the position are
    those of the last [published] event, or the ones found before when
    there was none.  The thread never writes the seek target, the
    duration, the frame rate or its exit flag. *)
Theorem X20_published_slot av_rescale_q media (n : nat) :
  forall (s s' : Playback.Player) (ev : list Playback.event),
    Playback.thread_run av_rescale_q media n s = Some (s', ev) ->
    (Playback.g_hFrameBitmap s', Playback.g_currentPosMs s')
    = last_published ev (Playback.g_hFrameBitmap s, Playback.g_currentPosMs s) /\
    Playback.g_seekTargetMs s' = Playback.g_seekTargetMs s /\
    Playback.g_duration s' = Playback.g_duration s /\
    Playback.g_videoFPS s' = Playback.g_videoFPS s /\
    Playback.g_playThreadShouldExit s' = Playback.g_playThreadShouldExit s.
Proof.
  induction n as [|n IH]; intros s s' ev Hrun; cbn [Playback.thread_run] in Hrun.
  - injection Hrun as <- <-. repeat split.
  - destruct (Playback.thread_step av_rescale_q media s) as [[s1 ev1]|] eqn:Hstep;
      [|discriminate].
    destruct (Playback.thread_run av_rescale_q media n s1) as [[s2 ev2]|] eqn:Hrest;
      [|discriminate].
    injection Hrun as <- <-.
    apply thread_step_effect in Hstep.
    destruct Hstep as (H1 & H2 & H3 & H4 & H5 & _).
    apply IH in Hrest. destruct Hrest as (R1 & R2 & R3 & R4 & R5).
    unfold last_published in *. rewrite fold_left_app, <- H1.
    repeat split; congruence.
Qed.

(** Playback of the sample clip from its start: after the seek and three
    packets the frame at 67 ms is the one published. *)
Lemma X20_published_slot_witness :
  exists s' ev,
    Playback.thread_run rescale_near Playback.sample_media 4
      (Playback.TogglePlayPause (Playback.sample_player Playback.NoThread 30 0 0))
    = Some (s', ev) /\
    (Playback.g_hFrameBitmap s', Playback.g_currentPosMs s') = (Some 2%nat, 67).
Proof.
  destruct (Playback.thread_run rescale_near Playback.sample_media 4
              (Playback.TogglePlayPause (Playback.sample_player Playback.NoThread 30 0 0)))
    as [[s' ev]|] eqn:Hrun; [|vm_compute in Hrun; discriminate Hrun].
  exists s', ev. split; [reflexivity|].
  destruct (X20_published_slot rescale_near Playback.sample_media 4 _ s' ev Hrun)
    as (H & _).
  rewrite H. vm_compute in Hrun. injection Hrun as _ <-. reflexivity.
Defined.

(** X21: a request for a single frame is served only while playback is
    paused.  A step of the thread taken while playing leaves the request
    and the step direction as they are; a step taken while paused with a
    request pending clears both and leaves playback paused; and a paused
    thread with no request pending does nothing: it reads no packet and
    posts no event. *)
Theorem X21_single_frame_waits_for_pause av_rescale_q media
    (s s' : Playback.Player) (ev : list Playback.event)
    (reader : list AVPacket) (queue : list AVFrame) :
  Playback.thread s = Playback.Running reader queue ->
  Playback.g_playThreadShouldExit s = false ->
  Playback.thread_step av_rescale_q media s = Some (s', ev) ->
  (Playback.g_isPlaying s = true ->
   Playback.g_decodeSingleFrame s' = Playback.g_decodeSingleFrame s /\
   Playback.g_stepDir s' = Playback.g_stepDir s) /\
  (Playback.g_isPlaying s = false -> Playback.g_decodeSingleFrame s = true ->
   Playback.g_decodeSingleFrame s' = false /\ Playback.g_stepDir s' = 0 /\
   Playback.g_isPlaying s' = false) /\
  (Playback.g_isPlaying s = false -> Playback.g_decodeSingleFrame s = false ->
   Playback.g_seekRequested s = false -> s' = s /\ ev = []).
Proof.
  intros Hth Hexit Hstep.
  apply thread_step_effect in Hstep.
  destruct Hstep as (_ & _ & _ & _ & _ & Hplay & Hidle & Hsingle).
  split; [exact Hplay|]. split.
  - intros Hp Hs. apply Hsingle; try assumption. eauto.
  - intros Hp Hs Hr. apply Hidle; try assumption. rewrite Hth. discriminate.
Qed.

(** A step is asked for and playback toggled on before the thread has
    served it: the thread seeks and plays, and the request stays. *)
Lemma X21_single_frame_waits_for_pause_witness :
  exists s1 s2 ev,
    Playback.StepForward (Playback.sample_player (Playback.Running [] []) 30 100 3)
    = Some s1 /\
    Playback.thread_step rescale_near Playback.sample_media (Playback.TogglePlayPause s1)
    = Some (s2, ev) /\
    Playback.g_decodeSingleFrame s2 = true /\ Playback.g_stepDir s2 = 1.
Proof.
  destruct (Playback.StepForward (Playback.sample_player (Playback.Running [] []) 30 100 3))
    as [s1|] eqn:Hs1; [|vm_compute in Hs1; discriminate Hs1].
  destruct (Playback.thread_step rescale_near Playback.sample_media
              (Playback.TogglePlayPause s1)) as [[s2 ev]|] eqn:Hstep.
  - exists s1, s2, ev. split; [reflexivity|]. split; [exact Hstep|].
    vm_compute in Hs1. injection Hs1 as <-.
    pose proof (fun H1 H2 =>
                  X21_single_frame_waits_for_pause rescale_near Playback.sample_media
                    _ s2 ev [] [] H1 H2 Hstep) as H.
    destruct (H eq_refl eq_refl) as (Hp & _).
    destruct (Hp eq_refl) as (H1 & H2). rewrite H1, H2. split; reflexivity.
  - vm_compute in Hs1. injection Hs1 as <-. vm_compute in Hstep. discriminate Hstep.
Defined.

(** ** The seek bar *)

(** X22: a move of the seek bar asks for the position of the bar clamped
    into the duration.  While paused it also asks for a single frame:
    with no backward step pending the thread then seeks once and
    publishes the first decoded frame at or after that position.  While
    playing it asks for no single frame: the thread seeks once and goes
    on playing from there.  Before a file is loaded the bar does
    nothing. *)
Theorem X22_seekbar av_rescale_q media (s : Playback.Player) (pos durMs : Z) :
  Cxx.to_int64 (Playback.g_duration s * 1000.0)%float = Some durMs ->
  Playback.init_ok media = true ->
  Playback.thread s <> Playback.Exited ->
  Playback.thread s = Playback.NoThread \/ Playback.g_playThreadShouldExit s = false ->
  let target := Playback.clamp_ms durMs pos in
  Window.seekbar false pos s = Some s /\
  exists s1,
    Window.seekbar true pos s = Some s1 /\
    Playback.g_seekRequested s1 = true /\
    Playback.g_seekTargetMs s1 = target /\
    (0 <= durMs -> 0 <= target <= durMs) /\
    Playback.g_currentPosMs s1 = Playback.g_currentPosMs s /\
    (Playback.g_isPlaying s = false -> 0 <= Playback.g_stepDir s ->
     Playback.g_decodeSingleFrame s1 = true /\
     forall pre frame post ms,
       Playback.decode_order media (Playback.seek_packets av_rescale_q media target)
       = pre ++ frame :: post ->
       Playback.all_before media target pre ->
       Playback.ms_of media frame = Some ms -> target <= ms ->
       exists s2,
         Playback.thread_run av_rescale_q media 2 s1
         = Some (s2, [Playback.doSeek target;
                      Playback.published (Playback.hNew_of media frame) ms;
                      Playback.WM_APP_FRAME_READY]) /\
         Playback.g_currentPosMs s2 = ms /\
         Playback.g_hFrameBitmap s2 = Playback.hNew_of media frame /\
         Playback.g_isPlaying s2 = false) /\
    (Playback.g_isPlaying s = true -> Playback.thread s <> Playback.NoThread ->
     Playback.g_isPlaying s1 = true /\
     Playback.g_decodeSingleFrame s1 = Playback.g_decodeSingleFrame s /\
     forall s2 ev,
       Playback.thread_step av_rescale_q media s1 = Some (s2, ev) ->
       Playback.seeks ev = [target] /\
       (Playback.seek_packets av_rescale_q media target <> [] ->
        Playback.g_isPlaying s2 = true)).
Proof.
  intros Hdur Hinit Hth Hexit target.
  split; [reflexivity|].
  unfold Window.seekbar.
  assert (Hdur' : Cxx.to_int64
                    (Playback.g_duration (Playback.EnsureThreadRunningPaused s) * 1000.0)%float
                  = Some durMs).
  { destruct s as [dur fps th ex pl rq tgt p single dir bmp].
    unfold Playback.EnsureThreadRunningPaused. player_cbn. destruct th; exact Hdur. }
  rewrite (SeekMs_spec _ pos _ durMs Hdur').
  eexists. split; [reflexivity|]. fold target.
  destruct s as [dur fps th ex pl rq tgt p single dir bmp].
  player_cbn.
  split; [reflexivity|]. split; [reflexivity|].
  split.
  { intros Hd. subst target. unfold Playback.clamp_ms.
    destruct (Z.ltb_spec pos 0); destruct (Z.ltb_spec durMs 0);
      try destruct (Z.ltb_spec durMs pos); lia. }
  split; [destruct th; reflexivity|].
  split.
  - intros -> Hdir. player_cbn. split; [reflexivity|].
    intros pre frame post ms Hdec Hpre Hms Hle.
    assert (Hd : (0 <=? dir) = true) by (apply Z.leb_le; exact Hdir).
    match goal with
    | |- context [Playback.thread_run _ _ 2 ?s1] =>
        destruct (pending_step_serviced av_rescale_q media s1 dir target
                    (Some (Playback.hNew_of media frame, ms)))
          as (s2 & Hrun & Hslot & _ & _ & _ & Hpl)
    end.
    + unfold Playback.step_pending. destruct th; player_cbn; try congruence;
        repeat split; eauto; destruct Hexit as [Hexit | Hexit]; congruence.
    + exact Hinit.
    + apply (scan_packets_forward_found media dir target frame post ms Hd Hms Hle
               _ pre (None, -1) Hdec Hpre).
    + exists s2. split; [exact Hrun|]. injection Hslot as Hb Hp.
      repeat split; assumption.
  - intros -> Hno. destruct th; try congruence; player_cbn.
    all: split; [reflexivity|]. all: split; [reflexivity|].
    all: intros s2 ev Hstep.
    all: destruct Hexit as [Hexit | Hexit]; [discriminate Hexit|]; subst ex.
    all: split.
    all: try (apply thread_step_seeks in Hstep;
              [destruct Hstep as (Hs & _); apply Hs; reflexivity
              | exact Hinit
              | first [left; reflexivity | right; do 2 eexists; reflexivity]
              | reflexivity]).
    + intros Hne. unfold Playback.thread_step, Playback.thread_start in Hstep.
      rewrite Hinit in Hstep. player_cbn. injection Hstep as <- _. reflexivity.
    + intros Hne. unfold Playback.thread_step, Playback.loop_body in Hstep.
      player_cbn. rewrite andb_false_r in Hstep.
      destruct (Playback.seek_packets av_rescale_q media target) as [|pkt rest];
        [congruence|].
      repeat (lazymatch type of Hstep with
              | ?l = Some _ => let x := scrutinee l in destruct x eqn:?
              end; player_cbn).
      all: try discriminate Hstep.
      all: injection Hstep as <- _; player_cbn; try reflexivity.
      match goal with
      | Hp : Playback.play_frames _ _ _ = Some (?s1, _) |- _ =>
          apply play_frames_slot in Hp; destruct Hp as (Hp & _); subst s1
      end.
      reflexivity.
Qed.

(** The bar moved to 120 ms while the sample clip is paused: the frame
    at 133 ms is shown. *)
Lemma X22_seekbar_witness :
  exists s1 s2,
    Window.seekbar true 120 (Playback.sample_player Playback.NoThread 30 0 0) = Some s1 /\
    Playback.thread_run rescale_near Playback.sample_media 2 s1
    = Some (s2, [Playback.doSeek 120;
                 Playback.published (Some 4%nat) 133;
                 Playback.WM_APP_FRAME_READY]) /\
    Playback.g_currentPosMs s2 = 133.
Proof.
  destruct (X22_seekbar rescale_near Playback.sample_media
              (Playback.sample_player Playback.NoThread 30 0 0) 120 267)
    as (_ & s1 & Hbar & _ & _ & _ & _ & Hpaused & _);
    try reflexivity; try discriminate; [left; reflexivity|].
  exists s1.
  destruct Hpaused as (_ & Hfound); [reflexivity | discriminate|].
  destruct (Hfound (firstn 4 (Playback.decode_order Playback.sample_media
                                Playback.sample_clip))
              (mkFrame 133 133 4)
              (skipn 5 (Playback.decode_order Playback.sample_media
                          Playback.sample_clip)) 133)
    as (s2 & Hrun & Hpos & _).
  - reflexivity.
  - intros f Hf. vm_compute in Hf.
    repeat (destruct Hf as [<- | Hf];
            [eexists; split; [vm_compute; reflexivity | vm_compute; reflexivity]|]).
    destruct Hf.
  - reflexivity.
  - vm_compute. discriminate.
  - exists s2. split; [exact Hbar|]. split; [exact Hrun | exact Hpos].
Defined.

(** ** A pass of continuous playback *)

(** The frames that continuous playback publishes are the received
    frames whose bitmap could be made. *)
Lemma play_frames_published (media : Playback.Media) (queue : list AVFrame) :
  forall s s' ev,
    Playback.play_frames media queue s = Some (s', ev) ->
    forall bmp ms,
      In (Playback.published bmp ms) ev <->
      exists frame,
        In frame queue /\ Playback.dib_ok media frame = true /\
        bmp = Some (picture frame) /\ Playback.ms_of media frame = Some ms.
Proof.
  induction queue as [|frame q IH]; intros s s' ev H bmp ms;
    cbn [Playback.play_frames] in H.
  - injection H as <- <-. split; [intros [] | intros (f & [] & _)].
  - unfold Playback.hNew_of in H.
    destruct (Playback.dib_ok media frame) eqn:Hdib.
    + destruct (Playback.ms_of media frame) as [m|] eqn:Hms; [|discriminate].
      destruct (Playback.play_frames media q (Playback.publish (Some (picture frame)) m s))
        as [[s1 ev1]|] eqn:Hq; [|discriminate].
      injection H as <- <-. cbn [In]. rewrite (IH _ _ _ Hq). split.
      * intros [Heq | [Heq | (f & Hf & Hrest)]]; [|discriminate Heq|].
        -- injection Heq as <- <-. exists frame. auto.
        -- exists f. split; [right; exact Hf | exact Hrest].
      * intros (f & [<- | Hf] & Hd & -> & Hm).
        -- left. rewrite Hms in Hm. injection Hm as <-. reflexivity.
        -- right. right. exists f. auto.
    + destruct (Playback.play_frames media q s) as [[s1 ev1]|] eqn:Hq; [|discriminate].
      injection H as <- <-. cbn [In]. rewrite (IH _ _ _ Hq). split.
      * intros [Heq | (f & Hf & Hrest)]; [discriminate Heq|].
        exists f. split; [right; exact Hf | exact Hrest].
      * intros (f & [<- | Hf] & Hd & Hrest); [congruence|].
        right. exists f. auto.
Qed.

(** X23: a pass of the loop taken while playing, with no seek pending,
    reads exactly one packet.  A packet of another stream and a packet
    the decoder refuses are passed over without an event.  A video packet
    the decoder takes has every frame received notified to the window,
    those whose bitmap could be made published in between, and no other;
    nothing stays in the decoder; playback goes on. *)
Theorem X23_playback_pass av_rescale_q media (s s' : Playback.Player)
    (ev : list Playback.event) (pkt : AVPacket) (rest : list AVPacket)
    (queue : list AVFrame) :
  Playback.thread s = Playback.Running (pkt :: rest) queue ->
  Playback.g_playThreadShouldExit s = false ->
  Playback.g_isPlaying s = true -> Playback.g_seekRequested s = false ->
  Playback.thread_step av_rescale_q media s = Some (s', ev) ->
  Playback.g_isPlaying s' = true /\
  (stream_index pkt <> Playback.videoStreamIndex media \/ send_ok pkt = false ->
   ev = [] /\ s' = Playback.set_thread (Playback.Running rest queue) s) /\
  (stream_index pkt = Playback.videoStreamIndex media -> send_ok pkt = true ->
   Playback.thread s' = Playback.Running rest [] /\
   List.length (filter (fun x => match x with
                                 | Playback.WM_APP_FRAME_READY => true
                                 | _ => false
                                 end) ev) = List.length (queue ++ decoded pkt) /\
   Playback.seeks ev = [] /\
   forall bmp ms,
     In (Playback.published bmp ms) ev <->
     exists frame,
       In frame (queue ++ decoded pkt) /\ Playback.dib_ok media frame = true /\
       bmp = Some (picture frame) /\ Playback.ms_of media frame = Some ms).
Proof.
  intros Hth Hexit Hplay Hreq Hstep.
  destruct s as [dur fps th ex pl rq tgt pos single dir bmp0].
  player_cbn. subst.
  unfold Playback.thread_step, Playback.loop_body in Hstep. player_cbn.
  rewrite andb_false_r in Hstep.
  destruct (Z.eqb_spec (stream_index pkt) (Playback.videoStreamIndex media)) as [Hv | Hv];
    cbn [negb] in Hstep.
  - destruct (send_ok pkt) eqn:Hs; cbn [negb] in Hstep.
    + destruct (Playback.play_frames media (queue ++ decoded pkt) _)
        as [[s1 ev1]|] eqn:Hp; [|discriminate Hstep].
      injection Hstep as <- <-.
      pose proof (play_frames_slot media _ _ _ _ Hp) as (Hs1 & Hcount).
      pose proof (play_frames_facts media _ _ _ _ Hp) as (Hseeks & _).
      pose proof (play_frames_published media _ _ _ _ Hp) as Hpub.
      subst s1. player_cbn.
      split; [reflexivity|]. split; [intros [H | H]; congruence|].
      intros _ _. split; [reflexivity|]. split; [exact Hcount|].
      split; [exact Hseeks | exact Hpub].
    + injection Hstep as <- <-. player_cbn.
      split; [reflexivity|]. split; [intros _; split; reflexivity|].
      intros _ H. discriminate H.
  - injection Hstep as <- <-. player_cbn.
    split; [reflexivity|]. split; [intros _; split; reflexivity|].
    intros H. contradiction.
Qed.

(** The sample clip playing from its start: the pass over the first
    packet publishes the frame at 0 ms and leaves seven packets. *)
Lemma X23_playback_pass_witness :
  exists s' ev,
    Playback.thread_step rescale_near Playback.sample_media
      (Playback.set_isPlaying true
         (Playback.sample_player (Playback.Running Playback.sample_clip []) 30 0 9))
    = Some (s', ev) /\
    Playback.thread s' = Playback.Running (tl Playback.sample_clip) [] /\
    In (Playback.published (Some 0%nat) 0) ev.
Proof.
  destruct (Playback.thread_step rescale_near Playback.sample_media
              (Playback.set_isPlaying true
                 (Playback.sample_player (Playback.Running Playback.sample_clip []) 30 0 9)))
    as [[s' ev]|] eqn:Hstep; [|vm_compute in Hstep; discriminate Hstep].
  exists s', ev. split; [reflexivity|].
  destruct (X23_playback_pass rescale_near Playback.sample_media
              (Playback.set_isPlaying true
                 (Playback.sample_player (Playback.Running Playback.sample_clip []) 30 0 9))
              s' ev (Playback.sample_packet 0 0) (tl Playback.sample_clip) []
              eq_refl eq_refl eq_refl eq_refl Hstep) as (_ & _ & H).
  destruct (H eq_refl eq_refl) as (Hth & _ & _ & Hpub).
  split; [exact Hth|]. apply Hpub.
  exists (mkFrame 0 0 0). repeat split. left. reflexivity.
Defined.

(** ** The seek of the transcode *)

(** X24: a run seeks the input at most once, directly after the header
    is written and before the decoder is flushed, to the start of the
    range: the start in seconds, rounded to microseconds and rescaled to
    the time base of the video stream. *)
Theorem X24_one_seek_to_start av_rescale_q e size sf w h start_seconds end_seconds :
  let run :=
    TranscodeWithSizeAndScale av_rescale_q e size sf w h start_seconds end_seconds in
  forall ts,
    In (av_seek_frame ts) (calls run) ->
    video_start_pts_of av_rescale_q e start_seconds = Some ts /\
    write_header_ok e = true /\
    exists l1 l2,
      calls run
      = l1 ++ avformat_write_header :: av_seek_frame ts :: avcodec_flush_buffers :: l2 /\
      (forall ts', ~ In (av_seek_frame ts') l1) /\
      (forall ts', ~ In (av_seek_frame ts') l2).
Proof.
  intros run ts. subst run.
  unfold video_start_pts_of, video_in_stream, video_stream_index.
  run_start. repeat run_step.
  all: unfold holds, calls; cbn [fst snd] in *; intros H.
  all: split_run_calls.
  all: match goal with
       | Hs : av_seek_frame _ = av_seek_frame _ |- _ => injection Hs as <-
       end.
  all: split; [reflexivity|]; split; [reflexivity|].
  all: lazymatch goal with
       | |- exists _ _, ?l = _ /\ _ =>
           let p := before_call avformat_write_header l in exists p
       end.
  all: eexists; split; [reflexivity|].
  all: split; intros ts' Hin; split_run_calls.
Qed.

(** The sample file cut from 10 s: the one seek goes to 10000 in the
    time base of the video stream, which counts milliseconds. *)
Lemma X24_one_seek_to_start_witness :
  video_start_pts_of rescale_near (sample_env false true) 10 = Some 10000 /\
  write_header_ok (sample_env false true) = true.
Proof.
  destruct (X24_one_seek_to_start rescale_near (sample_env false true)
              5 4 1920 1080 10 20 10000) as (H1 & H2 & _).
  - vm_compute. auto 30.
  - split; [exact H1 | exact H2].
Defined.

(** ** Audio is optional *)

(** Receiving and sending frames makes no call that concerns audio. *)
Lemma filter_receive_frames av_rescale_q e e' s_ e_ vtb etb vsp queue :
  (forall frame, send_frame_ok e frame = send_frame_ok e' frame) ->
  receive_frames av_rescale_q e s_ e_ vtb etb vsp queue
  = receive_frames av_rescale_q e' s_ e_ vtb etb vsp queue /\
  filter (fun c => negb (is_audio_call c))
    (fst (receive_frames av_rescale_q e s_ e_ vtb etb vsp queue))
  = fst (receive_frames av_rescale_q e s_ e_ vtb etb vsp queue).
Proof.
  intros Hok. induction queue as [|frame q [IH1 IH2]]; cbn [receive_frames].
  - split; reflexivity.
  - rewrite <- IH1, <- Hok.
    destruct (e_ <? in_time_of vtb frame)%float; [split; reflexivity|].
    destruct (in_time_of vtb frame <? s_)%float.
    + destruct (receive_frames av_rescale_q e s_ e_ vtb etb vsp q) as [t x].
      cbn [fst filter is_audio_call negb] in *. rewrite IH2. split; reflexivity.
    + destruct (send_frame_ok e frame); [|split; reflexivity].
      destruct (receive_frames av_rescale_q e s_ e_ vtb etb vsp q) as [t x].
      cbn [fst filter is_audio_call negb] in *. rewrite IH2. split; reflexivity.
Qed.

(** Without the calls that concern audio, the decode loop is the decode
    loop of a run that has no audio output. *)
Lemma read_packets_without_audio av_rescale_q e e' s_ e_ vtb etb vsp asp asp' vi ai ai'
    atb pkts :
  (forall frame, send_frame_ok e frame = send_frame_ok e' frame) ->
  forall queue,
    filter (fun c => negb (is_audio_call c))
      (read_packets av_rescale_q e s_ e_ vtb etb vsp asp vi ai atb pkts queue)
    = read_packets av_rescale_q e' s_ e_ vtb etb vsp asp' vi ai' None pkts queue.
Proof.
  intros Hok. induction pkts as [|pkt rest IH]; intros queue; cbn [read_packets];
    [reflexivity|].
  destruct (stream_index pkt =? vi).
  - destruct (send_ok pkt); [|reflexivity].
    destruct (filter_receive_frames av_rescale_q e e' s_ e_ vtb etb vsp
                (queue ++ decoded pkt) Hok) as [H1 H2].
    rewrite <- H1.
    destruct (receive_frames av_rescale_q e s_ e_ vtb etb vsp (queue ++ decoded pkt))
      as [t x].
    cbn [fst] in H2.
    destruct x; rewrite ?filter_app, ?H2, ?IH; reflexivity.
  - destruct atb as [in_tb|]; [|apply IH].
    destruct (stream_index pkt =? ai); [|apply IH].
    rewrite filter_app, IH. unfold audio_packet.
    match goal with
    | |- context [if ?c then [] else _] => destruct c
    end; reflexivity.
Qed.

(** X25: the audio output is optional.  Whether the audio output stream
    can be created and given its parameters changes neither whether the
    run succeeds nor how it fails, and none of its calls but those that
    concern audio: the same frames are received and sent to the encoder
    with the same timestamps. *)
Theorem X25_audio_is_optional av_rescale_q e size sf w h start_seconds end_seconds
    (stream_ok params_ok : bool) :
  let run :=
    TranscodeWithSizeAndScale av_rescale_q e size sf w h start_seconds end_seconds in
  let run' :=
    TranscodeWithSizeAndScale av_rescale_q (with_audio stream_ok params_ok e)
      size sf w h start_seconds end_seconds in
  fst run' = fst run /\
  filter (fun c => negb (is_audio_call c)) (calls run')
  = filter (fun c => negb (is_audio_call c)) (calls run).
Proof.
  intros run run'. subst run run'. unfold calls.
  unfold TranscodeWithSizeAndScale.
  cbv beta iota zeta delta
    [Transcode.bind Transcode.try_call Transcode.abort_if Transcode.defined
     Transcode.tell Transcode.ret Transcode.select_encoder Transcode.open_audio].
  cbn [app fst snd with_audio
       open_input_ok stream_info_ok streams decoder_found decoder_alloc_ok
       decoder_params_ok decoder_open_ok framerate output_ctx_ok output_nofile
       nvenc_by_name h264_by_id video_stream_ok encoder_alloc_ok encoder_open_ok
       encoder_params_ok audio_stream_ok audio_params_ok audio_out_time_base
       avio_open_ok write_header_ok alloc_ok sws_ok frame_buffer_ok packets
       send_frame_ok].
  repeat both_step.
  all: split; [reflexivity|].
  all: cbn [filter is_audio_call negb]; try reflexivity.
  all: rewrite !filter_app.
  all: repeat match goal with
       | |- context [filter _ (read_packets ?f ?e1 ?s ?n ?vtb ?etb ?vsp ?asp ?vi ?ai
                                 ?atb ?p ?q)] =>
           rewrite (read_packets_without_audio f e1 e s n vtb etb vsp asp 0 vi ai 0
                      atb p) by reflexivity
       end.
  all: reflexivity.
Qed.

(** ** One video stream for all *)

Lemma first_video_agrees (psts : list Probe.Stream) :
  forall (sts : list AVStream) i a,
    0 <= i ->
    map Probe.codec_type psts = map codec_type sts ->
    Probe.first_video psts i = fst (find_streams sts i (-1) a).
Proof.
  induction psts as [|pst prest IH]; intros [|st rest] i a Hi Hmap;
    try discriminate Hmap.
  - reflexivity.
  - cbn [map] in Hmap. injection Hmap as Hty Hmap.
    cbn [Probe.first_video find_streams].
    unfold Probe.is_video, is_video, is_audio. rewrite <- Hty.
    destruct (Probe.codec_type pst); cbn [andb Z.ltb Z.compare].
    + rewrite find_streams_keeps_video by exact Hi. reflexivity.
    + destruct (a <? 0); apply IH; try assumption; lia.
    + apply IH; try assumption; lia.
Qed.

(** X26: the probe, the preview and the transcode agree on the video
    stream: on a file whose streams have the same kinds in the same
    order, the stream that [GetVideoInfo] reports on and that
    [ExtractMiddleFrameBitmap] decodes is the one
    [TranscodeWithSizeAndScale] transcodes, and the probe fails for want
    of a video stream exactly when the transcode would. *)
Theorem X26_same_video_stream (file : Probe.File) (src : Probe.Source) (e : Env)
    (old : Probe.Info) :
  map Probe.codec_type (Probe.streams file) = map codec_type (streams e) ->
  Probe.src_streams src = Probe.streams file ->
  Probe.first_video (Probe.streams file) 0 = video_stream_index e /\
  Probe.first_video (Probe.src_streams src) 0 = video_stream_index e /\
  (Probe.open_input_ok file = true -> Probe.stream_info_ok file = true ->
   (fst (Probe.GetVideoInfo file old) = false <-> video_stream_index e < 0)).
Proof.
  intros Hmap Hsrc. rewrite Hsrc.
  assert (H : Probe.first_video (Probe.streams file) 0 = video_stream_index e).
  { unfold video_stream_index. apply first_video_agrees; [lia | exact Hmap]. }
  split; [exact H|]. split; [exact H|].
  intros Ho Hi. unfold Probe.GetVideoInfo. rewrite Ho, Hi, H. cbn [negb].
  destruct (Z.ltb_spec (video_stream_index e) 0); cbn [fst]; split; intros; try lia;
    try reflexivity; discriminate.
Qed.

(** A file with a data stream in front of its video stream: all three
    take the second stream. *)
Lemma X26_same_video_stream_witness :
  Probe.first_video (Probe.streams Probe.sample_file) 0 = 1 /\
  video_stream_index
    (Transcode.mkEnv true true
       [mkStream AVMEDIA_TYPE_OTHER (mkRational 1 1000);
        mkStream AVMEDIA_TYPE_VIDEO (mkRational 1 1000)]
       true true true true (mkRational 25 1) true false true true
       true true (fun _ => true) true true true (mkRational 1 48000)
       true true true true true [] (fun _ => true)) = 1.
Proof.
  destruct (X26_same_video_stream Probe.sample_file Probe.sample_source
              (Transcode.mkEnv true true
                 [mkStream AVMEDIA_TYPE_OTHER (mkRational 1 1000);
                  mkStream AVMEDIA_TYPE_VIDEO (mkRational 1 1000)]
                 true true true true (mkRational 25 1) true false true true
                 true true (fun _ => true) true true true (mkRational 1 48000)
                 true true true true true [] (fun _ => true))
              (Probe.mkInfo 0 0 0 0) eq_refl eq_refl) as (H & _).
  split; [reflexivity|]. rewrite <- H. reflexivity.
Defined.

